(** * filemanager-plugin: command dispatch, fingerprint cache and progress

    A shallow embedding of the two dispatch entry points of the plugin,
    [handleCommand] (the stand-alone function with the fingerprint cache)
    and the [webpackPlugin] class (constructor, [handleCommand],
    [countTotalTasks], [translateHooks], [apply]), followed by the
    properties the specification states about them.

    The executors ([commander]), the cluster runner ([masterCluster]),
    the host's hooks and [JSON.stringify] are not part of these sources:
    the code is embedded over them, and every property holds whatever
    they are. *)

From Stdlib Require Import ZArith List Bool Ascii String Lia.
From stdpp Require Import base option list strings gmap.
Import ListNotations.

Local Open Scope string_scope.
Local Open Scope Z_scope.
Set Warnings "-register-all".

(** ** JavaScript values

    Job descriptors, option values and the constructor argument are plain
    JavaScript data.  Numbers are the integer-valued ones; a function is
    opaque and only carries a label.  An object is its list of own
    enumerable properties in enumeration order. *)

Inductive JSValue : Type :=
| JUndefined
| JNull
| JBool (b : bool)
| JNum (n : Z)
| JStr (s : string)
| JArr (elements : list JSValue)
| JObj (props : list (string * JSValue))
| JFun (label : string).

(** A plain object used as a bag of named values. *)
Definition Obj : Type := list (string * JSValue).

(** [o[key]] among the own properties: [None] when the key is absent. *)
Fixpoint get {A : Type} (o : list (string * A)) (key : string) : option A :=
  match o with
  | [] => None
  | (k, v) :: rest => if String.eqb k key then Some v else get rest key
  end.

Definition prop (o : Obj) (key : string) : JSValue :=
  match get o key with
  | Some v => v
  | None => JUndefined
  end.

(** Whether [key] is among the own properties. *)
Definition hasOwn {A : Type} (o : list (string * A)) (key : string) : bool :=
  existsb (fun kv => String.eqb (fst kv) key) o.

(** The names of the own properties, in enumeration order. *)
Definition keys {A : Type} (o : list (string * A)) : list string :=
  List.map fst o.

(** [arr.includes(x)] on an array of strings. *)
Definition includes (arr : list string) (x : string) : bool :=
  existsb (String.eqb x) arr.

(** ToBoolean: [undefined], [null], [false], [0] and the empty string are
    falsy, every other value is truthy. *)
Definition truthy (v : JSValue) : bool :=
  match v with
  | JUndefined | JNull => false
  | JBool b => b
  | JNum n => negb (n =? 0)
  | JStr s => negb (String.eqb s EmptyString)
  | JArr _ | JObj _ | JFun _ => true
  end.

(** A destructuring default [{ x = d }]: the default replaces exactly
    [undefined]. *)
Definition orDefault (v d : JSValue) : JSValue :=
  match v with
  | JUndefined => d
  | _ => v
  end.

(** [target[key] = v]: an existing property keeps its place, a new one
    is added last. *)
Fixpoint setProp (target : Obj) (key : string) (v : JSValue) : Obj :=
  match target with
  | [] => [(key, v)]
  | (k, w) :: rest =>
      if String.eqb k key then (k, v) :: rest else (k, w) :: setProp rest key v
  end.

Definition copyProps (target source : Obj) : Obj :=
  fold_left (fun acc kv => setProp acc (fst kv) (snd kv)) source target.

(** [Object.assign({}, a, b)]. *)
Definition Object_assign (a b : Obj) : Obj :=
  copyProps (copyProps [] a) b.

(** ** Outcomes *)

Inductive Error : Type :=
| TypeError
| Rejection (reason : JSValue).

(** What an awaited call or a statement ends in. *)
Inductive Outcome (A : Type) : Type :=
| Done (a : A)
| Thrown (e : Error).
Arguments Done {A} a.
Arguments Thrown {A} e.

(** What a promise returned by a collaborator settles to. *)
Inductive Promise (A : Type) : Type :=
| Resolved (a : A)
| Rejected (reason : JSValue).
Arguments Resolved {A} a.
Arguments Rejected {A} reason.

(** ** Objects whose methods are called

    The batch and the [events] object are objects on which the code
    calls [hasOwnProperty] and which it walks with [for ... in].  Such
    an object is its own enumerable properties, in the order the loop
    visits them, and whether it inherits from [Object.prototype], as an
    object literal or a parsed JSON text does and an object made by
    [Object.create(null)] does not.  Objects with a prototype of their
    own making are not covered. *)

Record Dict (A : Type) : Type := mkDict {
  ordinary : bool;
  props : list (string * A)
}.
Arguments mkDict {A} _ _.
Arguments ordinary {A} _.
Arguments props {A} _.

(** An object literal. *)
Definition literal {A : Type} (l : list (string * A)) : Dict A := mkDict true l.

(** The keys a [for (const k in o)] loop visits, in order. *)
Definition ownKeys {A : Type} (o : Dict A) : list string := keys (props o).

(** Whether [o.hasOwnProperty] is the method of [Object.prototype]: the
    object inherits it and has no own property of that name. *)
Definition resolves {A : Type} (o : Dict A) : bool :=
  ordinary o && negb (hasOwn (props o) "hasOwnProperty").

(** [o.hasOwnProperty(key)].  Where the method is not inherited, or an
    own property of that name hides it, what is called is [undefined] or
    a value of the object, none of which is a function here: the call
    throws. *)
Definition hasOwnProperty {A : Type} (o : Dict A) (key : string) : Outcome bool :=
  if resolves o then Done (hasOwn (props o) key) else Thrown TypeError.

(** ** The command batch *)

Definition COMMAND_LIST : list string :=
  ["copy"; "move"; "del"; "zip"; "unzip"; "rename"].

(** A batch value [{ items, options }], in the documented shape: when
    present, [items] is an array of job descriptors and [options] an
    object.  [None] is a property that is absent (or [undefined]).
    Values of another shape ([items: null], a number for [items]) are
    not covered. *)
Record CommandEntry : Type := mkEntry {
  entry_items : option (list JSValue);
  entry_options : option Obj
}.

(** What a batch holds under a key: such an object, [null] or
    [undefined]. *)
Inductive BatchValue : Type :=
| BUndefined
| BNull
| BEntry (e : CommandEntry).

(** The batch. *)
Definition Commands : Type := Dict BatchValue.

Definition emptyEntry : CommandEntry := mkEntry None None.

(** [commands[command]] for a command name. *)
Definition at_key (commands : Commands) (command : string) : BatchValue :=
  match get (props commands) command with
  | Some v => v
  | None => BUndefined
  end.

(** [v || {}]. *)
Definition orEmptyObject (v : BatchValue) : CommandEntry :=
  match v with
  | BEntry e => e
  | BUndefined | BNull => emptyEntry
  end.

(** [const { ... } = v]: destructuring [null] or [undefined] throws. *)
Definition destructure (v : BatchValue) : Outcome CommandEntry :=
  match v with
  | BEntry e => Done e
  | BUndefined | BNull => Thrown TypeError
  end.

(** ** Runtime: observable events and the mutable state *)

(** The calls that leave the dispatch core, in the order they are made. *)
Inductive Event : Type :=
| Exec (command : string) (item : JSValue) (opts : Obj)
| Cluster (jobs : list JSValue) (cpu : JSValue) (type : string) (opts : Obj)
| CacheWrite (command : string) (content : string)
| SetSpeed (n : Z)
| Tap (hookName : option string) (hookType : string)
      (registerName : option string) (commands : Commands)
| LoggerError
| HostCallback.

(** Modelled from the spec: the progress sink made by [progress(...)] of
    ./utils, which is not part of the sources at hand.  It accepts
    "N more of T total completed" notifications: [setSpeed(n)] adds [n]
    to the completed count. *)
Record ProgressBar : Type := mkProgress {
  taskName : string;
  total : Z;
  completed : Z
}.

Definition setSpeed (n : Z) (p : ProgressBar) : ProgressBar :=
  {| taskName := taskName p; total := total p; completed := completed p + n |}.

(** Modelled from the spec: [cacheSingle()] of ./utils, which is not part
    of the sources at hand, returns the one process-wide cache object: a
    map from command name to the stored fingerprint, a key without entry
    reading as [undefined].  The field [cache] below is that object;
    [progress] is [this.progress] of the plugin instance, [world] the
    state of whatever the executors act on, [trace] the calls made so
    far. *)
Record Runtime (World : Type) : Type := mkRuntime {
  world : World;
  cache : gmap string string;
  progress : option ProgressBar;
  trace : list Event
}.
Arguments mkRuntime {World} _ _ _ _.
Arguments world {World} _.
Arguments cache {World} _.
Arguments progress {World} _.
Arguments trace {World} _.

(** Statements and awaited calls act on the runtime and either complete
    or throw; a throw ends everything that follows. *)
Definition Action (World A : Type) : Type :=
  Runtime World -> Runtime World * Outcome A.

Definition ret {World A : Type} (a : A) : Action World A :=
  fun rt => (rt, Done a).

Definition throw {World A : Type} (e : Error) : Action World A :=
  fun rt => (rt, Thrown e).

Definition bind {World A B : Type} (m : Action World A) (k : A -> Action World B)
  : Action World B :=
  fun rt =>
    match m rt with
    | (rt', Done a) => k a rt'
    | (rt', Thrown e) => (rt', Thrown e)
    end.

Notation "x <- m ;; k" := (bind m (fun x => k))
  (at level 100, m at next level, right associativity).
Notation "m ;; k" := (bind m (fun _ => k))
  (at level 100, right associativity).

(** A [for] loop whose body is awaited on each element in turn. *)
Fixpoint forEach {World A : Type} (body : A -> Action World unit) (l : list A)
  : Action World unit :=
  match l with
  | [] => ret tt
  | x :: rest => body x ;; forEach body rest
  end.

Definition emit {World : Type} (e : Event) : Action World unit :=
  fun rt => (mkRuntime (world rt) (cache rt) (progress rt) (trace rt ++ [e]), Done tt).

(** ** The plugin's options and hook items *)

(** One element of the translated hook list: which compiler hook to
    register on, under which name, and the batch to run there. *)
Record HookItem : Type := mkHook {
  hookType : string;
  hookName : option string;
  registerName : option string;
  hookCommands : Commands
}.

(** The options object given to the plugin: [None] is a property that
    is absent.  Under an event, [events] holds a batch, or a falsy value,
    which reads as [None] there. *)
Record PluginOptions : Type := mkOptions {
  opt_options : option Obj;
  opt_events : option (Dict (option Commands));
  opt_customHooks : option (list HookItem)
}.

Definition noOptions : PluginOptions := mkOptions None None None.

(** What [new webpackPlugin(opts)] can be given: an options object, or
    any other JavaScript value. *)
Inductive ConstructorArg : Type :=
| ArgOptions (o : PluginOptions)
| ArgUndefined
| ArgNull
| ArgBoolean (b : bool)
| ArgNumber (n : Z)
| ArgString (s : string)
| ArgArray (elements : list JSValue)
| ArgFunction (label : string).

(** [Object.prototype.toString.call(opts)]. *)
Definition Object_prototype_toString (opts : ConstructorArg) : string :=
  match opts with
  | ArgOptions _ => "[object Object]"
  | ArgUndefined => "[object Undefined]"
  | ArgNull => "[object Null]"
  | ArgBoolean _ => "[object Boolean]"
  | ArgNumber _ => "[object Number]"
  | ArgString _ => "[object String]"
  | ArgArray _ => "[object Array]"
  | ArgFunction _ => "[object Function]"
  end.

Definition NAMESPACE_REGISTER_NAME : string := "REGISTER_".
Definition PROGRESS_TASK_NAME : string := "file manager".

Record BuiltinEvent : Type := mkBuiltin {
  builtin_hookType : string;
  builtin_hookName : string;
  builtin_registerName : string
}.

Definition BUILTIN_EVENTS_MAP : list (string * BuiltinEvent) :=
  [ ("start", mkBuiltin "tapAsync" "beforeRun" (NAMESPACE_REGISTER_NAME +:+ "beforeRun"));
    ("end", mkBuiltin "tapAsync" "afterEmit" (NAMESPACE_REGISTER_NAME +:+ "afterEmit")) ].

Definition BUILTIN_EVENT_NAMES : list string := keys BUILTIN_EVENTS_MAP.

(** The three conventions under which a batch is handed to the host. *)
Inductive CallbackStyle : Type :=
| tabCallback
| tapPromiseCallback
| tapAsyncCallback.

(** The instance: [this.options]; [this.hookTypesMap] is the same for
    every instance and [this.progress] lives in the runtime. *)
Record webpackPlugin : Type := mkPlugin {
  this_options : PluginOptions
}.

(** The own properties of [this.hookTypesMap]. *)
Definition hookTypesMap : list (string * CallbackStyle) :=
  [ ("tap", tabCallback);
    ("tapPromise", tapPromiseCallback);
    ("tapAsync", tapAsyncCallback) ].

(** The members every object literal inherits from [Object.prototype]. *)
Definition Object_prototype_members : list string :=
  ["constructor"; "__defineGetter__"; "__defineSetter__"; "hasOwnProperty";
   "__lookupGetter__"; "__lookupSetter__"; "isPrototypeOf";
   "propertyIsEnumerable"; "toString"; "valueOf"; "__proto__"; "toLocaleString"].

(** What [this.hookTypesMap[hookType]] finds: one of the three
    callbacks, or a member inherited from [Object.prototype]. *)
Inductive HookTypeMember : Type :=
| OwnCallback (style : CallbackStyle)
| Inherited.

Definition hookTypesMap_at (hookType : string) : option HookTypeMember :=
  match get hookTypesMap hookType with
  | Some style => Some (OwnCallback style)
  | None =>
      if includes Object_prototype_members hookType then Some Inherited else None
  end.

Definition webpackPlugin_constructor (opts : ConstructorArg) : webpackPlugin :=
  let options := noOptions in
  let options :=
    if String.eqb (Object_prototype_toString opts) "[object Object]"
    then match opts with
         | ArgOptions o => o
         | _ => options
         end
    else options in
  mkPlugin options.

(** [this.hookTypesMap[hookType]] is truthy: every member it can find is
    a function or an object. *)
Definition supportedHookType (hookType : string) : bool :=
  match hookTypesMap_at hookType with
  | Some _ => true
  | None => false
  end.

(** A fold whose step may throw. *)
Fixpoint foldOutcome {A B : Type} (step : B -> A -> Outcome B) (l : list A) (acc : B)
  : Outcome B :=
  match l with
  | [] => Done acc
  | x :: rest =>
      match step acc x with
      | Done acc' => foldOutcome step rest acc'
      | Thrown e => Thrown e
      end
  end.

(** The inner loop of [countTotalTasks] over one hook item's batch. *)
Definition countCommands (commands : Commands) (result : Z) : Outcome Z :=
  foldOutcome
    (fun result command =>
       match hasOwnProperty commands command with
       | Thrown e => Thrown e
       | Done own =>
           if own && includes COMMAND_LIST command then
             match destructure (at_key commands command) with
             | Done entry =>
                 let items := default [] (entry_items entry) in
                 Done (result + Z.of_nat (length items))
             | Thrown e => Thrown e
             end
           else Done result
       end)
    (ownKeys commands) result.

Definition webpackPlugin_countTotalTasks (options : list HookItem) : Outcome Z :=
  foldOutcome
    (fun result hookItem =>
       if negb (supportedHookType (hookType hookItem)) then Done result
       else countCommands (hookCommands hookItem) result)
    options 0.

(** The text [NAMESPACE_REGISTER_NAME + hookName] for a hook name that
    may be [undefined]. *)
Definition registerNameFor (hookName : option string) : string :=
  NAMESPACE_REGISTER_NAME +:+ default "undefined" hookName.

Definition falsyName (registerName : option string) : bool :=
  match registerName with
  | None => true
  | Some s => String.eqb s EmptyString
  end.

(** A loop that pushes to a result list and may throw. *)
Fixpoint collect {A B : Type} (f : A -> Outcome (list B)) (l : list A)
  : Outcome (list B) :=
  match l with
  | [] => Done []
  | x :: rest =>
      match f x with
      | Thrown e => Thrown e
      | Done ys =>
          match collect f rest with
          | Done zs => Done (ys ++ zs)%list
          | Thrown e => Thrown e
          end
      end
  end.

(** [translateHooks]: custom hooks win when there is at least one;
    otherwise the built-in events [start] and [end] are translated.  A
    custom hook without register name is given one. *)
Definition webpackPlugin_translateHooks (this : webpackPlugin)
  : Outcome (list HookItem) :=
  let events := default (literal []) (opt_events (this_options this)) in
  let customHooks := default [] (opt_customHooks (this_options this)) in
  if (0 <? length customHooks)%nat then
    Done
      (List.map
         (fun hook =>
            if falsyName (registerName hook)
            then mkHook (hookType hook) (hookName hook)
                   (Some (registerNameFor (hookName hook))) (hookCommands hook)
            else hook)
         customHooks)
  else
    collect
      (fun event =>
         match hasOwnProperty events event with
         | Thrown e => Thrown e
         | Done own =>
             if own && includes BUILTIN_EVENT_NAMES event then
               match get (props events) event, get BUILTIN_EVENTS_MAP event with
               | Some (Some commands), Some b =>
                   Done [mkHook (builtin_hookType b) (Some (builtin_hookName b))
                           (Some (builtin_registerName b)) commands]
               | _, _ => Done []
               end
             else Done []
         end)
      (ownKeys events).

(** ** The two dispatch entry points *)

Section Dispatch.
Context {World : Type}.

(** The executor capability [commander[command](item, opts)], which
    the table [commander] has for each of the six commands, and the
    cluster runner [masterCluster({ jobs, cpu, type }, opts)] are
    collaborators: each acts on the world and returns a promise, the
    cluster runner's resolving to the number of completed jobs. *)
Variable commander :
  string -> JSValue -> Obj -> World -> World * Promise unit.
Variable masterCluster :
  list JSValue -> JSValue -> string -> Obj -> World -> World * Promise Z.

(** Whether the statement in the [try] block of [apply],
    [compiler.hooks[hookName][hookType](registerName,
    this.hookTypesMap[hookType](commands))], throws, be it in making the
    callback or in the host's call. *)
Variable tapThrows : option string -> string -> bool.

(** [JSON.stringify] on an item list of plain data: the text the
    language's own serialization gives for it. *)
Variable JSON_stringify : list JSValue -> string.

Definition settle {A : Type} (e : Event) (call : World -> World * Promise A)
  : Action World A :=
  fun rt =>
    let (w, p) := call (world rt) in
    let rt' := mkRuntime w (cache rt) (progress rt) (trace rt ++ [e]) in
    match p with
    | Resolved a => (rt', Done a)
    | Rejected reason => (rt', Thrown (Rejection reason))
    end.

(** [await commander[command](item, opts)]. *)
Definition await_commander (command : string) (item : JSValue) (opts : Obj)
  : Action World unit :=
  settle (Exec command item opts) (commander command item opts).

(** [await masterCluster({ jobs, cpu, type }, opts)]. *)
Definition await_masterCluster
  (jobs : list JSValue) (cpu : JSValue) (type : string) (opts : Obj)
  : Action World Z :=
  settle (Cluster jobs cpu type opts) (masterCluster jobs cpu type opts).

(** [cacheSingle()[command] === content]. *)
Definition cacheHolds (command content : string) (rt : Runtime World) : bool :=
  bool_decide (cache rt !! command = Some content).

(** [cacheSingle()[command] = content]. *)
Definition cacheStore (command content : string) : Action World unit :=
  fun rt =>
    (mkRuntime (world rt) (<[command := content]> (cache rt)) (progress rt)
       (trace rt ++ [CacheWrite command content]),
     Done tt).

(** [this.progress.setSpeed(n)]; it throws when [this.progress] was
    never set. *)
Definition progress_setSpeed (n : Z) : Action World unit :=
  fun rt =>
    match progress rt with
    | Some p =>
        (mkRuntime (world rt) (cache rt) (Some (setSpeed n p))
           (trace rt ++ [SetSpeed n]),
         Done tt)
    | None => (rt, Thrown TypeError)
    end.

(** *** handleCommand, the stand-alone function *)

(** The body of the [for ... in] loop for one key. *)
Definition handleCommand_step
  (commands : Commands) (globalOptions : Obj) (command : string)
  : Action World unit :=
  match hasOwnProperty commands command with
  | Thrown e => throw e
  | Done own =>
      if own && includes COMMAND_LIST command then
        let entry := orEmptyObject (at_key commands command) in
        let items := default [] (entry_items entry) in
        let options := default [] (entry_options entry) in
        let opts := Object_assign globalOptions options in
        let parallel := prop globalOptions "parallel" in
        let optCache := orDefault (prop opts "cache") (JBool true) in
        let content := JSON_stringify items in
        fun rt =>
          if (truthy optCache && cacheHolds command content rt)
             || (length items =? 0)%nat
          then (rt, Done tt)
          else
            ((if truthy parallel
              then _ <- await_masterCluster items parallel command opts ;; ret tt
              else forEach (fun item => await_commander command item opts) items) ;;
             (if truthy optCache then cacheStore command content else ret tt)) rt
      else ret tt
  end.

(** [handleCommand(commands = {}, globalOptions = {})]; an argument is
    [None] when it is left out or [undefined]. *)
Definition handleCommand
  (commands : option Commands) (globalOptions : option Obj)
  : Action World unit :=
  let commands := default (literal []) commands in
  let globalOptions := default [] globalOptions in
  forEach (handleCommand_step commands globalOptions) (ownKeys commands).

(** *** The webpackPlugin class *)

Definition webpackPlugin_handleCommand_step
  (this : webpackPlugin) (commands : Commands) (command : string)
  : Action World unit :=
  let globalOptions := default [] (opt_options (this_options this)) in
  match hasOwnProperty commands command with
  | Thrown e => throw e
  | Done own =>
      if own && includes COMMAND_LIST command then
        match destructure (at_key commands command) with
        | Thrown e => throw e
        | Done entry =>
            let items := default [] (entry_items entry) in
            let options := default [] (entry_options entry) in
            let opts := Object_assign globalOptions options in
            let progress := prop globalOptions "progress" in
            let parallel := prop globalOptions "parallel" in
            if truthy parallel then
              completedNum <- await_masterCluster items parallel command opts ;;
              (if truthy progress then progress_setSpeed completedNum else ret tt)
            else
              forEach
                (fun item =>
                   await_commander command item opts ;;
                   (if truthy progress then progress_setSpeed 1 else ret tt))
                items
        end
      else ret tt
  end.

Definition webpackPlugin_handleCommand
  (this : webpackPlugin) (commands : Commands) : Action World unit :=
  forEach (webpackPlugin_handleCommand_step this commands) (ownKeys commands).

(** The function registered with the host for a hook type. *)
Definition hookCallback
  (this : webpackPlugin) (style : CallbackStyle) (commands : Commands)
  : Action World unit :=
  match style with
  | tabCallback => webpackPlugin_handleCommand this commands
  | tapPromiseCallback => webpackPlugin_handleCommand this commands
  | tapAsyncCallback =>
      webpackPlugin_handleCommand this commands ;; emit HostCallback
  end.

(** [apply(compiler)]: the hooks are translated, the total is counted,
    the progress sink is made when progress is asked for, and for each
    hook item whose type [this.hookTypesMap] has, the call on the host's
    hook is made; a call that throws is logged and passed over. *)
Definition webpackPlugin_apply (this : webpackPlugin) : Action World unit :=
  let globalOptions := default [] (opt_options (this_options this)) in
  match webpackPlugin_translateHooks this with
  | Thrown e => throw e
  | Done options =>
      match webpackPlugin_countTotalTasks options with
      | Thrown e => throw e
      | Done totalTasks =>
          (fun rt =>
             if truthy (prop globalOptions "progress")
             then (mkRuntime (world rt) (cache rt)
                     (Some (mkProgress PROGRESS_TASK_NAME totalTasks 0)) (trace rt),
                   Done tt)
             else (rt, Done tt)) ;;
          forEach
            (fun hookItem =>
               if negb (supportedHookType (hookType hookItem)) then ret tt
               else if tapThrows (hookName hookItem) (hookType hookItem)
                    then emit LoggerError
                    else emit (Tap (hookName hookItem) (hookType hookItem)
                                 (registerName hookItem) (hookCommands hookItem)))
            options
      end
  end.

End Dispatch.

(** ** Vocabulary of the specification *)

(** The item list of a command: what [items] is bound to in
    [handleCommand]. *)
Definition itemsOf (commands : Commands) (command : string) : list JSValue :=
  default [] (entry_items (orEmptyObject (at_key commands command))).

(** The per-command options of a batch entry, empty when not given. *)
Definition optionsOf (commands : Commands) (command : string) : Obj :=
  default [] (entry_options (orEmptyObject (at_key commands command))).

(** The merged options: the global ones overridden key by key by the
    command's own. *)
Definition mergedOptions (commands : Commands) (globalOptions : Obj) (command : string)
  : Obj :=
  Object_assign globalOptions
    (default [] (entry_options (orEmptyObject (at_key commands command)))).

(** The cache flag of an option set, [true] when it is not given. *)
Definition cacheEnabled (opts : Obj) : bool :=
  truthy (orDefault (prop opts "cache") (JBool true)).

(** The fingerprint of a command's item list. *)
Definition fingerprint (JSON_stringify : list JSValue -> string)
  (commands : Commands) (command : string) : string :=
  JSON_stringify (itemsOf commands command).

(** The global options of a plugin instance: [this.options.options],
    empty when not given. *)
Definition globalOptionsOf (this : webpackPlugin) : Obj :=
  default [] (opt_options (this_options this)).

(** A key on which the guard of the loop passes: the [hasOwnProperty]
    call returns [true] and the key is one of the six command names. *)
Definition recognized (commands : Commands) (command : string) : bool :=
  resolves commands && hasOwn (props commands) command
  && includes COMMAND_LIST command.

(** The skip condition of the specification. *)
Definition skipCondition {World : Type} (JSON_stringify : list JSValue -> string)
  (commands : Commands) (globalOptions : Obj) (command : string) (rt : Runtime World)
  : bool :=
  (cacheEnabled (mergedOptions commands globalOptions command)
   && bool_decide (cache rt !! command
                   = Some (fingerprint JSON_stringify commands command)))
  || bool_decide (itemsOf commands command = []).

Definition isExec (e : Event) : bool :=
  match e with
  | Exec _ _ _ => true
  | _ => false
  end.

Definition isCluster (e : Event) : bool :=
  match e with
  | Cluster _ _ _ _ => true
  | _ => false
  end.

Definition isCacheWrite (e : Event) : bool :=
  match e with
  | CacheWrite _ _ => true
  | _ => false
  end.

Definition isSetSpeed (e : Event) : bool :=
  match e with
  | SetSpeed _ => true
  | _ => false
  end.

Definition isHostCallback (e : Event) : bool :=
  match e with
  | HostCallback => true
  | _ => false
  end.

(** The world after the executor has been awaited on each of [done] in
    turn. *)
Definition worldAfter {World : Type}
  (commander : string -> JSValue -> Obj -> World -> World * Promise unit)
  (command : string) (opts : Obj) (done : list JSValue) (w : World) : World :=
  fold_left (fun w item => fst (commander command item opts w)) done w.

(** Every executor call on [items], made in turn from the world [w],
    resolves. *)
Fixpoint allResolve {World : Type}
  (commander : string -> JSValue -> Obj -> World -> World * Promise unit)
  (command : string) (opts : Obj) (items : list JSValue) (w : World) : bool :=
  match items with
  | [] => true
  | item :: rest =>
      match commander command item opts w with
      | (w', Resolved _) => allResolve commander command opts rest w'
      | (_, Rejected _) => false
      end
  end.

(** The runtime [rt] after calls that left the world [w] and the events
    [events], cache and progress sink being as they were. *)
Definition withCalls {World : Type} (rt : Runtime World) (w : World)
  (events : list Event) : Runtime World :=
  mkRuntime w (cache rt) (progress rt) (trace rt ++ events).

(** The runtime after the closing statement of a command,
    [optCache && (cacheSingle()[command] = content)]. *)
Definition withCacheWrite {World : Type} (enabled : bool) (command content : string)
  (rt : Runtime World) : Runtime World :=
  if enabled
  then mkRuntime (world rt) (<[command := content]> (cache rt)) (progress rt)
         (trace rt ++ [CacheWrite command content])
  else rt.

(** The runtime after [done] more items were reported to the progress
    sink [p]. *)
Definition withProgress {World : Type} (rt : Runtime World) (w : World)
  (p : ProgressBar) (done : Z) (events : list Event) : Runtime World :=
  mkRuntime w (cache rt) (Some (setSpeed done p)) (trace rt ++ events).

(** The same runtime with another cache. *)
Definition withCache {World : Type} (c : gmap string string) (rt : Runtime World)
  : Runtime World :=
  mkRuntime (world rt) c (progress rt) (trace rt).

(** The trace of [rt'] is the trace of [rt] followed by events of the
    allowed kinds only. *)
Definition addsOnly {World : Type} (allowed : Event -> bool) (rt rt' : Runtime World)
  : Prop :=
  exists added, trace rt' = (trace rt ++ added)%list /\ forallb allowed added = true.

(** The item count of one batch: the items of its recognized commands. *)
Definition itemCount (commands : Commands) : Z :=
  fold_right Z.add 0
    (List.map (fun command => Z.of_nat (length (itemsOf commands command)))
       (List.filter (recognized commands) (ownKeys commands))).

(** The total of the specification: the item counts of the recognized
    commands under the hook items of a supported type. *)
Definition eligibleItemCount (options : list HookItem) : Z :=
  fold_right Z.add 0
    (List.map
       (fun hookItem =>
          if supportedHookType (hookType hookItem)
          then itemCount (hookCommands hookItem)
          else 0)
       options).

(** What [apply] leaves in the trace for a hook item of a supported
    type: the call on the host's hook, or the logged error when the call
    throws. *)
Definition registrationEvent
  (tapThrows : option string -> string -> bool) (hookItem : HookItem) : Event :=
  if tapThrows (hookName hookItem) (hookType hookItem)
  then LoggerError
  else Tap (hookName hookItem) (hookType hookItem) (registerName hookItem)
         (hookCommands hookItem).

(** A batch on which [countTotalTasks] and the plugin's [handleCommand]
    do not throw: it has no key, or the [hasOwnProperty] call resolves
    and every recognized command is an object. *)
Definition entriesAreObjects (commands : Commands) : Prop :=
  (ownKeys commands = [] \/ resolves commands = true) /\
  forall command,
    In command (ownKeys commands) ->
    recognized commands command = true ->
    exists e, at_key commands command = BEntry e.

(** The plugin tracks progress: the [progress] of its global options is
    truthy. *)
Definition tracksProgress (this : webpackPlugin) : bool :=
  truthy (prop (globalOptionsOf this) "progress").

(** Where progress is tracked, the sink [this.progress] is in place. *)
Definition sinkReady {World : Type} (tracked : bool) (rt : Runtime World) : Prop :=
  tracked = true -> progress rt <> None.

(** What the plugin tells the sink after a call: [setSpeed(n)] when
    progress is tracked, nothing otherwise. *)
Definition report (tracked : bool) (n : Z) : list Event :=
  if tracked then [SetSpeed n] else [].

(** The sink after [n] more items were reported to it. *)
Definition reported (tracked : bool) (n : Z) (sink : option ProgressBar)
  : option ProgressBar :=
  if tracked then option_map (setSpeed n) sink else sink.

(** The runtime of the plugin after calls that left the world [w] and
    the events [events], [n] more items being reported where progress is
    tracked. *)
Definition withReport {World : Type} (tracked : bool) (rt : Runtime World) (w : World)
  (n : Z) (events : list Event) : Runtime World :=
  mkRuntime w (cache rt) (reported tracked n (progress rt)) (trace rt ++ events).

(** ** Executors and batches of the examples

    A world that counts the jobs done.  The executor rejects the job
    ["locked"] and completes every other one; the cluster runner
    completes all its jobs. *)

Definition countingCommander
  (command : string) (item : JSValue) (opts : Obj) (w : nat) : nat * Promise unit :=
  match item with
  | JStr "locked" => (w, Rejected (JStr "EACCES"))
  | _ => (S w, Resolved tt)
  end.

Definition countingCluster
  (jobs : list JSValue) (cpu : JSValue) (type : string) (opts : Obj) (w : nat)
  : nat * Promise Z :=
  ((w + length jobs)%nat, Resolved (Z.of_nat (length jobs))).

Definition neverThrows (hookName : option string) (hookType : string) : bool := false.

(** The serialization of the examples.  On an array of strings of
    letters, all the examples use, it is the text [JSON.stringify]
    gives: the strings between double quotes, separated by commas,
    between brackets. *)
Definition dquote : string := String (ascii_of_nat 34) EmptyString.

Fixpoint joinWith (sep : string) (parts : list string) : string :=
  match parts with
  | [] => EmptyString
  | [p] => p
  | p :: rest => p +:+ sep +:+ joinWith sep rest
  end.

Definition lettersJSON (items : list JSValue) : string :=
  "[" +:+ joinWith ","
            (List.map (fun item =>
                         match item with
                         | JStr s => dquote +:+ s +:+ dquote
                         | _ => "null"
                         end) items)
      +:+ "]".

Definition freshRuntime : Runtime nat := mkRuntime 0%nat ∅ None [].

Definition copyTwo : Commands :=
  literal [("copy", BEntry (mkEntry (Some [JStr "a"; JStr "b"]) (Some [])))].

Definition copyWithOwnParallel : Commands :=
  literal [("copy", BEntry (mkEntry (Some [JStr "a"; JStr "b"])
                              (Some [("parallel", JNum 2)])))].

Definition copySequentially : Commands :=
  literal [("copy", BEntry (mkEntry (Some [JStr "a"; JStr "b"])
                              (Some [("parallel", JNum 0)])))].

Definition copyWithoutOptions : Commands :=
  literal [("copy", BEntry (mkEntry (Some [JStr "a"]) None))].

Definition copyLockedThenDel : Commands :=
  literal [("copy", BEntry (mkEntry (Some [JStr "a"; JStr "locked"; JStr "b"]) None));
           ("del", BEntry (mkEntry (Some [JStr "tmp"]) None))].

Definition copyNothing : Commands :=
  literal [("copy", BEntry (mkEntry (Some []) None))].

Definition delNothing : Commands := literal [("del", BNull)].

Definition copyNull : Commands := literal [("copy", BNull)].

(** [copyTwo] with the cache switched off for the command. *)
Definition copyTwoUncached : Commands :=
  literal [("copy", BEntry (mkEntry (Some [JStr "a"; JStr "b"])
                              (Some [("cache", JBool false)])))].

(** A batch with an own property named [hasOwnProperty] before its
    [copy], and a batch without prototype. *)
Definition shadowingBatch : Commands :=
  literal [("hasOwnProperty", BEntry (mkEntry (Some [JStr "x"]) None));
           ("copy", BEntry (mkEntry (Some [JStr "a"; JStr "b"]) (Some [])))].

Definition bareBatch : Commands :=
  mkDict false [("chmod", BEntry (mkEntry (Some [JStr "x"]) None))].

Definition copyTwoFingerprint : string := lettersJSON [JStr "a"; JStr "b"].

(** The runtime in which the fingerprint of [copyTwo] is stored. *)
Definition cachedRuntime : Runtime nat :=
  mkRuntime 0%nat {[ "copy" := copyTwoFingerprint ]} None [].

(** The runtime a first run of [copyTwo] ends in. *)
Definition afterCopyTwo : Runtime nat :=
  mkRuntime 2%nat {[ "copy" := copyTwoFingerprint ]} None
    [Exec "copy" (JStr "a") []; Exec "copy" (JStr "b") [];
     CacheWrite "copy" copyTwoFingerprint].

(** A plugin that tracks progress and runs [copyTwo] at the end of the
    build, and runtimes in which its sink is in place. *)
Definition trackingPlugin : webpackPlugin :=
  mkPlugin (mkOptions (Some [("progress", JBool true)])
              (Some (literal [("end", Some copyTwo)])) None).

Definition trackedRuntime : Runtime nat :=
  mkRuntime 0%nat ∅ (Some (mkProgress PROGRESS_TASK_NAME 2 0)) [].

Definition trackedCachedRuntime : Runtime nat :=
  mkRuntime 0%nat {[ "copy" := copyTwoFingerprint ]}
    (Some (mkProgress PROGRESS_TASK_NAME 2 0)) [].

(** A plugin without options, and one that hands every command to two
    workers and tracks progress. *)
Definition plainPlugin : webpackPlugin := mkPlugin noOptions.

Definition parallelPlugin : webpackPlugin :=
  mkPlugin (mkOptions (Some [("parallel", JNum 2); ("progress", JBool true)])
              None None).

(** A runtime in which no progress sink was made. *)
Definition sinklessRuntime : Runtime nat := mkRuntime 0%nat ∅ None [].

(** A plugin whose [end] batch has [null] under [copy]. *)
Definition nullEntryPlugin : webpackPlugin :=
  mkPlugin (mkOptions None (Some (literal [("end", Some copyNull)])) None).

Definition nullEntryHook : HookItem :=
  mkHook "tapAsync" (Some "afterEmit") (Some "REGISTER_afterEmit") copyNull.

(** Two custom hooks, the first without register name; and a plugin
    that is given them beside an event. *)
Definition customHooksSample : list HookItem :=
  [mkHook "tap" (Some "done") None copyTwo;
   mkHook "tapPromise" (Some "emit") (Some "mine") copyWithoutOptions].

Definition customPlugin : webpackPlugin :=
  mkPlugin (mkOptions None (Some (literal [("end", Some copyTwo)]))
              (Some customHooksSample)).

(** A custom hook whose type is a member every object inherits. *)
Definition inheritedTypeHook : HookItem :=
  mkHook "constructor" (Some "done") (Some "mine") copyTwo.

Definition inheritedTypePlugin : webpackPlugin :=
  mkPlugin (mkOptions (Some [("progress", JBool true)]) None
              (Some [inheritedTypeHook])).

(** A plugin with an event that is not a built-in one. *)
Definition strayEventPlugin : webpackPlugin :=
  mkPlugin (mkOptions None
              (Some (literal ([("start", Some copyTwo)]
                                ++ ("compile", Some copyTwo) :: [])%list))
              None).


(** An executor stub that records the items it is called on, in the
    order of the calls. *)
Definition recordingCommander
  (command : string) (item : JSValue) (opts : Obj) (w : list JSValue)
  : list JSValue * Promise unit :=
  ((w ++ [item])%list, Resolved tt).

Definition recordingCluster
  (jobs : list JSValue) (cpu : JSValue) (type : string) (opts : Obj) (w : list JSValue)
  : list JSValue * Promise Z :=
  (w, Resolved (Z.of_nat (length jobs))).

(** The global options of the examples. *)
Definition progressOn : Obj := [("progress", JBool true)].

Definition cacheOn : Obj := [("cache", JBool true)].

(** ** Properties *)

Local Open Scope list_scope.

Section Properties.
Context {World : Type}.
Variable commander :
  string -> JSValue -> Obj -> World -> World * Promise unit.
Variable masterCluster :
  list JSValue -> JSValue -> string -> Obj -> World -> World * Promise Z.
Variable tapThrows : option string -> string -> bool.
Variable JSON_stringify : list JSValue -> string.

Local Abbreviation step := (handleCommand_step commander masterCluster JSON_stringify).
Local Abbreviation run := (handleCommand commander masterCluster JSON_stringify).
Local Abbreviation pluginStep := (webpackPlugin_handleCommand_step commander masterCluster).
Local Abbreviation pluginRun := (webpackPlugin_handleCommand commander masterCluster).
Local Abbreviation exec := (await_commander commander).
Local Abbreviation skipped := (skipCondition JSON_stringify).
Local Abbreviation resolveAll := (allResolve commander).
Local Abbreviation after_ := (worldAfter commander).

(** *** Loops *)

Lemma forEach_app {A : Type} (body : A -> Action World unit) (l1 l2 : list A) rt :
  forEach body (l1 ++ l2) rt =
  match forEach body l1 rt with
  | (rt', Done _) => forEach body l2 rt'
  | (rt', Thrown e) => (rt', Thrown e)
  end.
Proof.
  revert rt. induction l1 as [|x l1 IH]; intros rt; simpl.
  - reflexivity.
  - unfold bind. destruct (body x rt) as [rt' [[]|e]]; [apply IH | reflexivity].
Qed.

Lemma forEach_cons {A : Type} (body : A -> Action World unit) x l rt :
  forEach body (x :: l) rt
  = match body x rt with
    | (rt', Done _) => forEach body l rt'
    | (rt', Thrown e) => (rt', Thrown e)
    end.
Proof. reflexivity. Qed.

Lemma forEach_ext {A : Type} (body body' : A -> Action World unit) (l : list A) :
  (forall x rt, In x l -> body x rt = body' x rt) ->
  forall rt, forEach body l rt = forEach body' l rt.
Proof.
  induction l as [|x l IH]; intros Hext rt; simpl; [reflexivity|].
  unfold bind. rewrite (Hext x rt) by (left; reflexivity).
  destruct (body' x rt) as [rt' [[]|e]]; [|reflexivity].
  apply IH. intros y rt0 Hy. apply Hext. right; exact Hy.
Qed.

Lemma forEach_idle {A : Type} (body : A -> Action World unit) (l : list A) rt :
  (forall x, In x l -> body x rt = (rt, Done tt)) ->
  forEach body l rt = (rt, Done tt).
Proof.
  induction l as [|x l IH]; intros Hidle; simpl; [reflexivity|].
  unfold bind. rewrite (Hidle x) by (left; reflexivity).
  apply IH. intros y Hy. apply Hidle. right; exact Hy.
Qed.

(** The loop of an entry point, once the keys before [x] are done. *)
Lemma forEach_reaches {A : Type} (body : A -> Action World unit) before x after rt0 rt :
  forEach body before rt0 = (rt, Done tt) ->
  forEach body (before ++ x :: after) rt0
  = match body x rt with
    | (rt', Done _) => forEach body after rt'
    | (rt', Thrown e) => (rt', Thrown e)
    end.
Proof. intros Hbefore. rewrite forEach_app, Hbefore. apply forEach_cons. Qed.

(** *** Runtimes *)

Lemma withCalls_nil (rt : Runtime World) : withCalls rt (world rt) [] = rt.
Proof. unfold withCalls. rewrite app_nil_r. by destruct rt. Qed.

Lemma withCalls_withCalls (rt : Runtime World) w1 w2 l1 l2 :
  withCalls (withCalls rt w1 l1) w2 l2 = withCalls rt w2 (l1 ++ l2).
Proof. unfold withCalls. simpl. by rewrite app_assoc. Qed.

Lemma setSpeed_zero p : setSpeed 0 p = p.
Proof. destruct p. unfold setSpeed. simpl. f_equal. lia. Qed.

Lemma setSpeed_setSpeed a b p : setSpeed a (setSpeed b p) = setSpeed (b + a) p.
Proof. unfold setSpeed. simpl. f_equal. lia. Qed.

Lemma reported_zero tracked sink : reported tracked 0 sink = sink.
Proof.
  unfold reported. destruct tracked; [|reflexivity].
  destruct sink as [p|]; simpl; [by rewrite setSpeed_zero | reflexivity].
Qed.

Lemma reported_reported tracked a b sink :
  reported tracked a (reported tracked b sink) = reported tracked (b + a) sink.
Proof.
  unfold reported. destruct tracked; [|reflexivity].
  destruct sink as [p|]; simpl; [by rewrite setSpeed_setSpeed | reflexivity].
Qed.

Lemma withReport_nil tracked (rt : Runtime World) : withReport tracked rt (world rt) 0 [] = rt.
Proof. unfold withReport. rewrite app_nil_r, reported_zero. by destruct rt. Qed.

Lemma withReport_withReport tracked (rt : Runtime World) w1 w2 n1 n2 l1 l2 :
  withReport tracked (withReport tracked rt w1 n1 l1) w2 n2 l2
  = withReport tracked rt w2 (n1 + n2) (l1 ++ l2).
Proof. unfold withReport. simpl. by rewrite app_assoc, reported_reported. Qed.

(** *** Awaited calls *)

Lemma exec_resolved command item opts rt w :
  commander command item opts (world rt) = (w, Resolved tt) ->
  exec command item opts rt = (withCalls rt w [Exec command item opts], Done tt).
Proof. intros H. unfold await_commander, settle. rewrite H. reflexivity. Qed.

Lemma exec_rejected command item opts rt w reason :
  commander command item opts (world rt) = (w, Rejected reason) ->
  exec command item opts rt
  = (withCalls rt w [Exec command item opts], Thrown (Rejection reason)).
Proof. intros H. unfold await_commander, settle. rewrite H. reflexivity. Qed.

Lemma worldAfter_cons command opts item items w :
  after_ command opts (item :: items) w
  = after_ command opts items (fst (commander command item opts w)).
Proof. reflexivity. Qed.

Lemma worldAfter_snoc command opts done item w :
  after_ command opts (done ++ [item]) w
  = fst (commander command item opts (after_ command opts done w)).
Proof. unfold worldAfter. by rewrite fold_left_app. Qed.

(** Every list of items either goes through, or has a first item whose
    call is rejected. *)
Lemma settles command opts items w :
  resolveAll command opts items w = true \/
  exists done item rest w' reason,
    items = done ++ item :: rest /\
    resolveAll command opts done w = true /\
    commander command item opts (after_ command opts done w) = (w', Rejected reason).
Proof.
  revert w. induction items as [|item items IH]; intros w; [by left|].
  simpl. destruct (commander command item opts w) as [w1 [[]|reason]] eqn:Hcall.
  - destruct (IH w1) as [Hall|(done & it & rest & w' & r & -> & Hall & Hrej)];
      [by left|].
    right. exists (item :: done), it, rest, w', r.
    split; [reflexivity|]. split.
    + simpl. by rewrite Hcall.
    + rewrite worldAfter_cons, Hcall. exact Hrej.
  - right. exists [], item, items, w1, reason. by repeat split.
Qed.

Lemma allResolve_app command opts l1 l2 w :
  resolveAll command opts (l1 ++ l2) w
  = resolveAll command opts l1 w
    && resolveAll command opts l2 (after_ command opts l1 w).
Proof.
  revert w. induction l1 as [|x l1 IH]; intros w; [reflexivity|].
  rewrite worldAfter_cons. simpl.
  destruct (commander command x opts w) as [w1 [[]|reason]]; [apply IH | reflexivity].
Qed.

(** The sequential loop over a list that goes through. *)
Lemma loop_completes command opts items rt :
  resolveAll command opts items (world rt) = true ->
  forEach (fun item => exec command item opts) items rt
  = (withCalls rt (after_ command opts items (world rt))
       (List.map (fun item => Exec command item opts) items),
     Done tt).
Proof.
  revert rt. induction items as [|item items IH]; intros rt Hall.
  - simpl. by rewrite withCalls_nil.
  - simpl in Hall. rewrite forEach_cons.
    destruct (commander command item opts (world rt)) as [w [[]|reason]] eqn:Hcall;
      [|discriminate].
    rewrite (exec_resolved _ _ _ _ _ Hcall), IH by exact Hall.
    rewrite withCalls_withCalls, worldAfter_cons, Hcall. reflexivity.
Qed.

(** The sequential loop over a list whose item [item] is the first one
    rejected. *)
Lemma loop_fails command opts done item rest rt w reason :
  resolveAll command opts done (world rt) = true ->
  commander command item opts (after_ command opts done (world rt)) = (w, Rejected reason) ->
  forEach (fun item => exec command item opts) (done ++ item :: rest) rt
  = (withCalls rt w (List.map (fun item => Exec command item opts) (done ++ [item])),
     Thrown (Rejection reason)).
Proof.
  intros Hall Hrej.
  rewrite (forEach_reaches _ _ _ _ _ _ (loop_completes _ _ _ _ Hall)).
  rewrite (exec_rejected _ _ _ _ w reason) by exact Hrej.
  by rewrite withCalls_withCalls, map_app.
Qed.

(** *** One command of the stand-alone [handleCommand] *)

Lemma length_zero_nil {A : Type} (l : list A) :
  (length l =? 0)%nat = bool_decide (l = []).
Proof. destruct l; reflexivity. Qed.

Lemma recognized_guard commands command :
  recognized commands command = true ->
  resolves commands = true /\
  hasOwnProperty commands command = Done true /\
  includes COMMAND_LIST command = true.
Proof.
  unfold recognized, hasOwnProperty. intros H.
  apply andb_prop in H as [H Hinc]. apply andb_prop in H as [Hres Hown].
  by rewrite Hres, Hown.
Qed.

Lemma unresolved_guard {A : Type} (o : Dict A) key :
  resolves o = false -> hasOwnProperty o key = Thrown TypeError.
Proof. unfold hasOwnProperty. by intros ->. Qed.

Lemma unrecognized_guard commands command :
  resolves commands = true ->
  recognized commands command = false ->
  exists own, hasOwnProperty commands command = Done own /\
              own && includes COMMAND_LIST command = false.
Proof.
  unfold recognized, hasOwnProperty. intros -> H. simpl in H. eauto.
Qed.

(** The step, in the vocabulary of the specification. *)
Lemma step_unfold commands globalOptions command rt :
  recognized commands command = true ->
  step commands globalOptions command rt
  = if skipped commands globalOptions command rt
    then (rt, Done tt)
    else
      ((if truthy (prop globalOptions "parallel")
        then _ <- await_masterCluster masterCluster (itemsOf commands command)
                    (prop globalOptions "parallel") command
                    (mergedOptions commands globalOptions command) ;; ret tt
        else forEach
               (fun item =>
                  exec command item (mergedOptions commands globalOptions command))
               (itemsOf commands command)) ;;
       (if cacheEnabled (mergedOptions commands globalOptions command)
        then cacheStore command (fingerprint JSON_stringify commands command)
        else ret tt)) rt.
Proof.
  intros Hrec. destruct (recognized_guard _ _ Hrec) as (_ & Hown & Hinc).
  unfold handleCommand_step. rewrite Hown, Hinc. cbn [andb].
  unfold skipCondition, cacheEnabled, mergedOptions, fingerprint, itemsOf, cacheHolds.
  rewrite length_zero_nil. reflexivity.
Qed.

Lemma step_throws commands globalOptions command rt :
  resolves commands = false ->
  step commands globalOptions command rt = (rt, Thrown TypeError).
Proof.
  intros Hres. unfold handleCommand_step.
  by rewrite (unresolved_guard _ _ Hres).
Qed.

Lemma step_unrecognized commands globalOptions command rt :
  resolves commands = true ->
  recognized commands command = false ->
  step commands globalOptions command rt = (rt, Done tt).
Proof.
  intros Hres Hrec. unfold handleCommand_step.
  destruct (unrecognized_guard _ _ Hres Hrec) as (own & -> & ->). reflexivity.
Qed.

Lemma cache_closing (enabled : bool) command content (rt : Runtime World) :
  (if enabled then cacheStore command content else ret tt) rt
  = (withCacheWrite enabled command content rt, Done tt).
Proof. by destruct enabled. Qed.

Lemma step_skips commands globalOptions command rt :
  recognized commands command = true ->
  skipped commands globalOptions command rt = true ->
  step commands globalOptions command rt = (rt, Done tt).
Proof. intros Hrec Hskip. rewrite step_unfold by exact Hrec. by rewrite Hskip. Qed.

(** A command that is run through the cluster runner: one call with the
    whole item list, then the closing statement when the call
    resolved. *)
Lemma step_parallel commands globalOptions command rt :
  recognized commands command = true ->
  skipped commands globalOptions command rt = false ->
  truthy (prop globalOptions "parallel") = true ->
  let items := itemsOf commands command in
  let opts := mergedOptions commands globalOptions command in
  let call := Cluster items (prop globalOptions "parallel") command opts in
  step commands globalOptions command rt
  = match masterCluster items (prop globalOptions "parallel") command opts (world rt) with
    | (w, Resolved _) =>
        (withCacheWrite (cacheEnabled opts) command
           (fingerprint JSON_stringify commands command) (withCalls rt w [call]),
         Done tt)
    | (w, Rejected reason) => (withCalls rt w [call], Thrown (Rejection reason))
    end.
Proof.
  intros Hrec Hskip Hpar. simpl.
  rewrite step_unfold by exact Hrec. rewrite Hskip, Hpar.
  unfold bind, await_masterCluster, settle.
  destruct (masterCluster _ _ _ _ _) as [w [n|reason]]; [|reflexivity].
  unfold ret. apply cache_closing.
Qed.

(** A command that is run item by item and goes through. *)
Lemma step_sequential_completes commands globalOptions command rt :
  recognized commands command = true ->
  skipped commands globalOptions command rt = false ->
  truthy (prop globalOptions "parallel") = false ->
  let items := itemsOf commands command in
  let opts := mergedOptions commands globalOptions command in
  resolveAll command opts items (world rt) = true ->
  step commands globalOptions command rt
  = (withCacheWrite (cacheEnabled opts) command
       (fingerprint JSON_stringify commands command)
       (withCalls rt (after_ command opts items (world rt))
          (List.map (fun item => Exec command item opts) items)),
     Done tt).
Proof.
  intros Hrec Hskip Hpar items opts Hall.
  rewrite step_unfold by exact Hrec. rewrite Hskip, Hpar.
  unfold bind. fold items opts. rewrite (loop_completes _ _ _ _ Hall).
  apply cache_closing.
Qed.

(** A command that is run item by item and has a call rejected. *)
Lemma step_sequential_fails commands globalOptions command rt done item rest w reason :
  recognized commands command = true ->
  skipped commands globalOptions command rt = false ->
  truthy (prop globalOptions "parallel") = false ->
  let opts := mergedOptions commands globalOptions command in
  itemsOf commands command = done ++ item :: rest ->
  resolveAll command opts done (world rt) = true ->
  commander command item opts (after_ command opts done (world rt)) = (w, Rejected reason) ->
  step commands globalOptions command rt
  = (withCalls rt w (List.map (fun item => Exec command item opts) (done ++ [item])),
     Thrown (Rejection reason)).
Proof.
  intros Hrec Hskip Hpar opts Hitems Hall Hrej.
  rewrite step_unfold by exact Hrec. rewrite Hskip, Hpar.
  unfold bind. fold opts. rewrite Hitems, (loop_fails _ _ _ _ _ _ _ _ Hall Hrej).
  reflexivity.
Qed.

Lemma skipCondition_true commands globalOptions command (rt : Runtime World) :
  skipped commands globalOptions command rt = true <->
  (cacheEnabled (mergedOptions commands globalOptions command) = true /\
   cache rt !! command = Some (fingerprint JSON_stringify commands command))
  \/ itemsOf commands command = [].
Proof.
  unfold skipCondition.
  rewrite orb_true_iff, andb_true_iff, !bool_decide_eq_true. reflexivity.
Qed.

Lemma skipCondition_items commands globalOptions command (rt : Runtime World) :
  skipped commands globalOptions command rt = false ->
  exists item rest, itemsOf commands command = item :: rest.
Proof.
  unfold skipCondition. intros H. apply orb_false_elim in H as [_ H].
  apply bool_decide_eq_false in H.
  destruct (itemsOf commands command) as [|item rest]; [done | eauto].
Qed.

(** Every way a step can go.  Where [hasOwnProperty] cannot be called
    it throws; a key that is not recognized and a command that is
    skipped leave the runtime as it is; any other command makes calls,
    and then either completes with the closing statement or throws what
    a call was rejected with. *)
Lemma step_cases commands globalOptions command rt :
  let opts := mergedOptions commands globalOptions command in
  let content := fingerprint JSON_stringify commands command in
  let result := step commands globalOptions command rt in
  (resolves commands = false /\ result = (rt, Thrown TypeError)) \/
  (resolves commands = true /\ recognized commands command = false /\
   result = (rt, Done tt)) \/
  (recognized commands command = true /\
   skipped commands globalOptions command rt = true /\
   result = (rt, Done tt)) \/
  (recognized commands command = true /\
   skipped commands globalOptions command rt = false /\
   exists w e later,
     forallb (fun e => isExec e || isCluster e) (e :: later) = true /\
     (result = (withCacheWrite (cacheEnabled opts) command content
                  (withCalls rt w (e :: later)), Done tt) \/
      exists reason, result = (withCalls rt w (e :: later), Thrown (Rejection reason)))).
Proof.
  intros opts content result. unfold result.
  destruct (resolves commands) eqn:Hres.
  2:{ left. split; [reflexivity|]. by apply step_throws. }
  destruct (recognized commands command) eqn:Hrec.
  2:{ right; left. split; [reflexivity|]. split; [reflexivity|]. by apply step_unrecognized. }
  destruct (skipped commands globalOptions command rt) eqn:Hskip.
  { right; right; left. split; [reflexivity|]. split; [reflexivity|]. by apply step_skips. }
  right; right; right. split; [reflexivity|]. split; [reflexivity|].
  assert (Hexecs : forall l : list JSValue,
             forallb (fun e => isExec e || isCluster e)
               (List.map (fun item => Exec command item opts) l) = true).
  { induction l as [|x l IH]; [reflexivity | exact IH]. }
  destruct (truthy (prop globalOptions "parallel")) eqn:Hpar.
  - rewrite (step_parallel _ _ _ _ Hrec Hskip Hpar). fold opts content.
    destruct (masterCluster _ _ _ _ _) as [w [n|reason]];
      exists w, (Cluster (itemsOf commands command) (prop globalOptions "parallel")
                   command opts), [];
      (split; [reflexivity|]); [left | right; exists reason]; reflexivity.
  - destruct (skipCondition_items _ _ _ _ Hskip) as (item & rest & Hitems).
    destruct (settles command opts (itemsOf commands command) (world rt))
      as [Hall|(done & it & rest' & w & reason & Hsplit & Hall & Hrej)].
    + rewrite (step_sequential_completes _ _ _ _ Hrec Hskip Hpar Hall).
      fold opts content. rewrite Hitems. cbn [List.map].
      eexists _, _, _. split; [|left; reflexivity].
      exact (Hexecs (item :: rest)).
    + rewrite (step_sequential_fails _ _ _ _ _ _ _ _ _ Hrec Hskip Hpar Hsplit Hall Hrej).
      fold opts.
      destruct (done ++ [it]) as [|x l] eqn:Hd; [by destruct done|].
      cbn [List.map]. eexists _, _, _. split; [|right; eexists; reflexivity].
      exact (Hexecs (x :: l)).
Qed.

(** *** Whole runs of the stand-alone [handleCommand] *)

Lemma run_reaches commands globalOptions command before after rt0 rt :
  ownKeys commands = before ++ command :: after ->
  forEach (step commands globalOptions) before rt0 = (rt, Done tt) ->
  run (Some commands) (Some globalOptions) rt0
  = match step commands globalOptions command rt with
    | (rt', Done _) => forEach (step commands globalOptions) after rt'
    | (rt', Thrown e) => (rt', Thrown e)
    end.
Proof.
  intros Hkeys Hbefore. unfold handleCommand. simpl. rewrite Hkeys.
  by apply forEach_reaches.
Qed.

Lemma addsOnly_refl allowed (rt : Runtime World) : addsOnly allowed rt rt.
Proof. exists []. by rewrite app_nil_r. Qed.

Lemma addsOnly_trans allowed (a b c : Runtime World) :
  addsOnly allowed a b -> addsOnly allowed b c -> addsOnly allowed a c.
Proof.
  intros (l1 & H1 & A1) (l2 & H2 & A2). exists (l1 ++ l2).
  rewrite H2, H1, <- app_assoc, forallb_app, A1, A2. auto.
Qed.

Lemma forallb_weaken {A : Type} (p q : A -> bool) (l : list A) :
  (forall x, p x = true -> q x = true) ->
  forallb p l = true -> forallb q l = true.
Proof.
  intros Hpq. induction l as [|x l IH]; simpl; [reflexivity|].
  intros H. apply andb_prop in H as [Hx Hl]. by rewrite (Hpq x Hx), IH.
Qed.

Lemma bind_keeps {A B : Type} (R : Runtime World -> Runtime World -> Prop)
  (m : Action World A) (k : A -> Action World B) :
  (forall a b c, R a b -> R b c -> R a c) ->
  (forall rt, R rt (fst (m rt))) ->
  (forall a rt, R rt (fst (k a rt))) ->
  forall rt, R rt (fst (bind m k rt)).
Proof.
  intros Htrans Hm Hk rt. unfold bind. specialize (Hm rt).
  destruct (m rt) as [rt' [a|e]]; simpl in *; [|exact Hm].
  exact (Htrans _ _ _ Hm (Hk a rt')).
Qed.

Lemma forEach_keeps {A : Type} (R : Runtime World -> Runtime World -> Prop)
  (body : A -> Action World unit) (l : list A) :
  (forall rt, R rt rt) ->
  (forall a b c, R a b -> R b c -> R a c) ->
  (forall x rt, R rt (fst (body x rt))) ->
  forall rt, R rt (fst (forEach body l rt)).
Proof.
  intros Hrefl Htrans Hbody. induction l as [|x l IH]; intros rt; simpl.
  - apply Hrefl.
  - apply bind_keeps; auto.
Qed.

(** What a step of the stand-alone function touches: not the progress
    sink, and the trace only by adding executor calls, cluster calls and
    cache writes. *)
Lemma step_keeps commands globalOptions command rt :
  progress (fst (step commands globalOptions command rt)) = progress rt /\
  addsOnly (fun e => isExec e || isCluster e || isCacheWrite e) rt
    (fst (step commands globalOptions command rt)).
Proof.
  destruct (step_cases commands globalOptions command rt)
    as [(_ & ->) | [(_ & _ & ->) | [(_ & _ & ->) |
         (_ & _ & w & e & later & Hcalls & [-> | [reason ->]])]]];
    simpl; try (split; [reflexivity | apply addsOnly_refl]).
  - destruct (cacheEnabled _); simpl; (split; [reflexivity|]); eexists;
      (split; [try rewrite <- app_assoc; reflexivity|]);
      rewrite ?forallb_app;
      rewrite (forallb_weaken _ _ _ (fun x H => orb_true_intro _ _ (or_introl H)) Hcalls);
      reflexivity.
  - split; [reflexivity|]. eexists. split; [reflexivity|].
    exact (forallb_weaken _ _ _ (fun x H => orb_true_intro _ _ (or_introl H)) Hcalls).
Qed.

Lemma loop_keeps commands globalOptions ks rt :
  progress (fst (forEach (step commands globalOptions) ks rt)) = progress rt /\
  addsOnly (fun e => isExec e || isCluster e || isCacheWrite e) rt
    (fst (forEach (step commands globalOptions) ks rt)).
Proof.
  set (allowed := fun e => isExec e || isCluster e || isCacheWrite e).
  set (R := fun a b : Runtime World => progress b = progress a /\ addsOnly allowed a b).
  change (R rt (fst (forEach (step commands globalOptions) ks rt))).
  apply forEach_keeps.
  - intros a. split; [reflexivity | apply addsOnly_refl].
  - intros a b c [P1 A1] [P2 A2]. split; [congruence | by eapply addsOnly_trans].
  - intros command r. apply step_keeps.
Qed.

Lemma loop_extends commands globalOptions ks rt :
  exists later, trace (fst (forEach (step commands globalOptions) ks rt)) = trace rt ++ later.
Proof.
  destruct (loop_keeps commands globalOptions ks rt) as (_ & later & H & _). eauto.
Qed.

Lemma trace_withCacheWrite (enabled : bool) command content (rt : Runtime World) :
  trace (withCacheWrite enabled command content rt)
  = trace rt ++ (if enabled then [CacheWrite command content] else []).
Proof. destruct enabled; simpl; [reflexivity | by rewrite app_nil_r]. Qed.

(** A command that is not skipped makes a call at once: the cluster call
    with the whole item list, or the executor call on the first item. *)
Lemma run_first_call commands globalOptions command before after rt0 rt item rest :
  ownKeys commands = before ++ command :: after ->
  recognized commands command = true ->
  forEach (step commands globalOptions) before rt0 = (rt, Done tt) ->
  skipped commands globalOptions command rt = false ->
  itemsOf commands command = item :: rest ->
  let opts := mergedOptions commands globalOptions command in
  let parallel := prop globalOptions "parallel" in
  exists later,
    trace (fst (run (Some commands) (Some globalOptions) rt0))
    = trace rt
        ++ (if truthy parallel
            then Cluster (item :: rest) parallel command opts
            else Exec command item opts) :: later.
Proof.
  intros Hkeys Hrec Hbefore Hskip Hitems opts parallel.
  rewrite (run_reaches _ _ _ _ _ _ _ Hkeys Hbefore).
  assert (Hgo : forall w calls,
             exists later,
               trace (fst (forEach (step commands globalOptions) after
                             (withCacheWrite (cacheEnabled opts) command
                                (fingerprint JSON_stringify commands command)
                                (withCalls rt w calls))))
               = trace rt ++ calls ++ later).
  { intros w calls. destruct (loop_extends commands globalOptions after
                                (withCacheWrite (cacheEnabled opts) command
                                   (fingerprint JSON_stringify commands command)
                                   (withCalls rt w calls))) as [later ->].
    rewrite trace_withCacheWrite. simpl. rewrite <- !app_assoc. eauto. }
  destruct (truthy parallel) eqn:Hpar.
  - rewrite (step_parallel _ _ _ _ Hrec Hskip Hpar). fold opts parallel. rewrite Hitems.
    destruct (masterCluster _ _ _ _ _) as [w [n|reason]].
    + apply (Hgo w [_]).
    + by exists [].
  - destruct (settles command opts (itemsOf commands command) (world rt))
      as [Hall|(done & it & rest' & w & reason & Hsplit & Hall & Hrej)].
    + rewrite (step_sequential_completes _ _ _ _ Hrec Hskip Hpar Hall). fold opts.
      rewrite Hitems. cbn [List.map].
      destruct (Hgo (after_ command opts (item :: rest) (world rt))
                  (Exec command item opts
                     :: List.map (fun item => Exec command item opts) rest))
        as [later ->].
      eauto.
    + rewrite (step_sequential_fails _ _ _ _ _ _ _ _ _ Hrec Hskip Hpar Hsplit Hall Hrej).
      fold opts. simpl. rewrite Hitems in Hsplit.
      destruct done as [|d done]; injection Hsplit as -> Hrest; simpl; eauto.
Qed.

(** *** One command of the plugin's [handleCommand] *)

Lemma pluginStep_throws this commands command rt :
  resolves commands = false ->
  pluginStep this commands command rt = (rt, Thrown TypeError).
Proof.
  intros Hres. unfold webpackPlugin_handleCommand_step.
  by rewrite (unresolved_guard _ _ Hres).
Qed.

Lemma pluginStep_unrecognized this commands command rt :
  resolves commands = true ->
  recognized commands command = false ->
  pluginStep this commands command rt = (rt, Done tt).
Proof.
  intros Hres Hrec. unfold webpackPlugin_handleCommand_step.
  destruct (unrecognized_guard _ _ Hres Hrec) as (own & -> & ->). reflexivity.
Qed.

Lemma pluginStep_missing this commands command rt :
  recognized commands command = true ->
  at_key commands command = BNull \/ at_key commands command = BUndefined ->
  pluginStep this commands command rt = (rt, Thrown TypeError).
Proof.
  intros Hrec Hvalue. destruct (recognized_guard _ _ Hrec) as (_ & Hown & Hinc).
  unfold webpackPlugin_handleCommand_step. rewrite Hown, Hinc. cbn [andb].
  by destruct Hvalue as [-> | ->].
Qed.

Lemma pluginStep_unfold this commands command e rt :
  recognized commands command = true ->
  at_key commands command = BEntry e ->
  let globalOptions := globalOptionsOf this in
  let items := itemsOf commands command in
  let opts := mergedOptions commands globalOptions command in
  pluginStep this commands command rt
  = (if truthy (prop globalOptions "parallel") then
       completedNum <- await_masterCluster masterCluster items
                         (prop globalOptions "parallel") command opts ;;
       (if tracksProgress this then progress_setSpeed completedNum else ret tt)
     else
       forEach
         (fun item =>
            exec command item opts ;;
            (if tracksProgress this then progress_setSpeed 1 else ret tt))
         items) rt.
Proof.
  intros Hrec Hentry. simpl. destruct (recognized_guard _ _ Hrec) as (_ & Hown & Hinc).
  unfold webpackPlugin_handleCommand_step. rewrite Hown, Hinc, Hentry. cbn [andb destructure].
  unfold itemsOf, mergedOptions, globalOptionsOf, tracksProgress. rewrite Hentry. reflexivity.
Qed.

Lemma sinkReady_withReport tracked (rt : Runtime World) w n events :
  sinkReady tracked rt -> sinkReady tracked (withReport tracked rt w n events).
Proof.
  unfold sinkReady, withReport, reported. intros Hready Ht. specialize (Hready Ht).
  simpl. rewrite Ht. by destruct (progress rt).
Qed.

Lemma withCalls_withReport tracked (rt : Runtime World) w1 w2 n l1 l2 :
  withCalls (withReport tracked rt w1 n l1) w2 l2 = withReport tracked rt w2 n (l1 ++ l2).
Proof. unfold withCalls, withReport. simpl. by rewrite app_assoc. Qed.

Lemma withReport_withCalls tracked (rt : Runtime World) w1 w2 n l1 l2 :
  withReport tracked (withCalls rt w1 l1) w2 n l2 = withReport tracked rt w2 n (l1 ++ l2).
Proof. unfold withCalls, withReport. simpl. by rewrite app_assoc. Qed.

(** The statement [progress && this.progress.setSpeed(n)]. *)
Lemma report_step (tracked : bool) n (rt : Runtime World) :
  sinkReady tracked rt ->
  (if tracked then progress_setSpeed n else ret tt) rt
  = (withReport tracked rt (world rt) n (report tracked n), Done tt).
Proof.
  unfold sinkReady, withReport, reported, report. intros Hready. destruct tracked.
  - unfold progress_setSpeed. destruct (progress rt) as [p|]; [reflexivity|].
    by destruct Hready.
  - unfold ret. rewrite app_nil_r. by destruct rt.
Qed.

Lemma report_missing n (rt : Runtime World) :
  progress rt = None -> progress_setSpeed n rt = (rt, Thrown TypeError).
Proof. unfold progress_setSpeed. by intros ->. Qed.

Lemma tracked_resolved (tracked : bool) command item opts rt w :
  commander command item opts (world rt) = (w, Resolved tt) ->
  sinkReady tracked rt ->
  (exec command item opts ;; (if tracked then progress_setSpeed 1 else ret tt)) rt
  = (withReport tracked rt w 1 (Exec command item opts :: report tracked 1), Done tt).
Proof.
  intros Hcall Hready. unfold bind. rewrite (exec_resolved _ _ _ _ _ Hcall).
  rewrite report_step by exact Hready.
  by rewrite withReport_withCalls.
Qed.

Lemma tracked_rejected (tracked : bool) command item opts rt w reason :
  commander command item opts (world rt) = (w, Rejected reason) ->
  (exec command item opts ;; (if tracked then progress_setSpeed 1 else ret tt)) rt
  = (withCalls rt w [Exec command item opts], Thrown (Rejection reason)).
Proof.
  intros Hcall. unfold bind. by rewrite (exec_rejected _ _ _ _ _ _ Hcall).
Qed.

(** The plugin's sequential loop over a list that goes through: each
    item is followed by its report. *)
Lemma plugin_loop_completes (tracked : bool) command opts items rt :
  resolveAll command opts items (world rt) = true ->
  sinkReady tracked rt ->
  forEach
    (fun item => exec command item opts ;;
                 (if tracked then progress_setSpeed 1 else ret tt))
    items rt
  = (withReport tracked rt (after_ command opts items (world rt))
       (Z.of_nat (length items))
       (flat_map (fun item => Exec command item opts :: report tracked 1) items),
     Done tt).
Proof.
  revert rt. induction items as [|item items IH]; intros rt Hall Hready.
  - simpl. by rewrite withReport_nil.
  - simpl in Hall. rewrite forEach_cons.
    destruct (commander command item opts (world rt)) as [w [[]|reason]] eqn:Hcall;
      [|discriminate].
    rewrite (tracked_resolved _ _ _ _ _ _ Hcall Hready).
    rewrite IH; [|exact Hall | by apply sinkReady_withReport].
    rewrite withReport_withReport, worldAfter_cons, Hcall.
    cbn [flat_map length world withReport fst]. do 2 f_equal. lia.
Qed.

(** The plugin's sequential loop over a list whose item [item] is the
    first one rejected: the items before it are reported, it is not. *)
Lemma plugin_loop_fails (tracked : bool) command opts done item rest rt w reason :
  resolveAll command opts done (world rt) = true ->
  commander command item opts (after_ command opts done (world rt)) = (w, Rejected reason) ->
  sinkReady tracked rt ->
  forEach
    (fun item => exec command item opts ;;
                 (if tracked then progress_setSpeed 1 else ret tt))
    (done ++ item :: rest) rt
  = (withReport tracked rt w (Z.of_nat (length done))
       (flat_map (fun item => Exec command item opts :: report tracked 1) done
          ++ [Exec command item opts]),
     Thrown (Rejection reason)).
Proof.
  intros Hall Hrej Hready.
  rewrite (forEach_reaches _ _ _ _ _ _ (plugin_loop_completes _ _ _ _ _ Hall Hready)).
  rewrite (tracked_rejected _ _ _ _ _ w reason) by exact Hrej.
  by rewrite withCalls_withReport.
Qed.

Lemma pluginStep_parallel this commands command e rt :
  recognized commands command = true ->
  at_key commands command = BEntry e ->
  truthy (prop (globalOptionsOf this) "parallel") = true ->
  sinkReady (tracksProgress this) rt ->
  let items := itemsOf commands command in
  let opts := mergedOptions commands (globalOptionsOf this) command in
  let parallel := prop (globalOptionsOf this) "parallel" in
  pluginStep this commands command rt
  = match masterCluster items parallel command opts (world rt) with
    | (w, Resolved completedNum) =>
        (withReport (tracksProgress this) rt w completedNum
           (Cluster items parallel command opts
              :: report (tracksProgress this) completedNum),
         Done tt)
    | (w, Rejected reason) =>
        (withCalls rt w [Cluster items parallel command opts], Thrown (Rejection reason))
    end.
Proof.
  intros Hrec He Hpar Hready. simpl.
  rewrite (pluginStep_unfold _ _ _ _ _ Hrec He). rewrite Hpar.
  unfold bind, await_masterCluster, settle.
  destruct (masterCluster _ _ _ _ _) as [w [n|reason]]; [|reflexivity].
  change (mkRuntime w (cache rt) (progress rt)
            (trace rt ++ [Cluster (itemsOf commands command)
                            (prop (globalOptionsOf this) "parallel") command
                            (mergedOptions commands (globalOptionsOf this) command)]))
    with (withCalls rt w [Cluster (itemsOf commands command)
                            (prop (globalOptionsOf this) "parallel") command
                            (mergedOptions commands (globalOptionsOf this) command)]).
  rewrite report_step by exact Hready.
  by rewrite withReport_withCalls.
Qed.

Lemma pluginStep_sequential_completes this commands command e rt :
  recognized commands command = true ->
  at_key commands command = BEntry e ->
  truthy (prop (globalOptionsOf this) "parallel") = false ->
  sinkReady (tracksProgress this) rt ->
  let items := itemsOf commands command in
  let opts := mergedOptions commands (globalOptionsOf this) command in
  resolveAll command opts items (world rt) = true ->
  pluginStep this commands command rt
  = (withReport (tracksProgress this) rt (after_ command opts items (world rt))
       (Z.of_nat (length items))
       (flat_map (fun item => Exec command item opts :: report (tracksProgress this) 1)
          items),
     Done tt).
Proof.
  intros Hrec He Hpar Hready items opts Hall.
  rewrite (pluginStep_unfold _ _ _ _ _ Hrec He). rewrite Hpar.
  by apply plugin_loop_completes.
Qed.

Lemma pluginStep_sequential_fails this commands command e rt done item rest w reason :
  recognized commands command = true ->
  at_key commands command = BEntry e ->
  truthy (prop (globalOptionsOf this) "parallel") = false ->
  sinkReady (tracksProgress this) rt ->
  let opts := mergedOptions commands (globalOptionsOf this) command in
  itemsOf commands command = done ++ item :: rest ->
  resolveAll command opts done (world rt) = true ->
  commander command item opts (after_ command opts done (world rt)) = (w, Rejected reason) ->
  pluginStep this commands command rt
  = (withReport (tracksProgress this) rt w (Z.of_nat (length done))
       (flat_map (fun item => Exec command item opts :: report (tracksProgress this) 1)
          done
          ++ [Exec command item opts]),
     Thrown (Rejection reason)).
Proof.
  intros Hrec He Hpar Hready opts Hitems Hall Hrej.
  rewrite (pluginStep_unfold _ _ _ _ _ Hrec He). rewrite Hpar, Hitems.
  by apply plugin_loop_fails.
Qed.

Lemma pluginRun_reaches this commands command before after rt0 rt :
  ownKeys commands = before ++ command :: after ->
  forEach (pluginStep this commands) before rt0 = (rt, Done tt) ->
  pluginRun this commands rt0
  = match pluginStep this commands command rt with
    | (rt', Done _) => forEach (pluginStep this commands) after rt'
    | (rt', Thrown e) => (rt', Thrown e)
    end.
Proof.
  intros Hkeys Hbefore. unfold webpackPlugin_handleCommand. rewrite Hkeys.
  by apply forEach_reaches.
Qed.

(** What the plugin's method touches: not the cache, and the trace only
    by adding executor calls, cluster calls and progress increments. *)
Lemma pluginLoop_keeps this commands ks rt :
  cache (fst (forEach (pluginStep this commands) ks rt)) = cache rt /\
  addsOnly (fun e => isExec e || isCluster e || isSetSpeed e) rt
    (fst (forEach (pluginStep this commands) ks rt)).
Proof.
  set (allowed := fun e => isExec e || isCluster e || isSetSpeed e).
  set (R := fun a b : Runtime World => cache b = cache a /\ addsOnly allowed a b).
  assert (Hrefl : forall a, R a a) by (intros a; split; [reflexivity | apply addsOnly_refl]).
  assert (Htrans : forall a b c, R a b -> R b c -> R a c).
  { intros a b c [P1 A1] [P2 A2]. split; [congruence | by eapply addsOnly_trans]. }
  assert (Hspeed : forall n r, R r (fst (progress_setSpeed n r))).
  { intros n r. unfold progress_setSpeed. destruct (progress r); [|apply Hrefl].
    split; [reflexivity|]. eexists [_]. split; reflexivity. }
  assert (Hexec : forall command item opts r, R r (fst (exec command item opts r))).
  { intros command item opts r. unfold await_commander, settle.
    destruct (commander command item opts (world r)) as [w [[]|reason]]; simpl;
      (split; [reflexivity|]); exists [Exec command item opts]; split; reflexivity. }
  assert (Hcluster : forall jobs cpu type opts r,
             R r (fst (await_masterCluster masterCluster jobs cpu type opts r))).
  { intros jobs cpu type opts r. unfold await_masterCluster, settle.
    destruct (masterCluster jobs cpu type opts (world r)) as [w [n|reason]]; simpl;
      (split; [reflexivity|]); exists [Cluster jobs cpu type opts]; split; reflexivity. }
  change (R rt (fst (forEach (pluginStep this commands) ks rt))).
  apply forEach_keeps; [exact Hrefl | exact Htrans |].
  clear rt. intros command rt. unfold webpackPlugin_handleCommand_step.
  destruct (hasOwnProperty commands command) as [own|err]; [|apply Hrefl].
  destruct (own && _); [|apply Hrefl].
  destruct (destructure _) as [entry|err]; [|apply Hrefl]. cbv zeta.
  destruct (truthy (prop _ "parallel")).
  - apply bind_keeps; [exact Htrans | apply Hcluster |].
    intros n r. destruct (truthy _); [apply Hspeed | apply Hrefl].
  - apply forEach_keeps; [exact Hrefl | exact Htrans |].
    intros item r. apply bind_keeps; [exact Htrans | apply Hexec |].
    intros _ r'. destruct (truthy _); [apply Hspeed | apply Hrefl].
Qed.

(** The plugin's method does not look at the cache either: whatever the
    cache holds, the run is the same. *)
Lemma blind_bind {A B : Type} (m : Action World A) (k : A -> Action World B) :
  (forall c rt, m (withCache c rt) = (withCache c (fst (m rt)), snd (m rt))) ->
  (forall a c rt, k a (withCache c rt) = (withCache c (fst (k a rt)), snd (k a rt))) ->
  forall c rt,
    bind m k (withCache c rt) = (withCache c (fst (bind m k rt)), snd (bind m k rt)).
Proof.
  intros Hm Hk c rt. unfold bind. rewrite Hm.
  destruct (m rt) as [rt' [a|e]]; simpl; [apply Hk | reflexivity].
Qed.

Lemma blind_forEach {A : Type} (body : A -> Action World unit) (l : list A) :
  (forall x c rt, body x (withCache c rt) = (withCache c (fst (body x rt)), snd (body x rt))) ->
  forall c rt,
    forEach body l (withCache c rt)
    = (withCache c (fst (forEach body l rt)), snd (forEach body l rt)).
Proof.
  intros Hbody. induction l as [|x l IH]; intros c rt; [reflexivity|].
  simpl. apply blind_bind; [apply Hbody | intros _; exact IH].
Qed.

Lemma pluginLoop_blind this commands ks c rt :
  forEach (pluginStep this commands) ks (withCache c rt)
  = (withCache c (fst (forEach (pluginStep this commands) ks rt)),
     snd (forEach (pluginStep this commands) ks rt)).
Proof.
  assert (Hspeed : forall (b : bool) n c (r : Runtime World),
             (if b then progress_setSpeed n else ret tt) (withCache c r)
             = (withCache c (fst ((if b then progress_setSpeed n else ret tt) r)),
                snd ((if b then progress_setSpeed n else ret tt) r))).
  { intros b n c' r. destruct b; [|reflexivity].
    unfold progress_setSpeed. simpl. by destruct (progress r). }
  assert (Hexec : forall command item opts c r,
             exec command item opts (withCache c r)
             = (withCache c (fst (exec command item opts r)),
                snd (exec command item opts r))).
  { intros command item opts c' r. unfold await_commander, settle. simpl.
    by destruct (commander command item opts (world r)) as [w [[]|reason]]. }
  assert (Hcluster : forall jobs cpu type opts c r,
             await_masterCluster masterCluster jobs cpu type opts (withCache c r)
             = (withCache c (fst (await_masterCluster masterCluster jobs cpu type opts r)),
                snd (await_masterCluster masterCluster jobs cpu type opts r))).
  { intros jobs cpu type opts c' r. unfold await_masterCluster, settle. simpl.
    by destruct (masterCluster jobs cpu type opts (world r)) as [w [n|reason]]. }
  revert c rt. apply blind_forEach. intros command c rt.
  unfold webpackPlugin_handleCommand_step.
  destruct (hasOwnProperty commands command) as [own|err]; [|reflexivity].
  destruct (own && _); [|reflexivity].
  destruct (destructure _) as [entry|err]; [|reflexivity]. cbv zeta.
  destruct (truthy (prop _ "parallel")).
  - apply blind_bind; [apply Hcluster | intros n; apply Hspeed].
  - apply blind_forEach. intros item. apply blind_bind; [apply Hexec | intros _; apply Hspeed].
Qed.

(** *** Whole runs: a command in its place in the batch *)

(** What is stored once the cache flag is on and a step completed is
    the command's own fingerprint; otherwise the cache is as it was. *)
Lemma step_cache commands globalOptions command rt :
  cache (fst (step commands globalOptions command rt)) = cache rt \/
  (cache (fst (step commands globalOptions command rt))
   = <[command := fingerprint JSON_stringify commands command]> (cache rt) /\
   snd (step commands globalOptions command rt) = Done tt /\
   recognized commands command = true /\
   skipped commands globalOptions command rt = false /\
   cacheEnabled (mergedOptions commands globalOptions command) = true).
Proof.
  destruct (step_cases commands globalOptions command rt)
    as [(_ & ->) | [(_ & _ & ->) | [(_ & _ & ->) |
         (Hrec & Hskip & w & e & later & Hcalls & [-> | [reason ->]])]]];
    try (by left).
  destruct (cacheEnabled _) eqn:Hc; [right | left]; by repeat split.
Qed.

Lemma step_keeps_fingerprint commands globalOptions command rt key :
  cache rt !! key = Some (fingerprint JSON_stringify commands key) ->
  cache (fst (step commands globalOptions command rt)) !! key
  = Some (fingerprint JSON_stringify commands key).
Proof.
  intros Hkey.
  destruct (step_cache commands globalOptions command rt) as [->|[-> _]];
    [exact Hkey|].
  destruct (decide (command = key)) as [->|Hne].
  - apply lookup_insert_eq.
  - rewrite lookup_insert_ne by exact Hne. exact Hkey.
Qed.

Lemma loop_keeps_fingerprint commands globalOptions ks rt key :
  cache rt !! key = Some (fingerprint JSON_stringify commands key) ->
  cache (fst (forEach (step commands globalOptions) ks rt)) !! key
  = Some (fingerprint JSON_stringify commands key).
Proof.
  revert rt. induction ks as [|k ks IH]; intros rt Hkey; simpl; [exact Hkey|].
  unfold bind.
  pose proof (step_keeps_fingerprint commands globalOptions k rt key Hkey) as Hk.
  destruct (step commands globalOptions k rt) as [rt' [[]|e]]; simpl in Hk.
  - apply IH, Hk.
  - exact Hk.
Qed.

(** A command whose step completed with the cache flag on is one the
    next look at the cache will skip. *)
Lemma step_done_then_skipped commands globalOptions command rt rt' :
  recognized commands command = true ->
  cacheEnabled (mergedOptions commands globalOptions command) = true ->
  step commands globalOptions command rt = (rt', Done tt) ->
  skipped commands globalOptions command rt' = true.
Proof.
  intros Hrec Hc Hstep.
  destruct (step_cases commands globalOptions command rt)
    as [(_ & H) | [(_ & Hno & H) | [(_ & Hskip & H) |
         (_ & _ & w & e & later & _ & [H | [reason H]])]]]; simpl in H.
  - rewrite Hstep in H. discriminate.
  - congruence.
  - rewrite Hstep in H. by injection H as ->.
  - rewrite Hstep in H. injection H as ->.
    apply skipCondition_true. left. split; [exact Hc|].
    rewrite Hc. simpl. apply lookup_insert_eq.
  - rewrite Hstep in H. discriminate.
Qed.

Lemma skipCondition_kept commands globalOptions command ks rt :
  skipped commands globalOptions command rt = true ->
  skipped commands globalOptions command
    (fst (forEach (step commands globalOptions) ks rt)) = true.
Proof.
  rewrite !skipCondition_true. intros [[Hc Hhit]|Hnil]; [left|right; exact Hnil].
  split; [exact Hc|]. apply loop_keeps_fingerprint, Hhit.
Qed.

Lemma loop_done_then_skipped commands globalOptions ks rt rt1 :
  (forall command,
      In command ks -> recognized commands command = true ->
      cacheEnabled (mergedOptions commands globalOptions command) = true) ->
  forEach (step commands globalOptions) ks rt = (rt1, Done tt) ->
  forall command,
    In command ks -> recognized commands command = true ->
    skipped commands globalOptions command rt1 = true.
Proof.
  revert rt. induction ks as [|k ks IH]; intros rt Hcache Hrun command Hin Hrec.
  - destruct Hin.
  - rewrite forEach_cons in Hrun.
    destruct (step commands globalOptions k rt) as [rt' [[]|e]] eqn:Hstep;
      [|discriminate].
    destruct Hin as [->|Hin].
    + pose proof (step_done_then_skipped _ _ _ _ _ Hrec
                    (Hcache command (or_introl eq_refl) Hrec) Hstep) as Hskip.
      pose proof (skipCondition_kept _ _ _ ks _ Hskip) as Hkept.
      rewrite Hrun in Hkept. exact Hkept.
    + apply (IH rt'); auto. intros c Hc. apply Hcache. right; exact Hc.
Qed.

Lemma run_idle commands globalOptions rt rt1 :
  (forall command,
      In command (ownKeys commands) -> recognized commands command = true ->
      cacheEnabled (mergedOptions commands globalOptions command) = true) ->
  run (Some commands) (Some globalOptions) rt = (rt1, Done tt) ->
  run (Some commands) (Some globalOptions) rt1 = (rt1, Done tt).
Proof.
  unfold handleCommand. simpl. intros Hcache Hrun.
  apply forEach_idle. intros command Hin.
  destruct (recognized commands command) eqn:Hrec.
  - apply step_skips; [exact Hrec|].
    exact (loop_done_then_skipped _ _ _ _ _ Hcache Hrun command Hin Hrec).
  - apply step_unrecognized; [|exact Hrec].
    destruct (resolves commands) eqn:Hres; [reflexivity|].
    destruct (ownKeys commands) as [|k ks]; [destruct Hin|].
    rewrite forEach_cons, step_throws in Hrun by exact Hres. discriminate.
Qed.

(** The plugin's loop over the items only adds to the trace. *)
Lemma plugin_items_extend (tracked : bool) command opts items rt :
  exists later,
    trace (fst (forEach
                  (fun item => exec command item opts ;;
                               (if tracked then progress_setSpeed 1 else ret tt))
                  items rt))
    = trace rt ++ later.
Proof.
  revert rt. induction items as [|item items IH]; intros rt.
  - exists []. simpl. by rewrite app_nil_r.
  - rewrite forEach_cons. unfold bind at 1.
    destruct (commander command item opts (world rt)) as [w [[]|reason]] eqn:Hcall.
    + rewrite (exec_resolved _ _ _ _ _ Hcall).
      destruct tracked.
      * unfold progress_setSpeed at 1. cbn [progress withCalls].
        destruct (progress rt) as [p|]; [|by eexists].
        match goal with |- context [forEach _ items ?r] => destruct (IH r) as [later ->] end.
        simpl. rewrite <- !app_assoc. eauto.
      * unfold ret at 1.
        match goal with |- context [forEach _ items ?r] => destruct (IH r) as [later ->] end.
        simpl. rewrite <- !app_assoc. eauto.
    + rewrite (exec_rejected _ _ _ _ _ _ Hcall). by eexists.
Qed.

(** In the plugin every recognized command with items makes a call at
    once, whatever the cache holds and whatever was run before. *)
Lemma pluginRun_first_call this commands command e before after rt0 rt item rest :
  ownKeys commands = before ++ command :: after ->
  recognized commands command = true ->
  at_key commands command = BEntry e ->
  forEach (pluginStep this commands) before rt0 = (rt, Done tt) ->
  itemsOf commands command = item :: rest ->
  let opts := mergedOptions commands (globalOptionsOf this) command in
  let parallel := prop (globalOptionsOf this) "parallel" in
  exists later,
    trace (fst (pluginRun this commands rt0))
    = trace rt
        ++ (if truthy parallel
            then Cluster (item :: rest) parallel command opts
            else Exec command item opts) :: later.
Proof.
  intros Hkeys Hrec He Hbefore Hitems opts parallel.
  rewrite (pluginRun_reaches _ _ _ _ _ _ _ Hkeys Hbefore).
  assert (Hgo : forall rt' call later,
             trace rt' = trace rt ++ call :: later ->
             exists later',
               trace (fst (forEach (pluginStep this commands) after rt'))
               = trace rt ++ call :: later').
  { intros rt' call later Htr.
    destruct (pluginLoop_keeps this commands after rt') as (_ & added & -> & _).
    rewrite Htr, <- app_assoc. simpl. eauto. }
  rewrite (pluginStep_unfold _ _ _ _ _ Hrec He). fold opts parallel. rewrite Hitems.
  destruct (truthy parallel) eqn:Hpar.
  - unfold bind, await_masterCluster, settle.
    destruct (masterCluster _ _ _ _ _) as [w [n|reason]]; [|by exists []].
    destruct (tracksProgress this).
    + unfold progress_setSpeed. cbn [progress].
      destruct (progress rt) as [p|]; [|by exists []].
      eapply Hgo. simpl. rewrite <- app_assoc. reflexivity.
    + unfold ret. eapply Hgo. reflexivity.
  - rewrite forEach_cons. unfold bind at 1.
    destruct (commander command item opts (world rt)) as [w [[]|reason]] eqn:Hcall.
    + rewrite (exec_resolved _ _ _ _ _ Hcall).
      assert (Hrest : forall rt' mid,
                 trace rt' = trace rt ++ Exec command item opts :: mid ->
                 exists later',
                   trace (fst (match forEach
                                       (fun item => exec command item opts ;;
                                          (if tracksProgress this
                                           then progress_setSpeed 1 else ret tt))
                                       rest rt' with
                               | (rt'', Done _) =>
                                   forEach (pluginStep this commands) after rt''
                               | (rt'', Thrown err) => (rt'', Thrown err)
                               end))
                   = trace rt ++ Exec command item opts :: later').
      { intros rt' mid Htr.
        destruct (plugin_items_extend (tracksProgress this) command opts rest rt')
          as [later Hl].
        destruct (forEach _ rest rt') as [rt'' [[]|err]]; simpl in Hl.
        - apply (Hgo rt'' (Exec command item opts) (mid ++ later)).
          rewrite Hl, Htr. by rewrite <- app_assoc.
        - simpl. rewrite Hl, Htr, <- app_assoc. simpl. eauto. }
      destruct (tracksProgress this).
      * unfold progress_setSpeed at 1. cbn [progress withCalls].
        destruct (progress rt) as [p|]; [|by exists []].
        apply (Hrest _ [SetSpeed 1]). simpl. by rewrite <- app_assoc.
      * unfold ret at 1. by apply (Hrest _ []).
    + rewrite (exec_rejected _ _ _ _ _ _ Hcall). by exists [].
Qed.

(** *** The claims about dispatch, skipping and the cache *)

(** C1 (as amended).  A command that is processed is dispatched by the
    [parallel] of the GLOBAL options alone; a [parallel] among the
    command's own options only travels inside the merged options.  When
    the global value is truthy, the cluster runner is called once, with
    the full item list, that value as worker count, the command name and
    the merged options, and the executor is not called: the run goes on
    with the next command when the runner resolved and ends with its
    rejection otherwise.  When it is falsy the items are run one after
    the other: all of them, in list order, when every call resolves, the
    run then going on with the next command; up to and including the
    first item whose call is rejected otherwise, the run ending with
    that rejection.  This holds for the stand-alone function, which
    closes a completed command with the cache write, and for the
    plugin's method, which reports to the progress sink instead. *)
Theorem dispatch_follows_global_parallel
  this commands globalOptions command before after rt0 rt :
  ownKeys commands = before ++ command :: after ->
  recognized commands command = true ->
  let items := itemsOf commands command in
  (let step := handleCommand_step commander masterCluster JSON_stringify
                 commands globalOptions in
   forEach step before rt0 = (rt, Done tt) ->
   skipCondition JSON_stringify commands globalOptions command rt = false ->
   let opts := mergedOptions commands globalOptions command in
   let parallel := prop globalOptions "parallel" in
   let next := fun rt' =>
     forEach step after
       (withCacheWrite (cacheEnabled opts) command
          (fingerprint JSON_stringify commands command) rt') in
   let result :=
     handleCommand commander masterCluster JSON_stringify
       (Some commands) (Some globalOptions) rt0 in
   if truthy parallel then
     result
     = match masterCluster items parallel command opts (world rt) with
       | (w, Resolved _) => next (withCalls rt w [Cluster items parallel command opts])
       | (w, Rejected reason) =>
           (withCalls rt w [Cluster items parallel command opts],
            Thrown (Rejection reason))
       end
   else
     (allResolve commander command opts items (world rt) = true ->
      result
      = next (withCalls rt (worldAfter commander command opts items (world rt))
                (List.map (fun item => Exec command item opts) items))) /\
     (forall done item rest w reason,
         items = done ++ item :: rest ->
         allResolve commander command opts done (world rt) = true ->
         commander command item opts (worldAfter commander command opts done (world rt))
         = (w, Rejected reason) ->
         result
         = (withCalls rt w (List.map (fun item => Exec command item opts) (done ++ [item])),
            Thrown (Rejection reason))))
  /\
  (forall e,
      at_key commands command = BEntry e ->
      let step := webpackPlugin_handleCommand_step commander masterCluster
                    this commands in
      forEach step before rt0 = (rt, Done tt) ->
      sinkReady (tracksProgress this) rt ->
      let opts := mergedOptions commands (globalOptionsOf this) command in
      let parallel := prop (globalOptionsOf this) "parallel" in
      let tracked := tracksProgress this in
      let result := webpackPlugin_handleCommand commander masterCluster this commands rt0 in
      if truthy parallel then
        result
        = match masterCluster items parallel command opts (world rt) with
          | (w, Resolved completedNum) =>
              forEach step after
                (withReport tracked rt w completedNum
                   (Cluster items parallel command opts :: report tracked completedNum))
          | (w, Rejected reason) =>
              (withCalls rt w [Cluster items parallel command opts],
               Thrown (Rejection reason))
          end
      else
        (allResolve commander command opts items (world rt) = true ->
         result
         = forEach step after
             (withReport tracked rt (worldAfter commander command opts items (world rt))
                (Z.of_nat (length items))
                (flat_map (fun item => Exec command item opts :: report tracked 1)
                   items))) /\
        (forall done item rest w reason,
            items = done ++ item :: rest ->
            allResolve commander command opts done (world rt) = true ->
            commander command item opts (worldAfter commander command opts done (world rt))
            = (w, Rejected reason) ->
            result
            = (withReport tracked rt w (Z.of_nat (length done))
                 (flat_map (fun item => Exec command item opts :: report tracked 1) done
                    ++ [Exec command item opts]),
               Thrown (Rejection reason)))).
Proof.
  intros Hkeys Hrec items. split.
  - intros step0 Hbefore Hskip opts parallel next result. unfold result, next, step0.
    rewrite (run_reaches _ _ _ _ _ _ _ Hkeys Hbefore).
    destruct (truthy parallel) eqn:Hpar.
    + rewrite (step_parallel _ _ _ _ Hrec Hskip Hpar). fold items opts parallel.
      by destruct (masterCluster _ _ _ _ _) as [w [n|reason]].
    + split.
      * intros Hall. by rewrite (step_sequential_completes _ _ _ _ Hrec Hskip Hpar Hall).
      * intros done item rest w reason Hitems Hall Hrej.
        by rewrite (step_sequential_fails _ _ _ _ _ _ _ _ _ Hrec Hskip Hpar Hitems Hall Hrej).
  - intros e He step0 Hbefore Hready opts parallel tracked result.
    unfold result, step0.
    rewrite (pluginRun_reaches _ _ _ _ _ _ _ Hkeys Hbefore).
    destruct (truthy parallel) eqn:Hpar.
    + rewrite (pluginStep_parallel _ _ _ _ _ Hrec He Hpar Hready).
      fold items opts parallel tracked.
      by destruct (masterCluster _ _ _ _ _) as [w [n|reason]].
    + split.
      * intros Hall.
        by rewrite (pluginStep_sequential_completes _ _ _ _ _ Hrec He Hpar Hready Hall).
      * intros done item rest w reason Hitems Hall Hrej.
        by rewrite (pluginStep_sequential_fails _ _ _ _ _ _ _ _ _ _ Hrec He Hpar Hready
                      Hitems Hall Hrej).
Qed.

(** C2 (as amended).  In the stand-alone [handleCommand] a recognized
    command is skipped exactly when the cache flag of its merged options
    is on and the fingerprint of its item list equals the one stored for
    it, or its item list is empty.  Skipped, its step leaves the runtime
    as it is and the run goes on with the next key from that very
    runtime: no call, no cache write, no progress increment.  Not
    skipped, it makes a call at once: the cluster call with the whole
    item list, or the executor call on the first item.  The empty list is
    skipped whatever the flag and the cache hold.  The plugin's method
    has no such step: it never reads the cache; whatever the cache holds,
    its run is the same. *)
Theorem skip_exactly_when_cached_or_empty
  this commands globalOptions command before after rt0 rt :
  ownKeys commands = before ++ command :: after ->
  recognized commands command = true ->
  let step := handleCommand_step commander masterCluster JSON_stringify
                commands globalOptions in
  forEach step before rt0 = (rt, Done tt) ->
  let items := itemsOf commands command in
  let opts := mergedOptions commands globalOptions command in
  let parallel := prop globalOptions "parallel" in
  let hit := cacheEnabled opts = true /\
             cache rt !! command = Some (JSON_stringify items) in
  let result :=
    handleCommand commander masterCluster JSON_stringify
      (Some commands) (Some globalOptions) rt0 in
  (step command rt = (rt, Done tt) <-> hit \/ items = []) /\
  (hit \/ items = [] -> result = forEach step after rt) /\
  (~ (hit \/ items = []) ->
   exists item rest later,
     items = item :: rest /\
     trace (fst result)
     = trace rt
         ++ (if truthy parallel
             then Cluster items parallel command opts
             else Exec command item opts) :: later) /\
  (items = [] -> result = forEach step after rt) /\
  (forall (batch : Commands) c r,
      webpackPlugin_handleCommand commander masterCluster this batch (withCache c r)
      = (withCache c (fst (webpackPlugin_handleCommand commander masterCluster
                             this batch r)),
         snd (webpackPlugin_handleCommand commander masterCluster this batch r))).
Proof.
  intros Hkeys Hrec step0 Hbefore items opts parallel hit result.
  assert (Hiff : skipped commands globalOptions command rt = true <-> hit \/ items = []).
  { apply skipCondition_true. }
  assert (Hskipped : hit \/ items = [] -> result = forEach step0 after rt).
  { intros H. apply Hiff in H. unfold result, step0.
    rewrite (run_reaches _ _ _ _ _ _ _ Hkeys Hbefore).
    by rewrite (step_skips _ _ _ _ Hrec H). }
  assert (Hran : ~ (hit \/ items = []) ->
                 exists item rest later,
                   items = item :: rest /\
                   trace (fst result)
                   = trace rt
                       ++ (if truthy parallel
                           then Cluster items parallel command opts
                           else Exec command item opts) :: later).
  { intros Hno.
    assert (Hskip : skipped commands globalOptions command rt = false).
    { destruct (skipped commands globalOptions command rt); [|reflexivity].
      destruct Hno. by apply Hiff. }
    destruct (skipCondition_items _ _ _ _ Hskip) as (item & rest & Hitems).
    destruct (run_first_call _ _ _ _ _ _ _ _ _ Hkeys Hrec Hbefore Hskip Hitems)
      as [later Hl].
    exists item, rest, later. split; [exact Hitems|].
    unfold result. rewrite Hl. unfold items. by rewrite Hitems. }
  split; [|split; [exact Hskipped | split; [exact Hran | split]]].
  - split.
    + intros Hstep.
      destruct (skipped commands globalOptions command rt) eqn:Hskip; [by apply Hiff|].
      destruct (step_cases commands globalOptions command rt)
        as [(_ & H) | [(_ & Hno & _) | [(_ & Hyes & _) |
             (_ & _ & w & e & later & _ & [H | [reason H]])]]];
        try congruence; unfold step0 in Hstep; rewrite Hstep in H; try discriminate.
      apply (f_equal (fun p => length (trace (fst p)))) in H. simpl in H.
      rewrite trace_withCacheWrite in H. simpl in H.
      rewrite !length_app in H. simpl in H. lia.
    + intros H. apply Hiff in H. by apply step_skips.
  - intros Hnil. apply Hskipped. by right.
  - intros batch c r. apply pluginLoop_blind.
Qed.

(** C3.  In the stand-alone [handleCommand], for a command that is not
    skipped: when the cluster runner resolves, or every executor call
    does, the calls come first and the closing statement after them,
    which stores the fingerprint of the item list under the command's
    name when the cache flag is on, and the run goes on with the next
    command.  When a call is rejected, the calls made stop at the
    rejected one, the remaining items are not run, the cache is as it
    was before the command, no cache write is made, and the run ends
    there with that error: no later command is looked at. *)
Theorem cache_written_only_after_success
  commands globalOptions command before after rt0 rt :
  ownKeys commands = before ++ command :: after ->
  recognized commands command = true ->
  let step := handleCommand_step commander masterCluster JSON_stringify
                commands globalOptions in
  forEach step before rt0 = (rt, Done tt) ->
  skipCondition JSON_stringify commands globalOptions command rt = false ->
  let items := itemsOf commands command in
  let opts := mergedOptions commands globalOptions command in
  let parallel := prop globalOptions "parallel" in
  let content := JSON_stringify items in
  let result :=
    handleCommand commander masterCluster JSON_stringify
      (Some commands) (Some globalOptions) rt0 in
  (truthy parallel = false ->
   allResolve commander command opts items (world rt) = true ->
   let calls := List.map (fun item => Exec command item opts) items in
   let w := worldAfter commander command opts items (world rt) in
   result
   = forEach step after
       (if cacheEnabled opts
        then mkRuntime w (<[command := content]> (cache rt)) (progress rt)
               (trace rt ++ calls ++ [CacheWrite command content])
        else mkRuntime w (cache rt) (progress rt) (trace rt ++ calls)))
  /\
  (truthy parallel = true ->
   forall w completedNum,
     masterCluster items parallel command opts (world rt) = (w, Resolved completedNum) ->
     let call := Cluster items parallel command opts in
     result
     = forEach step after
         (if cacheEnabled opts
          then mkRuntime w (<[command := content]> (cache rt)) (progress rt)
                 (trace rt ++ [call; CacheWrite command content])
          else mkRuntime w (cache rt) (progress rt) (trace rt ++ [call])))
  /\
  (truthy parallel = false ->
   forall done item rest w reason,
     items = done ++ item :: rest ->
     allResolve commander command opts done (world rt) = true ->
     commander command item opts (worldAfter commander command opts done (world rt))
     = (w, Rejected reason) ->
     result
     = (mkRuntime w (cache rt) (progress rt)
          (trace rt ++ List.map (fun item => Exec command item opts) (done ++ [item])),
        Thrown (Rejection reason)))
  /\
  (truthy parallel = true ->
   forall w reason,
     masterCluster items parallel command opts (world rt) = (w, Rejected reason) ->
     result
     = (mkRuntime w (cache rt) (progress rt)
          (trace rt ++ [Cluster items parallel command opts]),
        Thrown (Rejection reason))).
Proof.
  intros Hkeys Hrec step0 Hbefore Hskip items opts parallel content result.
  unfold result, step0. rewrite (run_reaches _ _ _ _ _ _ _ Hkeys Hbefore).
  split; [|split; [|split]].
  - intros Hpar Hall. cbv zeta.
    rewrite (step_sequential_completes _ _ _ _ Hrec Hskip Hpar Hall).
    fold items opts. unfold withCacheWrite, withCalls, fingerprint. fold items content.
    destruct (cacheEnabled opts); simpl; [by rewrite <- app_assoc | reflexivity].
  - intros Hpar w n Hcall. cbv zeta.
    rewrite (step_parallel _ _ _ _ Hrec Hskip Hpar). fold items opts parallel.
    rewrite Hcall. unfold withCacheWrite, withCalls, fingerprint. fold items content.
    destruct (cacheEnabled opts); simpl; [by rewrite <- app_assoc | reflexivity].
  - intros Hpar done item rest w reason Hitems Hall Hrej.
    by rewrite (step_sequential_fails _ _ _ _ _ _ _ _ _ Hrec Hskip Hpar Hitems Hall Hrej).
  - intros Hpar w reason Hcall.
    rewrite (step_parallel _ _ _ _ Hrec Hskip Hpar). fold items opts parallel.
    by rewrite Hcall.
Qed.

(** C4 (as amended).  Idempotence under cache holds for the stand-alone
    [handleCommand]: when the cache flag of the merged options is on for
    every recognized command of the batch and a run completes, running
    it again on the same batch and options leaves the runtime as it is:
    no executor call, no cluster call, no cache write.  It does not hold
    for the plugin's method: there every recognized command with items
    makes a call at once, whatever was run before and whatever the cache
    holds. *)
Theorem second_run_is_idle this commands globalOptions rt rt1 :
  ((forall command,
       In command (ownKeys commands) -> recognized commands command = true ->
       cacheEnabled (mergedOptions commands globalOptions command) = true) ->
   handleCommand commander masterCluster JSON_stringify
     (Some commands) (Some globalOptions) rt = (rt1, Done tt) ->
   handleCommand commander masterCluster JSON_stringify
     (Some commands) (Some globalOptions) rt1 = (rt1, Done tt))
  /\
  (forall command e before after item rest r0 r,
      ownKeys commands = before ++ command :: after ->
      recognized commands command = true ->
      at_key commands command = BEntry e ->
      forEach (webpackPlugin_handleCommand_step commander masterCluster this commands)
        before r0 = (r, Done tt) ->
      itemsOf commands command = item :: rest ->
      let opts := mergedOptions commands (globalOptionsOf this) command in
      let parallel := prop (globalOptionsOf this) "parallel" in
      exists later,
        trace (fst (webpackPlugin_handleCommand commander masterCluster this commands r0))
        = trace r
            ++ (if truthy parallel
                then Cluster (item :: rest) parallel command opts
                else Exec command item opts) :: later).
Proof.
  split.
  - apply run_idle.
  - intros command e before after item rest r0 r Hkeys Hrec He Hbefore Hitems.
    by apply (pluginRun_first_call this commands command e before after r0 r item rest).
Qed.

(** C5.  Sequential ordering: a command that is run while the global
    [parallel] is falsy has the executor called on its items in list
    order, each call starting in the world the call before it left, and
    the cluster runner is not called.  Either every call resolves: then
    the executor was called once on every item, and the run goes on with
    the next command.  Or some call is rejected: then the executor was
    called on the items up to and including the first such item, on none
    after it, and the run ends with that rejection.  This holds for the
    stand-alone function and for the plugin's method. *)
Theorem sequential_in_list_order
  this commands globalOptions command before after rt0 rt :
  ownKeys commands = before ++ command :: after ->
  recognized commands command = true ->
  let items := itemsOf commands command in
  (let step := handleCommand_step commander masterCluster JSON_stringify
                 commands globalOptions in
   forEach step before rt0 = (rt, Done tt) ->
   skipCondition JSON_stringify commands globalOptions command rt = false ->
   truthy (prop globalOptions "parallel") = false ->
   let opts := mergedOptions commands globalOptions command in
   let result :=
     handleCommand commander masterCluster JSON_stringify
       (Some commands) (Some globalOptions) rt0 in
   (allResolve commander command opts items (world rt) = true /\
    result
    = forEach step after
        (withCacheWrite (cacheEnabled opts) command
           (fingerprint JSON_stringify commands command)
           (withCalls rt (worldAfter commander command opts items (world rt))
              (List.map (fun item => Exec command item opts) items))))
   \/
   (exists done item rest w reason,
       items = done ++ item :: rest /\
       allResolve commander command opts done (world rt) = true /\
       commander command item opts (worldAfter commander command opts done (world rt))
       = (w, Rejected reason) /\
       result
       = (withCalls rt w (List.map (fun item => Exec command item opts) (done ++ [item])),
          Thrown (Rejection reason))))
  /\
  (forall e,
      at_key commands command = BEntry e ->
      let step := webpackPlugin_handleCommand_step commander masterCluster
                    this commands in
      forEach step before rt0 = (rt, Done tt) ->
      sinkReady (tracksProgress this) rt ->
      truthy (prop (globalOptionsOf this) "parallel") = false ->
      let opts := mergedOptions commands (globalOptionsOf this) command in
      let tracked := tracksProgress this in
      let result := webpackPlugin_handleCommand commander masterCluster this commands rt0 in
      (allResolve commander command opts items (world rt) = true /\
       result
       = forEach step after
           (withReport tracked rt (worldAfter commander command opts items (world rt))
              (Z.of_nat (length items))
              (flat_map (fun item => Exec command item opts :: report tracked 1) items)))
      \/
      (exists done item rest w reason,
          items = done ++ item :: rest /\
          allResolve commander command opts done (world rt) = true /\
          commander command item opts (worldAfter commander command opts done (world rt))
          = (w, Rejected reason) /\
          result
          = (withReport tracked rt w (Z.of_nat (length done))
               (flat_map (fun item => Exec command item opts :: report tracked 1) done
                  ++ [Exec command item opts]),
             Thrown (Rejection reason)))).
Proof.
  intros Hkeys Hrec items. split.
  - intros step0 Hbefore Hskip Hpar opts result. unfold result, step0.
    rewrite (run_reaches _ _ _ _ _ _ _ Hkeys Hbefore).
    destruct (settles command opts items (world rt))
      as [Hall|(done & item & rest & w & reason & Hitems & Hall & Hrej)].
    + left. split; [exact Hall|].
      by rewrite (step_sequential_completes _ _ _ _ Hrec Hskip Hpar Hall).
    + right. exists done, item, rest, w, reason. repeat (split; [assumption|]).
      by rewrite (step_sequential_fails _ _ _ _ _ _ _ _ _ Hrec Hskip Hpar Hitems Hall Hrej).
  - intros e He step0 Hbefore Hready Hpar opts tracked result. unfold result, step0.
    rewrite (pluginRun_reaches _ _ _ _ _ _ _ Hkeys Hbefore).
    destruct (settles command opts items (world rt))
      as [Hall|(done & item & rest & w & reason & Hitems & Hall & Hrej)].
    + left. split; [exact Hall|].
      by rewrite (pluginStep_sequential_completes _ _ _ _ _ Hrec He Hpar Hready Hall).
    + right. exists done, item, rest, w, reason. repeat (split; [assumption|]).
      by rewrite (pluginStep_sequential_fails _ _ _ _ _ _ _ _ _ _ Hrec He Hpar Hready
                    Hitems Hall Hrej).
Qed.

(** C6 (as amended).  Progress accounting in the plugin's
    [handleCommand], with progress tracking on and the sink in place.
    Run through the cluster runner, a command makes one [setSpeed] call,
    after the runner resolved and with the count it resolved to, and
    none when the runner rejected.  Run item by item, every completed
    item is followed by one [setSpeed(1)]: when all calls resolve the
    completed count has grown by the number of items; when a call is
    rejected it has grown by the number of items before that one, and
    the rejected item is not reported.  The stand-alone [handleCommand]
    never reports progress: it leaves the sink as it is and makes no
    [setSpeed] call, whatever its options say. *)
Theorem progress_accounting this commands command e p before after rt0 rt :
  ownKeys commands = before ++ command :: after ->
  recognized commands command = true ->
  at_key commands command = BEntry e ->
  let step := webpackPlugin_handleCommand_step commander masterCluster this commands in
  forEach step before rt0 = (rt, Done tt) ->
  truthy (prop (globalOptionsOf this) "progress") = true ->
  progress rt = Some p ->
  let items := itemsOf commands command in
  let opts := mergedOptions commands (globalOptionsOf this) command in
  let parallel := prop (globalOptionsOf this) "parallel" in
  let result := webpackPlugin_handleCommand commander masterCluster this commands rt0 in
  (if truthy parallel then
     result
     = match masterCluster items parallel command opts (world rt) with
       | (w, Resolved completedNum) =>
           forEach step after
             (withProgress rt w p completedNum
                [Cluster items parallel command opts; SetSpeed completedNum])
       | (w, Rejected reason) =>
           (withCalls rt w [Cluster items parallel command opts],
            Thrown (Rejection reason))
       end
   else
     (allResolve commander command opts items (world rt) = true ->
      result
      = forEach step after
          (withProgress rt (worldAfter commander command opts items (world rt)) p
             (Z.of_nat (length items))
             (flat_map (fun item => [Exec command item opts; SetSpeed 1]) items))) /\
     (forall done item rest w reason,
         items = done ++ item :: rest ->
         allResolve commander command opts done (world rt) = true ->
         commander command item opts (worldAfter commander command opts done (world rt))
         = (w, Rejected reason) ->
         result
         = (withProgress rt w p (Z.of_nat (length done))
              (flat_map (fun item => [Exec command item opts; SetSpeed 1]) done
                 ++ [Exec command item opts]),
            Thrown (Rejection reason))))
  /\
  (forall batch globalOptions (r : Runtime World),
      let r' := fst (handleCommand commander masterCluster JSON_stringify
                       batch globalOptions r) in
      progress r' = progress r /\
      exists added,
        trace r' = trace r ++ added /\ List.filter isSetSpeed added = []).
Proof.
  intros Hkeys Hrec He step0 Hbefore Hprog Hp items opts parallel result.
  assert (Hready : sinkReady (tracksProgress this) rt).
  { intros _. by rewrite Hp. }
  assert (Hsink : forall w n events,
             withReport (tracksProgress this) rt w n events = withProgress rt w p n events).
  { intros w n events. unfold withReport, withProgress, reported, tracksProgress.
    by rewrite Hprog, Hp. }
  assert (Htracked : tracksProgress this = true) by exact Hprog.
  split.
  - unfold result, step0. rewrite (pluginRun_reaches _ _ _ _ _ _ _ Hkeys Hbefore).
    destruct (truthy parallel) eqn:Hpar.
    + rewrite (pluginStep_parallel _ _ _ _ _ Hrec He Hpar Hready).
      fold items opts parallel.
      destruct (masterCluster _ _ _ _ _) as [w [n|reason]]; [|reflexivity].
      by rewrite Hsink, Htracked.
    + split.
      * intros Hall.
        rewrite (pluginStep_sequential_completes _ _ _ _ _ Hrec He Hpar Hready Hall).
        fold items opts. by rewrite Hsink, Htracked.
      * intros done item rest w reason Hitems Hall Hrej.
        rewrite (pluginStep_sequential_fails _ _ _ _ _ _ _ _ _ _ Hrec He Hpar Hready
                   Hitems Hall Hrej).
        fold opts. by rewrite Hsink, Htracked.
  - intros batch g r r'. unfold r', handleCommand.
    destruct (loop_keeps (default (literal []) batch) (default [] g)
                (ownKeys (default (literal []) batch)) r) as (Hp' & added & Htr & Hok).
    split; [exact Hp'|]. exists added. split; [exact Htr|].
    clear -Hok. induction added as [|x added IH]; [reflexivity|].
    simpl in Hok. apply andb_prop in Hok as [Hx Hrest].
    destruct x; simpl in *; try discriminate; by apply IH.
Qed.

(** *** Keys and entries that are passed over *)

Lemma hasOwn_app {A : Type} (a b : list (string * A)) k :
  hasOwn (a ++ b) k = hasOwn a k || hasOwn b k.
Proof. unfold hasOwn. apply existsb_app. Qed.

Lemma get_app {A : Type} (a b : list (string * A)) k :
  get (a ++ b) k = match get a k with
                   | Some v => Some v
                   | None => get b k
                   end.
Proof.
  induction a as [|[x v] a IH]; simpl; [reflexivity|].
  destruct (String.eqb x k); [reflexivity | exact IH].
Qed.

Lemma get_present {A : Type} (o : list (string * A)) k :
  In k (keys o) -> exists v, get o k = Some v.
Proof.
  induction o as [|[x v] o IH]; simpl; intros Hk; [destruct Hk|].
  destruct (String.eqb x k) eqn:Hxk; [eauto|].
  destruct Hk as [->|Hk]; [by rewrite String.eqb_refl in Hxk | by apply IH].
Qed.

Lemma get_absent {A : Type} (o : list (string * A)) k :
  ~ In k (keys o) -> get o k = None.
Proof.
  induction o as [|[a w] o IH]; simpl; intros Hk; [reflexivity|].
  destruct (String.eqb a k) eqn:Hak.
  - apply String.eqb_eq in Hak. destruct Hk. by left.
  - apply IH. intros Hin. apply Hk. by right.
Qed.

Lemma hasOwn_present {A : Type} (o : list (string * A)) k :
  In k (keys o) -> hasOwn o k = true.
Proof.
  intros Hk. unfold hasOwn. apply existsb_exists.
  apply in_map_iff in Hk as ([x v] & <- & Hin). exists (x, v).
  split; [exact Hin | apply String.eqb_refl].
Qed.

Lemma hasOwn_absent {A : Type} (o : list (string * A)) k :
  ~ In k (keys o) -> hasOwn o k = false.
Proof.
  intros Hk. unfold hasOwn.
  destruct (existsb _ o) eqn:Hex; [|reflexivity].
  apply existsb_exists in Hex as ([x v] & Hin & Heq). simpl in Heq.
  apply String.eqb_eq in Heq as ->. destruct Hk.
  apply in_map_iff. by exists (k, v).
Qed.

Lemma get_app_other {A : Type} (before after : list (string * A)) c v k :
  String.eqb c k = false ->
  get (before ++ (c, v) :: after) k = get (before ++ after) k.
Proof. intros Hne. rewrite !get_app. simpl. by rewrite Hne. Qed.

Lemma hasOwn_app_other {A : Type} (before after : list (string * A)) c v k :
  String.eqb c k = false ->
  hasOwn (before ++ (c, v) :: after) k = hasOwn (before ++ after) k.
Proof. intros Hne. rewrite !hasOwn_app. unfold hasOwn at 2. simpl. by rewrite Hne. Qed.

Lemma differs c k (names : list string) :
  includes names c = false -> includes names k = true -> String.eqb c k = false.
Proof.
  intros Hc Hk. destruct (String.eqb c k) eqn:Heq; [|reflexivity].
  apply String.eqb_eq in Heq. congruence.
Qed.

(** The same method, the same entry: the same step. *)
Lemma step_same_entry (c1 c2 : Commands) globalOptions k rt :
  hasOwnProperty c1 k = hasOwnProperty c2 k ->
  at_key c1 k = at_key c2 k ->
  step c1 globalOptions k rt = step c2 globalOptions k rt.
Proof. intros Hown Hat. unfold handleCommand_step. by rewrite Hown, Hat. Qed.

Lemma pluginStep_same_entry this (c1 c2 : Commands) k rt :
  hasOwnProperty c1 k = hasOwnProperty c2 k ->
  at_key c1 k = at_key c2 k ->
  pluginStep this c1 k rt = pluginStep this c2 k rt.
Proof. intros Hown Hat. unfold webpackPlugin_handleCommand_step. by rewrite Hown, Hat. Qed.

Lemma forEach_without_idle {A : Type} (body : A -> Action World unit) l1 x l2 rt :
  (forall r, body x r = (r, Done tt)) ->
  forEach body (l1 ++ x :: l2) rt = forEach body (l1 ++ l2) rt.
Proof.
  intros Hidle. rewrite !forEach_app.
  destruct (forEach body l1 rt) as [rt' [[]|e]]; [|reflexivity].
  by rewrite forEach_cons, Hidle.
Qed.

Lemma includes_In (names : list string) x : includes names x = true <-> In x names.
Proof.
  unfold includes. rewrite existsb_exists. split.
  - intros (y & Hy & Heq). apply String.eqb_eq in Heq. by subst.
  - intros Hx. exists x. split; [exact Hx | apply String.eqb_refl].
Qed.

Lemma command_names c :
  includes COMMAND_LIST c = true <->
  In c ["copy"; "move"; "del"; "zip"; "unzip"; "rename"].
Proof. apply includes_In. Qed.


(** C8 (where the code departs from it).  A key named [hasOwnProperty]
    is a key outside the six command names, and so is every key of a
    batch without prototype.  Such an entry is not passed over: with an
    own property of that name, or without prototype, the batch cannot
    answer [commands.hasOwnProperty(command)], and the run throws a
    TypeError at its first key, before any command is run, in the
    stand-alone function and in the plugin's method alike. *)
Theorem unknown_key_hasOwnProperty_throws
  this (commands : Commands) globalOptions key keys rt :
  ownKeys commands = key :: keys ->
  hasOwn (props commands) "hasOwnProperty" = true \/ ordinary commands = false ->
  includes COMMAND_LIST "hasOwnProperty" = false /\
  handleCommand commander masterCluster JSON_stringify (Some commands) globalOptions rt
  = (rt, Thrown TypeError) /\
  webpackPlugin_handleCommand commander masterCluster this commands rt
  = (rt, Thrown TypeError).
Proof.
  intros Hkeys Hbad.
  assert (Hres : resolves commands = false).
  { unfold resolves. destruct Hbad as [-> | ->]; [apply andb_false_r | reflexivity]. }
  split; [reflexivity|]. split.
  - unfold handleCommand. simpl. rewrite Hkeys, forEach_cons.
    by rewrite step_throws.
  - unfold webpackPlugin_handleCommand. rewrite Hkeys, forEach_cons.
    by rewrite pluginStep_throws.
Qed.

(** C10 (as amended).  In the stand-alone [handleCommand] a recognized
    key whose value is [null], [undefined] or an object without [items]
    has the empty item list and is skipped: the run goes on with the
    next key from the runtime as it is, without call, cache write or
    error.  An object that lacks only [options] is not skipped for that:
    it has its own items, its merged options are the global ones alone,
    it is skipped exactly on a cache hit, and otherwise it is run on its
    own items with those options, its first call being made at once. *)
Theorem missing_items_is_skipped commands globalOptions command before after rt0 rt :
  ownKeys commands = before ++ command :: after ->
  recognized commands command = true ->
  let step := handleCommand_step commander masterCluster JSON_stringify
                commands globalOptions in
  forEach step before rt0 = (rt, Done tt) ->
  let result :=
    handleCommand commander masterCluster JSON_stringify
      (Some commands) (Some globalOptions) rt0 in
  (at_key commands command = BNull \/
   at_key commands command = BUndefined \/
   (exists options, at_key commands command = BEntry (mkEntry None options)) ->
   itemsOf commands command = [] /\
   step command rt = (rt, Done tt) /\
   result = forEach step after rt)
  /\
  (forall item rest,
      at_key commands command = BEntry (mkEntry (Some (item :: rest)) None) ->
      let opts := Object_assign globalOptions [] in
      let parallel := prop globalOptions "parallel" in
      let hit := cacheEnabled opts = true /\
                 cache rt !! command = Some (JSON_stringify (item :: rest)) in
      itemsOf commands command = item :: rest /\
      mergedOptions commands globalOptions command = opts /\
      (hit -> result = forEach step after rt) /\
      (~ hit ->
       exists later,
         trace (fst result)
         = trace rt
             ++ (if truthy parallel
                 then Cluster (item :: rest) parallel command opts
                 else Exec command item opts) :: later)).
Proof.
  intros Hkeys Hrec step0 Hbefore result. split.
  - intros Hvalue.
    assert (Hnil : itemsOf commands command = []).
    { unfold itemsOf. destruct Hvalue as [->|[->|[options ->]]]; reflexivity. }
    assert (Hskip : skipped commands globalOptions command rt = true).
    { apply skipCondition_true. by right. }
    split; [exact Hnil|]. split; [by apply step_skips|].
    unfold result, step0. rewrite (run_reaches _ _ _ _ _ _ _ Hkeys Hbefore).
    by rewrite (step_skips _ _ _ _ Hrec Hskip).
  - intros item rest He opts parallel hit.
    assert (Hitems : itemsOf commands command = item :: rest).
    { unfold itemsOf. by rewrite He. }
    assert (Hopts : mergedOptions commands globalOptions command = opts).
    { unfold mergedOptions. by rewrite He. }
    assert (Hiff : skipped commands globalOptions command rt = true <-> hit).
    { rewrite skipCondition_true. unfold fingerprint. rewrite Hitems, Hopts.
      split; [intros [H|H]; [exact H | discriminate] | by left]. }
    split; [exact Hitems|]. split; [exact Hopts|]. split.
    + intros Hhit. apply Hiff in Hhit. unfold result, step0.
      rewrite (run_reaches _ _ _ _ _ _ _ Hkeys Hbefore).
      by rewrite (step_skips _ _ _ _ Hrec Hhit).
    + intros Hno.
      assert (Hskip : skipped commands globalOptions command rt = false).
      { destruct (skipped commands globalOptions command rt); [|reflexivity].
        destruct Hno. by apply Hiff. }
      destruct (run_first_call _ _ _ _ _ _ _ _ _ Hkeys Hrec Hbefore Hskip Hitems)
        as [later Hl].
      exists later. unfold result. rewrite Hl, Hopts. reflexivity.
Qed.

(** *** Further properties: the merged options *)

Lemma get_setProp target k v k' :
  get (setProp target k v) k' = if String.eqb k k' then Some v else get target k'.
Proof.
  induction target as [|[a w] target IH]; simpl.
  - destruct (String.eqb k k'); reflexivity.
  - destruct (String.eqb a k) eqn:Hak; simpl.
    + apply String.eqb_eq in Hak as ->.
      destruct (String.eqb k k'); reflexivity.
    + destruct (String.eqb a k') eqn:Hak'.
      * apply String.eqb_eq in Hak' as ->. by rewrite String.eqb_sym, Hak.
      * exact IH.
Qed.

Lemma get_copyProps source target k :
  List.NoDup (keys source) ->
  get (copyProps target source) k
  = match get source k with
    | Some v => Some v
    | None => get target k
    end.
Proof.
  unfold copyProps. revert target.
  induction source as [|[a v] source IH]; intros target Hnd; simpl; [reflexivity|].
  inversion Hnd as [|? ? Ha Hnd']; subst.
  rewrite IH by exact Hnd'. rewrite get_setProp.
  destruct (String.eqb a k) eqn:Hak.
  - apply String.eqb_eq in Hak as ->. by rewrite (get_absent source k).
  - reflexivity.
Qed.

(** X1.  The merged options of a command: a key the command's own
    options have reads as they give it, every other key as the global
    options give it. *)
Theorem merged_options_lookup commands globalOptions command key :
  List.NoDup (keys globalOptions) ->
  List.NoDup (keys (optionsOf commands command)) ->
  prop (mergedOptions commands globalOptions command) key
  = match get (optionsOf commands command) key with
    | Some v => v
    | None => prop globalOptions key
    end.
Proof.
  intros Hg Ho. unfold mergedOptions, Object_assign, prop.
  fold (optionsOf commands command).
  rewrite (get_copyProps _ _ _ Ho), (get_copyProps _ _ _ Hg). simpl.
  destruct (get (optionsOf commands command) key); [reflexivity|].
  destruct (get globalOptions key); reflexivity.
Qed.

(** *** Further properties: what a run touches *)

Lemma step_cache_lookup commands globalOptions command rt key :
  cache (fst (step commands globalOptions command rt)) !! key = cache rt !! key \/
  (recognized commands key = true /\
   itemsOf commands key <> [] /\
   cacheEnabled (mergedOptions commands globalOptions key) = true /\
   cache (fst (step commands globalOptions command rt)) !! key
   = Some (fingerprint JSON_stringify commands key)).
Proof.
  destruct (step_cache commands globalOptions command rt)
    as [->|(-> & _ & Hrec & Hskip & Hc)]; [by left|].
  destruct (decide (command = key)) as [<-|Hne].
  - right. split; [exact Hrec|]. split; [|split; [exact Hc | apply lookup_insert_eq]].
    destruct (skipCondition_items _ _ _ _ Hskip) as (item & rest & ->). discriminate.
  - left. by apply lookup_insert_ne.
Qed.

(** X3.  The cache after a run of the stand-alone [handleCommand]:
    under every key it holds what it held before, or, for a recognized
    command with items and the cache flag on, the fingerprint of that
    command's items.  No other entry is made or changed. *)
Theorem handleCommand_cache_footprint commands globalOptions rt key :
  let cs := default (literal []) commands in
  let g := default [] globalOptions in
  let rt' := fst (handleCommand commander masterCluster JSON_stringify
                    commands globalOptions rt) in
  cache rt' !! key = cache rt !! key \/
  (recognized cs key = true /\
   itemsOf cs key <> [] /\
   cacheEnabled (mergedOptions cs g key) = true /\
   cache rt' !! key = Some (JSON_stringify (itemsOf cs key))).
Proof.
  intros cs g. unfold handleCommand. fold cs g. generalize (ownKeys cs) as ks.
  intros ks. revert rt. induction ks as [|k ks IH]; intros rt; simpl; [by left|].
  unfold bind. pose proof (step_cache_lookup cs g k rt key) as Hstep.
  destruct (step cs g k rt) as [rt1 [[]|e]]; simpl in *; [|exact Hstep].
  destruct (IH rt1) as [Hsame|Hnew]; [|by right].
  rewrite Hsame. exact Hstep.
Qed.

(** X4.  The stand-alone [handleCommand] leaves the progress sink
    alone: [this.progress] is what it was, and the only events the run
    adds are executor calls, cluster calls and cache writes. *)
Theorem handleCommand_footprint commands globalOptions rt :
  progress (fst (handleCommand commander masterCluster JSON_stringify
                   commands globalOptions rt))
  = progress rt /\
  addsOnly (fun e => isExec e || isCluster e || isCacheWrite e) rt
    (fst (handleCommand commander masterCluster JSON_stringify
            commands globalOptions rt)).
Proof. unfold handleCommand. apply loop_keeps. Qed.

(** X5.  The plugin's [handleCommand] leaves the cache alone: the
    cache is what it was, and the only events the run adds are executor
    calls, cluster calls and progress increments. *)
Theorem plugin_handleCommand_footprint this commands rt :
  cache (fst (webpackPlugin_handleCommand commander masterCluster this commands rt))
  = cache rt /\
  addsOnly (fun e => isExec e || isCluster e || isSetSpeed e) rt
    (fst (webpackPlugin_handleCommand commander masterCluster this commands rt)).
Proof. unfold webpackPlugin_handleCommand. apply pluginLoop_keeps. Qed.

(** *** Further properties: batches and their parts *)

Lemma resolves_literal {A : Type} (l : list (string * A)) :
  resolves (literal l) = negb (hasOwn l "hasOwnProperty").
Proof. reflexivity. Qed.

Lemma entry_of_left (b1 b2 : list (string * BatchValue)) k :
  hasOwn (b1 ++ b2) "hasOwnProperty" = false ->
  In k (keys b1) ->
  hasOwnProperty (literal (b1 ++ b2)) k = hasOwnProperty (literal b1) k /\
  at_key (literal (b1 ++ b2)) k = at_key (literal b1) k.
Proof.
  intros Hplain Hk.
  pose proof Hplain as Hparts. rewrite hasOwn_app in Hparts.
  apply orb_false_elim in Hparts as [H1 _].
  split.
  - unfold hasOwnProperty. rewrite !resolves_literal, Hplain, H1. simpl.
    by rewrite hasOwn_app, (hasOwn_present b1 k Hk).
  - unfold at_key. simpl. rewrite get_app. by destruct (get_present b1 k Hk) as [v ->].
Qed.

Lemma entry_of_right (b1 b2 : list (string * BatchValue)) k :
  hasOwn (b1 ++ b2) "hasOwnProperty" = false ->
  ~ In k (keys b1) ->
  hasOwnProperty (literal (b1 ++ b2)) k = hasOwnProperty (literal b2) k /\
  at_key (literal (b1 ++ b2)) k = at_key (literal b2) k.
Proof.
  intros Hplain Hk.
  pose proof Hplain as Hparts. rewrite hasOwn_app in Hparts.
  apply orb_false_elim in Hparts as [_ H2].
  split.
  - unfold hasOwnProperty. rewrite !resolves_literal, Hplain, H2. simpl.
    by rewrite hasOwn_app, (hasOwn_absent b1 k Hk).
  - unfold at_key. simpl. by rewrite get_app, (get_absent b1 k Hk).
Qed.

(** X6.  A batch, written as an object literal with no property named
    [hasOwnProperty], whose two parts share no key is run as its first
    part followed, when that completes, by its second part; an error in
    the first part ends the run.  This holds for the stand-alone
    function and for the plugin's method. *)
Theorem handleCommand_splits this (b1 b2 : list (string * BatchValue)) globalOptions rt :
  hasOwn (b1 ++ b2) "hasOwnProperty" = false ->
  (forall k, In k (keys b1) -> ~ In k (keys b2)) ->
  handleCommand commander masterCluster JSON_stringify
    (Some (literal (b1 ++ b2))) globalOptions rt
  = match handleCommand commander masterCluster JSON_stringify
            (Some (literal b1)) globalOptions rt with
    | (rt', Done _) =>
        handleCommand commander masterCluster JSON_stringify
          (Some (literal b2)) globalOptions rt'
    | (rt', Thrown e) => (rt', Thrown e)
    end
  /\
  webpackPlugin_handleCommand commander masterCluster this (literal (b1 ++ b2)) rt
  = match webpackPlugin_handleCommand commander masterCluster this (literal b1) rt with
    | (rt', Done _) =>
        webpackPlugin_handleCommand commander masterCluster this (literal b2) rt'
    | (rt', Thrown e) => (rt', Thrown e)
    end.
Proof.
  intros Hplain Hdisjoint.
  assert (Hright : forall k, In k (keys b2) -> ~ In k (keys b1)).
  { intros k H2 H1. exact (Hdisjoint k H1 H2). }
  split.
  - unfold handleCommand. simpl. unfold ownKeys, keys. simpl.
    rewrite map_app, forEach_app. fold (keys b1) (keys b2).
    rewrite (forEach_ext _ (step (literal b1) (default [] globalOptions)) (keys b1)).
    2:{ intros k r Hk. apply step_same_entry; by apply entry_of_left. }
    destruct (forEach _ (keys b1) rt) as [rt' [[]|e]]; [|reflexivity].
    apply forEach_ext. intros k r Hk.
    apply step_same_entry; apply entry_of_right; auto.
  - unfold webpackPlugin_handleCommand, ownKeys, keys. simpl.
    rewrite map_app, forEach_app. fold (keys b1) (keys b2).
    rewrite (forEach_ext _ (pluginStep this (literal b1)) (keys b1)).
    2:{ intros k r Hk. apply pluginStep_same_entry; by apply entry_of_left. }
    destruct (forEach _ (keys b1) rt) as [rt' [[]|e]]; [|reflexivity].
    apply forEach_ext. intros k r Hk.
    apply pluginStep_same_entry; apply entry_of_right; auto.
Qed.

(** X7.  With the cache flag of its merged options off, a command is
    neither looked up nor stored: the cache is what it was, and a command
    with items is run even when the stored fingerprint equals its own. *)
Theorem cache_off_always_runs commands globalOptions command rt :
  recognized commands command = true ->
  cacheEnabled (mergedOptions commands globalOptions command) = false ->
  cache (fst (handleCommand_step commander masterCluster JSON_stringify
                commands globalOptions command rt))
  = cache rt /\
  (itemsOf commands command <> [] ->
   exists e later,
     trace (fst (handleCommand_step commander masterCluster JSON_stringify
                   commands globalOptions command rt))
     = trace rt ++ e :: later /\
     (isExec e || isCluster e) = true).
Proof.
  intros Hrec Hoff. split.
  - destruct (step_cache commands globalOptions command rt) as [H|(_ & _ & _ & _ & Hon)];
      [exact H | congruence].
  - intros Hitems.
    destruct (step_cases commands globalOptions command rt)
      as [(Hres & _) | [(_ & Hno & _) | [(_ & Hskip & _) |
           (_ & _ & w & e & later & Hcalls & [-> | [reason ->]])]]].
    + destruct (recognized_guard _ _ Hrec) as (Hyes & _). congruence.
    + congruence.
    + apply skipCondition_true in Hskip as [[Hon _]|Hnil]; [congruence | done].
    + rewrite Hoff. simpl. exists e, later. split; [reflexivity|].
      simpl in Hcalls. by apply andb_prop in Hcalls as [He _].
    + simpl. exists e, later. split; [reflexivity|].
      simpl in Hcalls. by apply andb_prop in Hcalls as [He _].
Qed.

(** X19.  Unknown command filtering, for a batch that can answer
    [hasOwnProperty] (it inherits from [Object.prototype] and has no own
    property of that name): a key that is not one of the six command
    names, copy, move, del, zip, unzip and rename, is passed over.  Its step leaves the runtime as it is and
    completes, in the stand-alone function and in the plugin's method
    alike, and the whole run is the run of the batch without that entry,
    whatever the entry holds. *)
Theorem unknown_command_ignored
  this (before after : list (string * BatchValue)) command value globalOptions rt :
  ~ In command ["copy"; "move"; "del"; "zip"; "unzip"; "rename"] ->
  hasOwn (before ++ (command, value) :: after) "hasOwnProperty" = false ->
  let commands := literal (before ++ (command, value) :: after) in
  let others := literal (before ++ after) in
  (handleCommand_step commander masterCluster JSON_stringify commands globalOptions
     command rt = (rt, Done tt) /\
   webpackPlugin_handleCommand_step commander masterCluster this commands command rt
   = (rt, Done tt)) /\
  handleCommand commander masterCluster JSON_stringify (Some commands)
    (Some globalOptions) rt
  = handleCommand commander masterCluster JSON_stringify (Some others)
      (Some globalOptions) rt /\
  webpackPlugin_handleCommand commander masterCluster this commands rt
  = webpackPlugin_handleCommand commander masterCluster this others rt.
Proof.
  intros Hunknown Hplain commands others.
  assert (Hc : includes COMMAND_LIST command = false).
  { destruct (includes COMMAND_LIST command) eqn:Hin; [|reflexivity].
    destruct Hunknown. by apply command_names. }
  assert (Hres : resolves commands = true).
  { unfold commands. by rewrite resolves_literal, Hplain. }
  assert (Hplain' : hasOwn (before ++ after) "hasOwnProperty" = false).
  { rewrite hasOwn_app in Hplain |- *. apply orb_false_elim in Hplain as [H1 H2].
    rewrite H1. simpl. unfold hasOwn in H2 |- *. simpl in H2.
    by apply orb_false_elim in H2 as [_ H2]. }
  assert (Hrec : recognized commands command = false).
  { unfold recognized. by rewrite Hc, andb_false_r. }
  assert (Hsame : forall k, includes COMMAND_LIST k = true ->
                            hasOwnProperty commands k = hasOwnProperty others k /\
                            at_key commands k = at_key others k).
  { intros k Hk. pose proof (differs _ _ _ Hc Hk) as Hne. split.
    - unfold hasOwnProperty, commands, others.
      rewrite !resolves_literal, Hplain, Hplain'. simpl.
      by rewrite (hasOwn_app_other _ _ _ _ _ Hne).
    - unfold at_key, commands, others. simpl. by rewrite (get_app_other _ _ _ _ _ Hne). }
  assert (Hstep : forall k r,
             step commands globalOptions k r = step others globalOptions k r).
  { intros k r. destruct (includes COMMAND_LIST k) eqn:Hk.
    - apply step_same_entry; by apply Hsame.
    - rewrite !step_unrecognized; try reflexivity;
        try (unfold recognized; by rewrite Hk, andb_false_r).
      + unfold others. by rewrite resolves_literal, Hplain'.
      + exact Hres. }
  assert (HpluginStep : forall k r,
             pluginStep this commands k r = pluginStep this others k r).
  { intros k r. destruct (includes COMMAND_LIST k) eqn:Hk.
    - apply pluginStep_same_entry; by apply Hsame.
    - rewrite !pluginStep_unrecognized; try reflexivity;
        try (unfold recognized; by rewrite Hk, andb_false_r).
      + unfold others. by rewrite resolves_literal, Hplain'.
      + exact Hres. }
  split; [split|split].
  - by apply step_unrecognized.
  - by apply pluginStep_unrecognized.
  - unfold handleCommand. simpl. unfold ownKeys, keys. simpl. rewrite !map_app. simpl.
    rewrite (forEach_ext _ (step others globalOptions)) by (intros; apply Hstep).
    apply forEach_without_idle. intros r. rewrite <- Hstep. by apply step_unrecognized.
  - unfold webpackPlugin_handleCommand, ownKeys, keys. simpl. rewrite !map_app. simpl.
    rewrite (forEach_ext _ (pluginStep this others)) by (intros; apply HpluginStep).
    apply forEach_without_idle. intros r. rewrite <- HpluginStep.
    by apply pluginStep_unrecognized.
Qed.

(** *** Further properties: the plugin's [handleCommand] *)

(** X8.  In the plugin's [handleCommand] a recognized key whose value
    is [null] or [undefined] is an error: the run throws a TypeError when
    it reaches that key, in the runtime the earlier commands left, and no
    later command is run. *)
Theorem plugin_rejects_missing_entry this commands command before after rt0 rt :
  ownKeys commands = before ++ command :: after ->
  recognized commands command = true ->
  at_key commands command = BNull \/ at_key commands command = BUndefined ->
  forEach (webpackPlugin_handleCommand_step commander masterCluster this commands)
    before rt0 = (rt, Done tt) ->
  webpackPlugin_handleCommand commander masterCluster this commands rt0
  = (rt, Thrown TypeError).
Proof.
  intros Hkeys Hrec Hvalue Hbefore.
  rewrite (pluginRun_reaches _ _ _ _ _ _ _ Hkeys Hbefore).
  by rewrite (pluginStep_missing _ _ _ _ Hrec Hvalue).
Qed.

(** X9.  When progress is asked for but no sink was made, the plugin's
    [handleCommand] fails at its first increment: after the first item
    completed, or after the cluster runner resolved, it throws a
    TypeError; the other items are not run. *)
Theorem plugin_progress_without_sink this commands command e rt :
  recognized commands command = true ->
  at_key commands command = BEntry e ->
  truthy (prop (globalOptionsOf this) "progress") = true ->
  progress rt = None ->
  let items := itemsOf commands command in
  let opts := mergedOptions commands (globalOptionsOf this) command in
  let parallel := prop (globalOptionsOf this) "parallel" in
  let result :=
    webpackPlugin_handleCommand_step commander masterCluster this commands command rt in
  if truthy parallel then
    match masterCluster items parallel command opts (world rt) with
    | (w, Resolved _) =>
        result
        = (mkRuntime w (cache rt) None
             (trace rt ++ [Cluster items parallel command opts]),
           Thrown TypeError)
    | (w, Rejected reason) =>
        result
        = (mkRuntime w (cache rt) None
             (trace rt ++ [Cluster items parallel command opts]),
           Thrown (Rejection reason))
    end
  else
    match items with
    | [] => result = (rt, Done tt)
    | item :: _ =>
        match commander command item opts (world rt) with
        | (w, Resolved _) =>
            result
            = (mkRuntime w (cache rt) None (trace rt ++ [Exec command item opts]),
               Thrown TypeError)
        | (w, Rejected reason) =>
            result
            = (mkRuntime w (cache rt) None (trace rt ++ [Exec command item opts]),
               Thrown (Rejection reason))
        end
    end.
Proof.
  intros Hrec He Hprog Hp items opts parallel result. unfold result.
  rewrite (pluginStep_unfold _ _ _ _ _ Hrec He). fold items opts parallel.
  unfold tracksProgress. rewrite Hprog. destruct (truthy parallel).
  - unfold bind, await_masterCluster, settle.
    destruct (masterCluster _ _ _ _ _) as [w [n|reason]].
    + unfold progress_setSpeed. simpl. rewrite Hp. reflexivity.
    + rewrite Hp. reflexivity.
  - destruct items as [|item rest]; [reflexivity|].
    rewrite forEach_cons.
    destruct (commander command item opts (world rt)) as [w [[]|reason]] eqn:Hcall.
    + unfold bind at 1. rewrite (exec_resolved _ _ _ _ _ Hcall).
      unfold progress_setSpeed, withCalls. simpl. rewrite Hp. reflexivity.
    + rewrite (tracked_rejected true _ _ _ _ _ _ Hcall). unfold withCalls.
      rewrite Hp. reflexivity.
Qed.

(** X10 and C7 rest on what a completed run of the plugin's method
    reports. *)
Lemma plugin_loop_counts this commands ks rt rt' p :
  truthy (prop (globalOptionsOf this) "progress") = true ->
  truthy (prop (globalOptionsOf this) "parallel") = false ->
  progress rt = Some p ->
  forEach (pluginStep this commands) ks rt = (rt', Done tt) ->
  progress rt'
  = Some (setSpeed
            (fold_right Z.add 0
               (List.map (fun command => Z.of_nat (length (itemsOf commands command)))
                  (List.filter (recognized commands) ks))) p) /\
  (ks = [] \/ resolves commands = true) /\
  (forall command, In command ks -> recognized commands command = true ->
                   exists e, at_key commands command = BEntry e).
Proof.
  intros Hprog Hpar. revert rt p.
  induction ks as [|k ks IH]; intros rt p Hp Hrun.
  - injection Hrun as <-. simpl. rewrite setSpeed_zero.
    split; [exact Hp|]. split; [by left | intros ? []].
  - rewrite forEach_cons in Hrun. cbn [List.filter].
    destruct (resolves commands) eqn:Hres.
    2:{ rewrite pluginStep_throws in Hrun by exact Hres. discriminate. }
    destruct (recognized commands k) eqn:Hrec.
    + destruct (at_key commands k) as [| |e] eqn:He.
      1,2: rewrite pluginStep_missing in Hrun by auto; discriminate.
      assert (Hready : sinkReady (tracksProgress this) rt) by (intros _; by rewrite Hp).
      destruct (settles k (mergedOptions commands (globalOptionsOf this) k)
                  (itemsOf commands k) (world rt))
        as [Hall|(done & item & rest & w & reason & Hitems & Hall & Hrej)].
      2:{ rewrite (pluginStep_sequential_fails _ _ _ _ _ _ _ _ _ _ Hrec He Hpar Hready
                     Hitems Hall Hrej) in Hrun. discriminate. }
      rewrite (pluginStep_sequential_completes _ _ _ _ _ Hrec He Hpar Hready Hall) in Hrun.
      eapply IH in Hrun as (Hp' & _ & Hobj).
      2:{ unfold withReport, reported, tracksProgress. simpl. rewrite Hprog, Hp.
          reflexivity. }
      split; [|split; [by right|]].
      * rewrite Hp', setSpeed_setSpeed. reflexivity.
      * intros c [<-|Hc] Hr; [eauto | by apply Hobj].
    + rewrite (pluginStep_unrecognized _ _ _ _ Hres Hrec) in Hrun.
      destruct (IH _ _ Hp Hrun) as (Hp' & _ & Hobj).
      split; [exact Hp'|]. split; [by right|].
      intros c [<-|Hc] Hr; [congruence | by apply Hobj].
Qed.

(** *** Counting and registering *)

Lemma sum_app (l1 l2 : list Z) :
  fold_right Z.add 0 (l1 ++ l2) = fold_right Z.add 0 l1 + fold_right Z.add 0 l2.
Proof. induction l1 as [|x l1 IH]; simpl; [reflexivity | rewrite IH; lia]. Qed.

Lemma foldOutcome_app {A B : Type} (f : B -> A -> Outcome B) (l1 l2 : list A) acc :
  foldOutcome f (l1 ++ l2) acc
  = match foldOutcome f l1 acc with
    | Done a => foldOutcome f l2 a
    | Thrown e => Thrown e
    end.
Proof.
  revert acc. induction l1 as [|x l1 IH]; intros acc; simpl; [reflexivity|].
  destruct (f acc x); [apply IH | reflexivity].
Qed.

Lemma foldOutcome_shift {A : Type} (f : Z -> A -> Outcome Z) :
  (forall acc d x,
      f (acc + d) x = match f acc x with
                      | Done n => Done (n + d)
                      | Thrown e => Thrown e
                      end) ->
  forall l acc d,
    foldOutcome f l (acc + d)
    = match foldOutcome f l acc with
      | Done n => Done (n + d)
      | Thrown e => Thrown e
      end.
Proof.
  intros Hf. induction l as [|x l IH]; intros acc d; simpl; [reflexivity|].
  rewrite Hf. destruct (f acc x); [apply IH | reflexivity].
Qed.

(** The inner loop of [countTotalTasks] over some keys of a batch. *)
Lemma countCommands_keys commands ks acc :
  0 <= acc ->
  match foldOutcome
          (fun result command =>
             match hasOwnProperty commands command with
             | Thrown e => Thrown e
             | Done own =>
                 if own && includes COMMAND_LIST command then
                   match destructure (at_key commands command) with
                   | Done entry =>
                       let items := default [] (entry_items entry) in
                       Done (result + Z.of_nat (length items))
                   | Thrown e => Thrown e
                   end
                 else Done result
             end)
          ks acc with
  | Done n =>
      n = acc + fold_right Z.add 0
                  (List.map (fun command => Z.of_nat (length (itemsOf commands command)))
                     (List.filter (recognized commands) ks)) /\
      (ks = [] \/ resolves commands = true) /\
      (forall command, In command ks -> recognized commands command = true ->
                       exists e, at_key commands command = BEntry e)
  | Thrown e =>
      e = TypeError /\
      ((ks <> [] /\ resolves commands = false) \/
       exists command, In command ks /\ recognized commands command = true /\
                       (at_key commands command = BNull \/
                        at_key commands command = BUndefined))
  end.
Proof.
  revert acc. induction ks as [|k ks IH]; intros acc Hacc; cbn [foldOutcome].
  - split; [simpl; lia|]. split; [by left | intros ? []].
  - destruct (resolves commands) eqn:Hres.
    2:{ rewrite (unresolved_guard _ _ Hres). split; [reflexivity | by left]. }
    destruct (recognized commands k) eqn:Hrec.
    + destruct (recognized_guard _ _ Hrec) as (_ & -> & ->). cbn [andb].
      destruct (at_key commands k) as [| |e] eqn:He; cbn [destructure].
      1,2: split; [reflexivity|]; right; exists k;
           (split; [by left|]); (split; [exact Hrec|]); auto.
      cbv zeta. specialize (IH (acc + Z.of_nat (length (default [] (entry_items e))))).
      destruct (foldOutcome _ ks _) as [n|err].
      * destruct IH as (Hn & _ & Hobj); [lia|].
        split; [|split; [by right|]].
        -- cbn [List.filter]. rewrite Hrec. cbn [List.map fold_right].
           unfold itemsOf at 1. rewrite He. simpl. lia.
        -- intros c [<-|Hc] Hr; [eauto | by apply Hobj].
      * destruct IH as [Herr Hwhy]; [lia|]. split; [exact Herr|].
        destruct Hwhy as [[_ Hno]|(c & Hc & Hr & Hv)]; [congruence|].
        right. exists c. split; [by right | by split].
    + destruct (unrecognized_guard _ _ Hres Hrec) as (own & -> & ->).
      specialize (IH acc Hacc). cbn [List.filter]. rewrite Hrec.
      destruct (foldOutcome _ ks acc) as [n|err].
      * destruct IH as (Hn & _ & Hobj). split; [exact Hn|]. split; [by right|].
        intros c [<-|Hc] Hr; [congruence | by apply Hobj].
      * destruct IH as [Herr Hwhy]. split; [exact Herr|].
        destruct Hwhy as [[_ Hno]|(c & Hc & Hr & Hv)]; [congruence|].
        right. exists c. split; [by right | by split].
Qed.

Lemma countCommands_outcome commands acc :
  0 <= acc ->
  match countCommands commands acc with
  | Done n => n = acc + itemCount commands /\ entriesAreObjects commands
  | Thrown e => e = TypeError /\ ~ entriesAreObjects commands
  end.
Proof.
  intros Hacc. unfold countCommands.
  pose proof (countCommands_keys commands (ownKeys commands) acc Hacc) as H.
  destruct (foldOutcome _ (ownKeys commands) acc) as [n|err].
  - destruct H as (Hn & Hres & Hobj). split; [exact Hn|]. by split.
  - destruct H as (Herr & Hwhy). split; [exact Herr|].
    intros [Hres Hobj]. destruct Hwhy as [[Hne Hno]|(c & Hc & Hr & Hv)].
    + destruct Hres as [Hnil|Hyes]; [by destruct Hne | congruence].
    + destruct (Hobj c Hc Hr) as [e He]. destruct Hv; congruence.
Qed.

Lemma countCommands_counts commands acc :
  0 <= acc ->
  entriesAreObjects commands ->
  countCommands commands acc = Done (acc + itemCount commands).
Proof.
  intros Hacc Hobj. pose proof (countCommands_outcome commands acc Hacc) as H.
  destruct (countCommands commands acc) as [n|err].
  - by destruct H as [-> _].
  - by destruct H as [_ Hno].
Qed.

Lemma itemCount_nonneg commands : 0 <= itemCount commands.
Proof.
  unfold itemCount. induction (List.filter _ _) as [|k ks IH]; simpl; lia.
Qed.

Lemma eligibleItemCount_cons h options :
  eligibleItemCount (h :: options)
  = (if supportedHookType (hookType h) then itemCount (hookCommands h) else 0)
    + eligibleItemCount options.
Proof. reflexivity. Qed.

Lemma eligibleItemCount_nonneg options : 0 <= eligibleItemCount options.
Proof.
  induction options as [|h options IH]; [done|].
  rewrite eligibleItemCount_cons. pose proof (itemCount_nonneg (hookCommands h)).
  destruct (supportedHookType _); lia.
Qed.

(** The loop of [countTotalTasks] over some hook items. *)
Lemma countTotalTasks_items options acc :
  0 <= acc ->
  match foldOutcome
          (fun result hookItem =>
             if negb (supportedHookType (hookType hookItem)) then Done result
             else countCommands (hookCommands hookItem) result)
          options acc with
  | Done n =>
      n = acc + eligibleItemCount options /\
      forall hookItem,
        In hookItem options -> supportedHookType (hookType hookItem) = true ->
        entriesAreObjects (hookCommands hookItem)
  | Thrown e =>
      e = TypeError /\
      exists hookItem,
        In hookItem options /\ supportedHookType (hookType hookItem) = true /\
        ~ entriesAreObjects (hookCommands hookItem)
  end.
Proof.
  revert acc. induction options as [|h options IH]; intros acc Hacc; cbn [foldOutcome].
  - split; [unfold eligibleItemCount; simpl; lia | intros ? []].
  - rewrite eligibleItemCount_cons.
    destruct (supportedHookType (hookType h)) eqn:Hsup; cbn [negb].
    + pose proof (countCommands_outcome (hookCommands h) acc Hacc) as Hinner.
      destruct (countCommands (hookCommands h) acc) as [n|err].
      * destruct Hinner as [-> Hobj].
        pose proof (itemCount_nonneg (hookCommands h)) as Hpos.
        specialize (IH (acc + itemCount (hookCommands h))).
        destruct (foldOutcome _ options _) as [m|err].
        -- destruct IH as [-> Hrest]; [lia|]. split; [lia|].
           intros x [<-|Hx] Hs; [exact Hobj | by apply Hrest].
        -- destruct IH as [Herr (x & Hx & Hs & Hno)]; [lia|]. split; [exact Herr|].
           exists x. split; [by right | by split].
      * destruct Hinner as [-> Hno]. split; [reflexivity|].
        exists h. split; [by left | by split].
    + specialize (IH acc Hacc). destruct (foldOutcome _ options acc) as [m|err].
      * destruct IH as [-> Hrest]. split; [lia|].
        intros x [<-|Hx] Hs; [congruence | by apply Hrest].
      * destruct IH as [Herr (x & Hx & Hs & Hno)]. split; [exact Herr|].
        exists x. split; [by right | by split].
Qed.


(** The loop of [apply] over the hook items. *)
Lemma forEach_register (l : list HookItem) (rt : Runtime World) :
  forEach
    (fun hookItem =>
       if negb (supportedHookType (hookType hookItem)) then ret tt
       else if tapThrows (hookName hookItem) (hookType hookItem)
            then emit LoggerError
            else emit (Tap (hookName hookItem) (hookType hookItem)
                         (registerName hookItem) (hookCommands hookItem)))
    l rt
  = (withCalls rt (world rt)
       (List.map (registrationEvent tapThrows)
          (List.filter (fun hookItem => supportedHookType (hookType hookItem)) l)),
     Done tt).
Proof.
  revert rt. induction l as [|h l IH]; intros rt.
  - simpl. by rewrite withCalls_nil.
  - rewrite forEach_cons. cbn [List.filter].
    destruct (supportedHookType (hookType h)); cbn [negb].
    + cbn [List.map].
      assert (Hreg : registrationEvent tapThrows h
                     = if tapThrows (hookName h) (hookType h)
                       then LoggerError
                       else Tap (hookName h) (hookType h) (registerName h)
                              (hookCommands h)) by reflexivity.
      rewrite Hreg.
      destruct (tapThrows (hookName h) (hookType h)); unfold emit at 1;
        rewrite IH; unfold withCalls; cbn [world cache progress trace];
        by rewrite <- app_assoc.
    + unfold ret at 1. apply IH.
Qed.

Lemma apply_counted this options totalTasks (rt : Runtime World) :
  webpackPlugin_translateHooks this = Done options ->
  webpackPlugin_countTotalTasks options = Done totalTasks ->
  webpackPlugin_apply tapThrows this rt
  = (mkRuntime (world rt) (cache rt)
       (if truthy (prop (globalOptionsOf this) "progress")
        then Some (mkProgress PROGRESS_TASK_NAME totalTasks 0)
        else progress rt)
       (trace rt
          ++ List.map (registrationEvent tapThrows)
               (List.filter (fun hookItem => supportedHookType (hookType hookItem))
                  options)),
     Done tt).
Proof.
  intros Hhooks Hcount. unfold webpackPlugin_apply. rewrite Hhooks, Hcount.
  fold (globalOptionsOf this). unfold bind.
  destruct (truthy (prop (globalOptionsOf this) "progress")); rewrite forEach_register;
    reflexivity.
Qed.

(** *** The claims about the plugin's total and its constructor *)


(** C9.  Given anything but a plain object, the constructor completes
    and builds the instance it builds from an empty options object:
    [this.options] is empty, so the global options are empty, no hook
    is translated, the total is zero and [apply] registers nothing. *)
Theorem constructor_defaults opts (rt : Runtime World) :
  Object_prototype_toString opts <> "[object Object]" ->
  let this := webpackPlugin_constructor opts in
  this = webpackPlugin_constructor (ArgOptions noOptions) /\
  this_options this = noOptions /\
  globalOptionsOf this = [] /\
  webpackPlugin_translateHooks this = Done [] /\
  webpackPlugin_countTotalTasks [] = Done 0 /\
  webpackPlugin_apply tapThrows this rt = (rt, Done tt).
Proof.
  intros Htag.
  assert (Hthis : webpackPlugin_constructor opts = mkPlugin noOptions).
  { destruct opts; try reflexivity. by destruct Htag. }
  intros this. subst this. rewrite Hthis. repeat split.
Qed.

(** *** Further properties: progress and the total *)

(** X10.  When a run of the plugin's [handleCommand] completes item
    by item with progress tracked, the completed count has grown by the
    number of items of the batch's recognized commands, which is what
    [countTotalTasks] counts for that batch. *)
Theorem plugin_progress_reaches_count this commands rt rt' p :
  truthy (prop (globalOptionsOf this) "progress") = true ->
  truthy (prop (globalOptionsOf this) "parallel") = false ->
  progress rt = Some p ->
  webpackPlugin_handleCommand commander masterCluster this commands rt = (rt', Done tt) ->
  progress rt' = Some (setSpeed (itemCount commands) p) /\
  countCommands commands 0 = Done (itemCount commands).
Proof.
  intros Hprog Hpar Hp Hrun.
  destruct (plugin_loop_counts this commands (ownKeys commands) rt rt' p Hprog Hpar Hp Hrun)
    as (Hdone & Hres & Hobj).
  split; [exact Hdone|].
  rewrite countCommands_counts; [reflexivity | lia | by split].
Qed.

Lemma countTotalTasks_shift options acc d :
  foldOutcome
    (fun result hookItem =>
       if negb (supportedHookType (hookType hookItem)) then Done result
       else countCommands (hookCommands hookItem) result)
    options (acc + d)
  = match foldOutcome
            (fun result hookItem =>
               if negb (supportedHookType (hookType hookItem)) then Done result
               else countCommands (hookCommands hookItem) result)
            options acc with
    | Done n => Done (n + d)
    | Thrown e => Thrown e
    end.
Proof.
  apply foldOutcome_shift. intros a b h.
  destruct (negb _); [reflexivity|].
  unfold countCommands. apply foldOutcome_shift. clear. intros acc d k.
  destruct (hasOwnProperty _ _) as [own|e]; [|reflexivity].
  destruct (own && _); [|reflexivity].
  destruct (destructure _); [|reflexivity]. simpl. f_equal. lia.
Qed.

(** X11.  [countTotalTasks] is additive over the hook list, with an
    error in either part an error of the whole; hook items whose type
    [this.hookTypesMap] does not have add nothing; and the result is a
    count that is not negative, or a TypeError. *)
Theorem countTotalTasks_additive (xs ys : list HookItem) :
  webpackPlugin_countTotalTasks (xs ++ ys)
  = match webpackPlugin_countTotalTasks xs with
    | Done a =>
        match webpackPlugin_countTotalTasks ys with
        | Done b => Done (a + b)
        | Thrown e => Thrown e
        end
    | Thrown e => Thrown e
    end
  /\
  webpackPlugin_countTotalTasks
    (List.filter (fun hookItem => supportedHookType (hookType hookItem)) xs)
  = webpackPlugin_countTotalTasks xs
  /\
  match webpackPlugin_countTotalTasks xs with
  | Done n => 0 <= n
  | Thrown e => e = TypeError
  end.
Proof.
  unfold webpackPlugin_countTotalTasks. split; [|split].
  - rewrite foldOutcome_app. destruct (foldOutcome _ xs 0) as [a|e]; [|reflexivity].
    replace a with (0 + a) at 1 by lia. rewrite countTotalTasks_shift.
    destruct (foldOutcome _ ys 0) as [b|e]; [|reflexivity]. f_equal. lia.
  - generalize 0. induction xs as [|h xs IH]; intros acc; [reflexivity|].
    cbn [List.filter foldOutcome].
    destruct (supportedHookType (hookType h)) eqn:Hsup; cbn [negb foldOutcome].
    + rewrite Hsup. cbn [negb].
      destruct (countCommands (hookCommands h) acc); [apply IH | reflexivity].
    + apply IH.
  - pose proof (countTotalTasks_items xs 0 (Z.le_refl 0)) as H.
    destruct (foldOutcome _ xs 0) as [n|err].
    + destruct H as [-> _]. pose proof (eligibleItemCount_nonneg xs). lia.
    + by destruct H as [-> _].
Qed.

(** X12.  A recognized command whose value is [null] or [undefined],
    under a hook item of a supported type, makes [countTotalTasks] throw
    a TypeError, and [apply] with it: nothing is registered and no
    progress sink is made. *)
Theorem apply_rejects_missing_entry this options (rt : Runtime World) hookItem command :
  webpackPlugin_translateHooks this = Done options ->
  In hookItem options ->
  supportedHookType (hookType hookItem) = true ->
  In command (ownKeys (hookCommands hookItem)) ->
  recognized (hookCommands hookItem) command = true ->
  at_key (hookCommands hookItem) command = BNull \/
  at_key (hookCommands hookItem) command = BUndefined ->
  webpackPlugin_countTotalTasks options = Thrown TypeError /\
  webpackPlugin_apply tapThrows this rt = (rt, Thrown TypeError).
Proof.
  intros Hhooks Hin Hsup Hcmd Hrec Hvalue.
  assert (Hcount : webpackPlugin_countTotalTasks options = Thrown TypeError).
  { unfold webpackPlugin_countTotalTasks.
    pose proof (countTotalTasks_items options 0 (Z.le_refl 0)) as H.
    destruct (foldOutcome _ options 0) as [n|err]; [|by destruct H as [-> _]].
    destruct H as [_ Hobj].
    destruct (Hobj hookItem Hin Hsup) as [_ Hentries].
    destruct (Hentries command Hcmd Hrec) as [e He].
    destruct Hvalue; congruence. }
  split; [exact Hcount|].
  unfold webpackPlugin_apply. rewrite Hhooks, Hcount. reflexivity.
Qed.

(** X13.  When the hooks can be translated and the total counted,
    [apply] completes: it makes the progress sink with that total when
    progress is asked for, and goes through every hook item whose type
    [this.hookTypesMap] has, in order, leaving a registration or, where
    the call on the host's hook throws, a logged error.  A call that
    throws on one hook does not keep the later ones from being
    registered; the world and the cache are not touched. *)
Theorem apply_registers_supported_hooks this options (rt : Runtime World) totalTasks :
  webpackPlugin_translateHooks this = Done options ->
  webpackPlugin_countTotalTasks options = Done totalTasks ->
  webpackPlugin_apply tapThrows this rt
  = (mkRuntime (world rt) (cache rt)
       (if truthy (prop (globalOptionsOf this) "progress")
        then Some (mkProgress PROGRESS_TASK_NAME totalTasks 0)
        else progress rt)
       (trace rt
          ++ List.map (registrationEvent tapThrows)
               (List.filter (fun hookItem => supportedHookType (hookType hookItem))
                  options)),
     Done tt).
Proof. apply apply_counted. Qed.

(** X20.  The sink is in place where the plugin's method needs it:
    when [apply] completes and progress is tracked, [this.progress] is
    set; and a run of the plugin's [handleCommand] that starts with the
    sink in place leaves it in place. *)
Theorem sink_ready_after_apply this (rt : Runtime World) :
  (snd (webpackPlugin_apply tapThrows this rt) = Done tt ->
   sinkReady (tracksProgress this) (fst (webpackPlugin_apply tapThrows this rt))) /\
  (forall commands r,
      sinkReady (tracksProgress this) r ->
      sinkReady (tracksProgress this)
        (fst (webpackPlugin_handleCommand commander masterCluster this commands r))).
Proof.
  split.
  - destruct (webpackPlugin_translateHooks this) as [options|e] eqn:Hhooks.
    2:{ unfold webpackPlugin_apply. rewrite Hhooks. discriminate. }
    destruct (webpackPlugin_countTotalTasks options) as [total|e] eqn:Hcount.
    2:{ unfold webpackPlugin_apply. rewrite Hhooks, Hcount. discriminate. }
    rewrite (apply_counted this options total rt Hhooks Hcount).
    intros _ Htracked. unfold tracksProgress in Htracked. simpl. by rewrite Htracked.
  - intros commands r Hready Htracked. specialize (Hready Htracked).
    set (R := fun a b : Runtime World => progress a <> None -> progress b <> None).
    assert (Hkeep : R r (fst (webpackPlugin_handleCommand commander masterCluster
                                this commands r))).
    { assert (Hrefl : forall a : Runtime World, R a a) by (intros a Ha; exact Ha).
      assert (Htrans : forall a b c : Runtime World, R a b -> R b c -> R a c).
      { intros a b c Hab Hbc Ha. by apply Hbc, Hab. }
      assert (Hspeed : forall (b : bool) n (r : Runtime World),
                 R r (fst ((if b then progress_setSpeed n else ret tt) r))).
      { intros b n r0. destruct b; [|apply Hrefl].
        unfold progress_setSpeed. destruct (progress r0) eqn:Hp; [|apply Hrefl].
        intros _. discriminate. }
      unfold webpackPlugin_handleCommand. apply forEach_keeps; [exact Hrefl | exact Htrans |].
      intros command r0. unfold webpackPlugin_handleCommand_step.
      destruct (hasOwnProperty commands command) as [own|err]; [|apply Hrefl].
      destruct (own && _); [|apply Hrefl].
      destruct (destructure _) as [entry|err]; [|apply Hrefl]. cbv zeta.
      destruct (truthy (prop _ "parallel")).
      + apply bind_keeps; [exact Htrans | | intros n r1; apply Hspeed].
        intros r1. unfold await_masterCluster, settle.
        destruct (masterCluster _ _ _ _ _) as [w [n|reason]]; intros H; exact H.
      + apply forEach_keeps; [exact Hrefl | exact Htrans |].
        intros item r1. apply bind_keeps; [exact Htrans | | intros _ r2; apply Hspeed].
        intros r2. unfold await_commander, settle.
        destruct (commander _ _ _ _) as [w [[]|reason]]; intros H; exact H. }
    by apply Hkeep.
Qed.

(** *** Further properties: translating the hooks *)

Lemma translateHooks_custom_eq this hooks :
  opt_customHooks (this_options this) = Some hooks ->
  hooks <> [] ->
  webpackPlugin_translateHooks this
  = Done
      (List.map
         (fun hook =>
            if falsyName (registerName hook)
            then mkHook (hookType hook) (hookName hook)
                   (Some (registerNameFor (hookName hook))) (hookCommands hook)
            else hook)
         hooks).
Proof.
  intros Hcustom Hne. unfold webpackPlugin_translateHooks. rewrite Hcustom. simpl.
  destruct hooks; [done | reflexivity].
Qed.

(** X14.  With at least one custom hook, [translateHooks] returns the
    custom hooks, one for one and in order, whatever [events] holds: hook
    type, hook name and commands are as given, a register name that is
    missing or empty becomes [REGISTER_] followed by the hook name, and
    the total counted is that of the hooks as given.  Translating the
    hooks as the first call left them changes nothing. *)
Theorem translateHooks_custom this hooks :
  opt_customHooks (this_options this) = Some hooks ->
  hooks <> [] ->
  exists translated,
    webpackPlugin_translateHooks this = Done translated /\
    List.map hookType translated = List.map hookType hooks /\
    List.map hookName translated = List.map hookName hooks /\
    List.map hookCommands translated = List.map hookCommands hooks /\
    List.map registerName translated
    = List.map (fun hook =>
                  if falsyName (registerName hook)
                  then Some (NAMESPACE_REGISTER_NAME +:+ default "undefined" (hookName hook))
                  else registerName hook) hooks /\
    webpackPlugin_countTotalTasks translated = webpackPlugin_countTotalTasks hooks /\
    webpackPlugin_translateHooks
      (mkPlugin (mkOptions (opt_options (this_options this))
                   (opt_events (this_options this)) (Some translated)))
    = Done translated.
Proof.
  intros Hcustom Hne.
  rewrite (translateHooks_custom_eq this hooks Hcustom Hne).
  set (normalize := fun hook =>
         if falsyName (registerName hook)
         then mkHook (hookType hook) (hookName hook)
                (Some (registerNameFor (hookName hook))) (hookCommands hook)
         else hook).
  exists (List.map normalize hooks). split; [reflexivity|].
  rewrite !List.map_map.
  repeat split.
  - apply List.map_ext. intros h. unfold normalize. by destruct (falsyName _).
  - apply List.map_ext. intros h. unfold normalize. by destruct (falsyName _).
  - apply List.map_ext. intros h. unfold normalize. by destruct (falsyName _).
  - apply List.map_ext. intros h. unfold normalize. by destruct (falsyName _).
  - unfold webpackPlugin_countTotalTasks. generalize 0. clear.
    induction hooks as [|h hooks IH]; intros acc; [reflexivity|].
    cbn [List.map foldOutcome].
    assert (Htype : hookType (normalize h) = hookType h)
      by (unfold normalize; by destruct (falsyName _)).
    assert (Hcmds : hookCommands (normalize h) = hookCommands h)
      by (unfold normalize; by destruct (falsyName _)).
    rewrite Htype, Hcmds.
    destruct (negb _); [apply IH|].
    destruct (countCommands _ _); [apply IH | reflexivity].
  - rewrite translateHooks_custom_eq with (hooks := List.map normalize hooks).
    + rewrite List.map_map. f_equal. apply List.map_ext. intros h. fold normalize.
      assert (Hname : falsyName (registerName (normalize h)) = false).
      { unfold normalize. destruct (falsyName (registerName h)) eqn:Hf; [|exact Hf].
        reflexivity. }
      by rewrite Hname.
    + reflexivity.
    + destruct hooks; [done | discriminate].
Qed.

Lemma builtin_event event :
  includes BUILTIN_EVENT_NAMES event = true -> event = "start" \/ event = "end".
Proof.
  unfold includes, BUILTIN_EVENT_NAMES. simpl. rewrite orb_false_r, orb_true_iff.
  intros [H|H]; apply String.eqb_eq in H; auto.
Qed.

Lemma collect_Forall {A B : Type} (P : B -> Prop) (f : A -> Outcome (list B)) l zs :
  (forall x ys, f x = Done ys -> Forall P ys) ->
  collect f l = Done zs -> Forall P zs.
Proof.
  intros Hf. revert zs. induction l as [|x l IH]; intros zs; simpl.
  - intros [= <-]. constructor.
  - destruct (f x) as [ys|e] eqn:Hx; [|discriminate].
    destruct (collect f l) as [zs'|e]; [|discriminate].
    intros [= <-]. apply List.Forall_app. split; [by eapply Hf | by apply IH].
Qed.

Lemma collect_total {A B : Type} (f : A -> Outcome (list B)) l :
  (forall x, In x l -> exists ys, f x = Done ys) ->
  exists zs, collect f l = Done zs.
Proof.
  induction l as [|x l IH]; intros Hf; simpl; [eauto|].
  destruct (Hf x (or_introl eq_refl)) as [ys ->].
  destruct IH as [zs ->]; [|eauto]. intros y Hy. apply Hf. by right.
Qed.

Lemma collect_ext {A B : Type} (f g : A -> Outcome (list B)) l :
  (forall x, f x = g x) -> collect f l = collect g l.
Proof. intros H. induction l as [|x l IH]; simpl; [reflexivity|]. by rewrite H, IH. Qed.

Lemma collect_without {A B : Type} (f : A -> Outcome (list B)) l1 x l2 :
  f x = Done [] -> collect f (l1 ++ x :: l2) = collect f (l1 ++ l2).
Proof.
  intros Hx. induction l1 as [|y l1 IH]; simpl.
  - rewrite Hx. by destruct (collect f l2).
  - by rewrite IH.
Qed.

Lemma translateHooks_events_eq this :
  opt_customHooks (this_options this) = None \/
  opt_customHooks (this_options this) = Some [] ->
  let events := default (literal []) (opt_events (this_options this)) in
  webpackPlugin_translateHooks this
  = collect
      (fun event =>
         match hasOwnProperty events event with
         | Thrown e => Thrown e
         | Done own =>
             if own && includes BUILTIN_EVENT_NAMES event then
               match get (props events) event, get BUILTIN_EVENTS_MAP event with
               | Some (Some commands), Some b =>
                   Done [mkHook (builtin_hookType b) (Some (builtin_hookName b))
                           (Some (builtin_registerName b)) commands]
               | _, _ => Done []
               end
             else Done []
         end)
      (ownKeys events).
Proof.
  intros Hcustom events. unfold webpackPlugin_translateHooks. fold events.
  by destruct Hcustom as [-> | ->].
Qed.

(** X15.  Without custom hooks (none given, or an empty array), every
    hook item [translateHooks] returns comes from the event [start] or
    the event [end]: it is of type [tapAsync], on [beforeRun] under the
    name [REGISTER_beforeRun] or on [afterEmit] under the name
    [REGISTER_afterEmit], and carries the commands given for that
    event.  It returns whenever [events] has no key or can answer
    [hasOwnProperty]. *)
Theorem translateHooks_events this :
  opt_customHooks (this_options this) = None \/
  opt_customHooks (this_options this) = Some [] ->
  let events := default (literal []) (opt_events (this_options this)) in
  (ownKeys events = [] \/ resolves events = true ->
   exists options, webpackPlugin_translateHooks this = Done options) /\
  (forall options,
      webpackPlugin_translateHooks this = Done options ->
      Forall
        (fun hook =>
           hookType hook = "tapAsync" /\
           ((hookName hook = Some "beforeRun" /\
             registerName hook = Some "REGISTER_beforeRun" /\
             get (props events) "start" = Some (Some (hookCommands hook))) \/
            (hookName hook = Some "afterEmit" /\
             registerName hook = Some "REGISTER_afterEmit" /\
             get (props events) "end" = Some (Some (hookCommands hook)))))
        options).
Proof.
  intros Hcustom events. rewrite (translateHooks_events_eq this Hcustom). fold events.
  split.
  - intros Hok. apply collect_total. intros event Hin.
    destruct Hok as [Hnil|Hres]; [rewrite Hnil in Hin; destruct Hin|].
    unfold hasOwnProperty. rewrite Hres.
    destruct (_ && _); [|eauto].
    destruct (get (props events) event) as [[commands|]|]; [|eauto..].
    destruct (get BUILTIN_EVENTS_MAP event); eauto.
  - intros options. apply collect_Forall. intros event ys.
    destruct (hasOwnProperty events event) as [own|e]; [|discriminate].
    destruct (own && includes BUILTIN_EVENT_NAMES event) eqn:Hcond;
      [|intros [= <-]; constructor].
    apply andb_prop in Hcond as [_ Hb].
    destruct (builtin_event event Hb) as [-> | ->].
    + destruct (get (props events) "start") as [[commands|]|] eqn:Hget; simpl;
        intros [= <-]; constructor; [|constructor].
      split; [reflexivity|]. left. auto.
    + destruct (get (props events) "end") as [[commands|]|] eqn:Hget; simpl;
        intros [= <-]; constructor; [|constructor].
      split; [reflexivity|]. right. auto.
Qed.

(** X16.  Every hook item [translateHooks] returns has a register
    name that is not empty; and it returns whenever there is a custom
    hook, or [events] has no key or can answer [hasOwnProperty]. *)
Theorem translateHooks_names this :
  let events := default (literal []) (opt_events (this_options this)) in
  ((exists hook hooks, opt_customHooks (this_options this) = Some (hook :: hooks)) \/
   ownKeys events = [] \/ resolves events = true ->
   exists options, webpackPlugin_translateHooks this = Done options) /\
  (forall options,
      webpackPlugin_translateHooks this = Done options ->
      Forall (fun hook => falsyName (registerName hook) = false) options).
Proof.
  intros events. unfold webpackPlugin_translateHooks. fold events.
  destruct (0 <? length (default [] (opt_customHooks (this_options this))))%nat eqn:Hlen.
  - split; [eauto|]. intros options [= <-]. clear Hlen.
    induction (default [] (opt_customHooks (this_options this))) as [|h hooks IH];
      [constructor|].
    cbn [List.map]. constructor; [|exact IH].
    destruct (falsyName (registerName h)) eqn:Hf; [reflexivity | exact Hf].
  - split.
    + intros [(hook & hooks & Hcustom)|Hok]; [rewrite Hcustom in Hlen; discriminate|].
      apply collect_total. intros event Hin.
      destruct Hok as [Hnil|Hres]; [rewrite Hnil in Hin; destruct Hin|].
      unfold hasOwnProperty. rewrite Hres.
      destruct (_ && _); [|eauto].
      destruct (get (props events) event) as [[commands|]|]; [|eauto..].
      destruct (get BUILTIN_EVENTS_MAP event); eauto.
    + intros options. apply collect_Forall. intros event ys.
      destruct (hasOwnProperty _ event) as [own|e]; [|discriminate].
      destruct (own && _) eqn:Hcond; [|intros [= <-]; constructor].
      apply andb_prop in Hcond as [_ Hb].
      destruct (builtin_event event Hb) as [-> | ->];
        (destruct (get _ _) as [[commands|]|]; simpl; intros [= <-]; constructor;
         [reflexivity | constructor]).
Qed.

(** X17.  For an [events] object written as a literal with no property
    named [hasOwnProperty], an event other than [start] and [end] is
    passed over: [translateHooks] returns what it returns without that
    event, whatever is given for it. *)
Theorem translateHooks_ignores_other_events
  this (before after : list (string * option Commands)) event value :
  includes BUILTIN_EVENT_NAMES event = false ->
  hasOwn (before ++ (event, value) :: after) "hasOwnProperty" = false ->
  opt_events (this_options this) = Some (literal (before ++ (event, value) :: after)) ->
  webpackPlugin_translateHooks this
  = webpackPlugin_translateHooks
      (mkPlugin (mkOptions (opt_options (this_options this))
                   (Some (literal (before ++ after)))
                   (opt_customHooks (this_options this)))).
Proof.
  intros Hev Hplain Hevents. unfold webpackPlugin_translateHooks.
  cbn [this_options opt_events opt_customHooks opt_options]. rewrite Hevents.
  cbn [from_option id].
  destruct (0 <? _)%nat; [reflexivity|].
  assert (Hplain' : hasOwn (before ++ after) "hasOwnProperty" = false).
  { rewrite hasOwn_app in Hplain |- *. apply orb_false_elim in Hplain as [H1 H2].
    rewrite H1. unfold hasOwn in H2 |- *. cbn [existsb] in H2.
    by apply orb_false_elim in H2 as [_ H2]. }
  unfold ownKeys, keys. cbn [props literal]. rewrite !map_app. cbn [List.map fst].
  rewrite collect_without.
  2:{ unfold hasOwnProperty. rewrite resolves_literal, Hplain. cbn [negb].
      by rewrite Hev, andb_false_r. }
  apply collect_ext. intros k.
  unfold hasOwnProperty. rewrite !resolves_literal, Hplain, Hplain'.
  cbn [negb props literal].
  destruct (includes BUILTIN_EVENT_NAMES k) eqn:Hk.
  - pose proof (differs _ _ _ Hev Hk) as Hne.
    by rewrite (hasOwn_app_other _ _ _ _ _ Hne), (get_app_other _ _ _ _ _ Hne).
  - by rewrite !andb_false_r.
Qed.

(** *** Further properties: the callbacks given to the host *)

Lemma no_host_callback added :
  forallb (fun e => isExec e || isCluster e || isSetSpeed e) added = true ->
  List.filter isHostCallback added = [].
Proof.
  induction added as [|e added IH]; simpl; [reflexivity|].
  intros H. apply andb_prop in H as [He Hrest].
  destruct e; simpl in *; try discriminate; by apply IH.
Qed.

(** X18.  Of the three callbacks handed to the host, only the
    [tapAsync] one calls the host back, once and as its last act, and
    only when [handleCommand] completed: when [handleCommand] throws, the
    host's callback is never called. *)
Theorem host_called_back_after_success this style commands rt :
  let result := hookCallback commander masterCluster this style commands rt in
  exists added,
    trace (fst result) = trace rt ++ added /\
    match style, snd result with
    | tapAsyncCallback, Done _ =>
        exists calls, added = calls ++ [HostCallback] /\
                      List.filter isHostCallback calls = []
    | _, _ => List.filter isHostCallback added = []
    end.
Proof.
  intros result. unfold result.
  destruct (pluginLoop_keeps this commands (ownKeys commands) rt)
    as (_ & added & Htr & Hok).
  fold (pluginRun this commands) in Htr.
  pose proof (no_host_callback added Hok) as Hnone.
  destruct style; simpl.
  - exists added. split; [exact Htr|].
    by destruct (snd (pluginRun this commands rt)).
  - exists added. split; [exact Htr|].
    by destruct (snd (pluginRun this commands rt)).
  - unfold bind. destruct (pluginRun this commands rt) as [rt' [[]|e]]; simpl in *.
    + exists (added ++ [HostCallback]). rewrite Htr, <- app_assoc. split; [reflexivity|].
      by exists added.
    + exists added. by split.
Qed.

End Properties.

(** ** The claims on concrete batches *)

(** The end-to-end example of the specification: three sequential
    [copy] calls in order, no [del] call, the fingerprint of the three
    items stored for [copy] and nothing stored for [del]. *)
Example end_to_end :
  let items := [JStr "a"; JStr "b"; JStr "c"] in
  let batch := literal [("copy", BEntry (mkEntry (Some items) (Some [])));
                        ("del", BEntry (mkEntry (Some []) (Some [])))] in
  let globalOptions := [("parallel", JNum 0); ("cache", JBool true)] in
  handleCommand countingCommander countingCluster lettersJSON
    (Some batch) (Some globalOptions) freshRuntime
  = (mkRuntime 3%nat {[ "copy" := lettersJSON items ]} None
       [Exec "copy" (JStr "a") globalOptions;
        Exec "copy" (JStr "b") globalOptions;
        Exec "copy" (JStr "c") globalOptions;
        CacheWrite "copy" (lettersJSON items)],
     Done tt).
Proof. reflexivity. Qed.

(** Fail-fast on a concrete batch: the second item of [copy] is
    rejected, the third is not run, nothing is stored, and [del] is not
    run. *)
Example fail_fast_sample :
  handleCommand countingCommander countingCluster lettersJSON
    (Some copyLockedThenDel) (Some []) freshRuntime
  = (mkRuntime 1%nat ∅ None
       [Exec "copy" (JStr "a") []; Exec "copy" (JStr "locked") []],
     Thrown (Rejection (JStr "EACCES"))).
Proof. reflexivity. Qed.

(** An executor stub that records its calls sees the items in input
    order, in the stand-alone function and in the plugin's method. *)
Example stub_records_input_order :
  world (fst (handleCommand recordingCommander recordingCluster lettersJSON
                (Some copyTwo) (Some []) (mkRuntime [] ∅ None [])))
  = [JStr "a"; JStr "b"] /\
  world (fst (webpackPlugin_handleCommand recordingCommander recordingCluster
                plainPlugin copyTwo (mkRuntime [] ∅ None [])))
  = [JStr "a"; JStr "b"].
Proof. split; reflexivity. Qed.

Lemma dispatch_follows_global_parallel_witness :
  ownKeys copyWithOwnParallel = [] ++ "copy" :: [] /\
  recognized copyWithOwnParallel "copy" = true /\
  skipCondition lettersJSON copyWithOwnParallel [] "copy" freshRuntime = false /\
  allResolve countingCommander "copy" [("parallel", JNum 2)] [JStr "a"; JStr "b"] 0%nat
  = true /\
  handleCommand countingCommander countingCluster lettersJSON
    (Some copyWithOwnParallel) (Some []) freshRuntime
  = (mkRuntime 2%nat {[ "copy" := copyTwoFingerprint ]} None
       [Exec "copy" (JStr "a") [("parallel", JNum 2)];
        Exec "copy" (JStr "b") [("parallel", JNum 2)];
        CacheWrite "copy" copyTwoFingerprint],
     Done tt).
Proof.
  split; [reflexivity|]. split; [reflexivity|]. split; [reflexivity|].
  split; [reflexivity|].
  exact (proj1 (proj1 (dispatch_follows_global_parallel countingCommander countingCluster
                         lettersJSON plainPlugin copyWithOwnParallel [] "copy" [] []
                         freshRuntime freshRuntime eq_refl eq_refl)
                  eq_refl eq_refl)
           eq_refl).
Defined.

(** C1, as stated, fails.  The command's own options carry the worker
    count 2, the global options none: the merged options have
    [parallel: 2], yet the two items are run one after the other and the
    cluster runner is not called.  The other way round, with [parallel: 2]
    globally and [parallel: 0] for the command, the merged options carry
    no worker count and the cluster runner is called all the same.  The
    plugin's method does the same. *)
Lemma per_command_parallel_does_not_decide :
  (prop (mergedOptions copyWithOwnParallel [] "copy") "parallel" = JNum 2 /\
   trace (fst (handleCommand countingCommander countingCluster lettersJSON
                 (Some copyWithOwnParallel) (Some []) freshRuntime))
   = [Exec "copy" (JStr "a") [("parallel", JNum 2)];
      Exec "copy" (JStr "b") [("parallel", JNum 2)];
      CacheWrite "copy" copyTwoFingerprint] /\
   trace (fst (webpackPlugin_handleCommand countingCommander countingCluster
                 plainPlugin copyWithOwnParallel freshRuntime))
   = [Exec "copy" (JStr "a") [("parallel", JNum 2)];
      Exec "copy" (JStr "b") [("parallel", JNum 2)]]) /\
  (prop (mergedOptions copySequentially [("parallel", JNum 2)] "copy") "parallel"
   = JNum 0 /\
   trace (fst (handleCommand countingCommander countingCluster lettersJSON
                 (Some copySequentially) (Some [("parallel", JNum 2)]) freshRuntime))
   = [Cluster [JStr "a"; JStr "b"] (JNum 2) "copy" [("parallel", JNum 0)];
      CacheWrite "copy" copyTwoFingerprint]).
Proof. repeat split; reflexivity. Qed.

Lemma skip_exactly_when_cached_or_empty_witness :
  ownKeys copyTwo = [] ++ "copy" :: [] /\
  recognized copyTwo "copy" = true /\
  (cacheEnabled (mergedOptions copyTwo [] "copy") = true /\
   cache cachedRuntime !! "copy" = Some (lettersJSON (itemsOf copyTwo "copy"))) /\
  handleCommand countingCommander countingCluster lettersJSON
    (Some copyTwo) (Some []) cachedRuntime
  = (cachedRuntime, Done tt).
Proof.
  split; [reflexivity|]. split; [reflexivity|]. split; [split; reflexivity|].
  exact (proj1 (proj2 (skip_exactly_when_cached_or_empty countingCommander
                         countingCluster lettersJSON plainPlugin copyTwo [] "copy"
                         [] [] cachedRuntime cachedRuntime eq_refl eq_refl eq_refl))
           (or_introl (conj eq_refl eq_refl))).
Defined.

(** C2, as stated, fails on the plugin's method, which has no skip.
    With the fingerprint of the two items of [copy] stored, the
    stand-alone step skips the command, and the plugin's method runs both
    items and reports them.  With an empty item list and a worker count,
    the plugin's method still calls the cluster runner and reports to the
    sink. *)
Lemma plugin_never_skips :
  (handleCommand_step countingCommander countingCluster lettersJSON copyTwo progressOn
     "copy" trackedCachedRuntime
   = (trackedCachedRuntime, Done tt) /\
   trace (fst (webpackPlugin_handleCommand countingCommander countingCluster
                 trackingPlugin copyTwo trackedCachedRuntime))
   = [Exec "copy" (JStr "a") progressOn; SetSpeed 1;
      Exec "copy" (JStr "b") progressOn; SetSpeed 1]) /\
  (itemsOf copyNothing "copy" = [] /\
   trace (fst (webpackPlugin_handleCommand countingCommander countingCluster
                 parallelPlugin copyNothing trackedRuntime))
   = [Cluster [] (JNum 2) "copy" [("parallel", JNum 2); ("progress", JBool true)];
      SetSpeed 0]).
Proof. repeat split; reflexivity. Qed.

Lemma cache_written_only_after_success_witness :
  ownKeys copyLockedThenDel = [] ++ "copy" :: ["del"] /\
  recognized copyLockedThenDel "copy" = true /\
  skipCondition lettersJSON copyLockedThenDel [] "copy" freshRuntime = false /\
  truthy (prop [] "parallel") = false /\
  itemsOf copyLockedThenDel "copy" = [JStr "a"] ++ JStr "locked" :: [JStr "b"] /\
  allResolve countingCommander "copy" (mergedOptions copyLockedThenDel [] "copy")
    [JStr "a"] 0%nat = true /\
  countingCommander "copy" (JStr "locked") (mergedOptions copyLockedThenDel [] "copy")
    1%nat = (1%nat, Rejected (JStr "EACCES")) /\
  handleCommand countingCommander countingCluster lettersJSON
    (Some copyLockedThenDel) (Some []) freshRuntime
  = (mkRuntime 1%nat ∅ None
       [Exec "copy" (JStr "a") []; Exec "copy" (JStr "locked") []],
     Thrown (Rejection (JStr "EACCES"))).
Proof.
  split; [reflexivity|]. split; [reflexivity|]. split; [reflexivity|].
  split; [reflexivity|]. split; [reflexivity|]. split; [reflexivity|].
  split; [reflexivity|].
  exact (proj1 (proj2 (proj2 (cache_written_only_after_success countingCommander
                                countingCluster lettersJSON copyLockedThenDel []
                                "copy" [] ["del"] freshRuntime freshRuntime
                                eq_refl eq_refl eq_refl eq_refl)))
           eq_refl [JStr "a"] (JStr "locked") [JStr "b"] 1%nat (JStr "EACCES")
           eq_refl eq_refl eq_refl).
Defined.

Lemma second_run_is_idle_witness :
  (forall command,
      In command (ownKeys copyTwo) -> recognized copyTwo command = true ->
      cacheEnabled (mergedOptions copyTwo [] command) = true) /\
  handleCommand countingCommander countingCluster lettersJSON
    (Some copyTwo) (Some []) freshRuntime
  = (afterCopyTwo, Done tt) /\
  handleCommand countingCommander countingCluster lettersJSON
    (Some copyTwo) (Some []) afterCopyTwo
  = (afterCopyTwo, Done tt).
Proof.
  assert (Hflag : forall command,
             In command (ownKeys copyTwo) -> recognized copyTwo command = true ->
             cacheEnabled (mergedOptions copyTwo [] command) = true).
  { intros command [<-|[]] _. reflexivity. }
  split; [exact Hflag|]. split; [reflexivity|].
  exact (proj1 (second_run_is_idle countingCommander countingCluster lettersJSON
                  plainPlugin copyTwo [] freshRuntime afterCopyTwo)
           Hflag eq_refl).
Defined.

(** C4, as stated, fails.  The plugin's method, run a second time on
    the same batch, makes the same executor calls again.  And in the
    stand-alone function, with [cache: true] in the global options and
    [cache: false] among the command's own, nothing is stored and the
    second run repeats the calls of the first. *)
Lemma second_run_repeats_calls :
  (let first := webpackPlugin_handleCommand countingCommander countingCluster
                  plainPlugin copyTwo freshRuntime in
   snd first = Done tt /\
   trace (fst first) = [Exec "copy" (JStr "a") []; Exec "copy" (JStr "b") []] /\
   trace (fst (webpackPlugin_handleCommand countingCommander countingCluster
                 plainPlugin copyTwo (fst first)))
   = [Exec "copy" (JStr "a") []; Exec "copy" (JStr "b") [];
      Exec "copy" (JStr "a") []; Exec "copy" (JStr "b") []]) /\
  (let first := handleCommand countingCommander countingCluster lettersJSON
                  (Some copyTwoUncached) (Some cacheOn) freshRuntime in
   snd first = Done tt /\
   trace (fst first)
   = [Exec "copy" (JStr "a") [("cache", JBool false)];
      Exec "copy" (JStr "b") [("cache", JBool false)]] /\
   trace (fst (handleCommand countingCommander countingCluster lettersJSON
                 (Some copyTwoUncached) (Some cacheOn) (fst first)))
   = [Exec "copy" (JStr "a") [("cache", JBool false)];
      Exec "copy" (JStr "b") [("cache", JBool false)];
      Exec "copy" (JStr "a") [("cache", JBool false)];
      Exec "copy" (JStr "b") [("cache", JBool false)]]).
Proof. repeat split; reflexivity. Qed.

Lemma sequential_in_list_order_witness :
  ownKeys copyTwo = [] ++ "copy" :: [] /\
  recognized copyTwo "copy" = true /\
  skipCondition lettersJSON copyTwo [] "copy" freshRuntime = false /\
  truthy (prop [] "parallel") = false /\
  ((allResolve countingCommander "copy" [] [JStr "a"; JStr "b"] 0%nat = true /\
    handleCommand countingCommander countingCluster lettersJSON
      (Some copyTwo) (Some []) freshRuntime
    = (afterCopyTwo, Done tt))
   \/
   (exists done item rest w reason,
       [JStr "a"; JStr "b"] = done ++ item :: rest /\
       allResolve countingCommander "copy" [] done 0%nat = true /\
       countingCommander "copy" item [] (worldAfter countingCommander "copy" [] done 0%nat)
       = (w, Rejected reason) /\
       handleCommand countingCommander countingCluster lettersJSON
         (Some copyTwo) (Some []) freshRuntime
       = (withCalls freshRuntime w
            (List.map (fun item => Exec "copy" item []) (done ++ [item])),
          Thrown (Rejection reason)))).
Proof.
  split; [reflexivity|]. split; [reflexivity|]. split; [reflexivity|].
  split; [reflexivity|].
  exact (proj1 (sequential_in_list_order countingCommander countingCluster lettersJSON
                  plainPlugin copyTwo [] "copy" [] [] freshRuntime freshRuntime
                  eq_refl eq_refl)
           eq_refl eq_refl eq_refl).
Defined.

Lemma progress_accounting_witness :
  ownKeys copyTwo = [] ++ "copy" :: [] /\
  recognized copyTwo "copy" = true /\
  at_key copyTwo "copy" = BEntry (mkEntry (Some [JStr "a"; JStr "b"]) (Some [])) /\
  truthy (prop (globalOptionsOf trackingPlugin) "progress") = true /\
  progress trackedRuntime = Some (mkProgress PROGRESS_TASK_NAME 2 0) /\
  allResolve countingCommander "copy" progressOn [JStr "a"; JStr "b"] 0%nat = true /\
  webpackPlugin_handleCommand countingCommander countingCluster trackingPlugin copyTwo
    trackedRuntime
  = (mkRuntime 2%nat ∅ (Some (mkProgress PROGRESS_TASK_NAME 2 2))
       [Exec "copy" (JStr "a") progressOn; SetSpeed 1;
        Exec "copy" (JStr "b") progressOn; SetSpeed 1],
     Done tt).
Proof.
  split; [reflexivity|]. split; [reflexivity|]. split; [reflexivity|].
  split; [reflexivity|]. split; [reflexivity|]. split; [reflexivity|].
  exact (proj1 (proj1 (progress_accounting countingCommander countingCluster lettersJSON
                         trackingPlugin copyTwo "copy"
                         (mkEntry (Some [JStr "a"; JStr "b"]) (Some []))
                         (mkProgress PROGRESS_TASK_NAME 2 0) [] []
                         trackedRuntime trackedRuntime
                         eq_refl eq_refl eq_refl eq_refl eq_refl eq_refl))
           eq_refl).
Defined.

(** C6, as stated, fails on the stand-alone function.  With
    [progress: true] in the global options and a sink in place, both
    items of [copy] are run and the sink is never told: no [setSpeed]
    call is made and the completed count stays at 0. *)
Lemma standalone_reports_no_progress :
  truthy (prop progressOn "progress") = true /\
  handleCommand countingCommander countingCluster lettersJSON
    (Some copyTwo) (Some progressOn) trackedRuntime
  = (mkRuntime 2%nat {[ "copy" := copyTwoFingerprint ]}
       (Some (mkProgress PROGRESS_TASK_NAME 2 0))
       [Exec "copy" (JStr "a") progressOn; Exec "copy" (JStr "b") progressOn;
        CacheWrite "copy" copyTwoFingerprint],
     Done tt).
Proof. split; reflexivity. Qed.


Lemma unknown_key_hasOwnProperty_throws_witness :
  ownKeys shadowingBatch = "hasOwnProperty" :: ["copy"] /\
  hasOwn (props shadowingBatch) "hasOwnProperty" = true /\
  handleCommand countingCommander countingCluster lettersJSON
    (Some shadowingBatch) (Some []) freshRuntime
  = (freshRuntime, Thrown TypeError) /\
  webpackPlugin_handleCommand countingCommander countingCluster plainPlugin
    shadowingBatch freshRuntime
  = (freshRuntime, Thrown TypeError).
Proof.
  split; [reflexivity|]. split; [reflexivity|].
  exact (proj2 (unknown_key_hasOwnProperty_throws countingCommander countingCluster
                  lettersJSON plainPlugin shadowingBatch (Some []) "hasOwnProperty"
                  ["copy"] freshRuntime eq_refl (or_introl eq_refl))).
Defined.

Lemma constructor_defaults_witness :
  Object_prototype_toString (ArgString "dist") <> "[object Object]" /\
  webpackPlugin_constructor (ArgString "dist")
  = webpackPlugin_constructor (ArgOptions noOptions).
Proof.
  assert (Htag : Object_prototype_toString (ArgString "dist") <> "[object Object]")
    by discriminate.
  split; [exact Htag|].
  exact (proj1 (constructor_defaults neverThrows (ArgString "dist") freshRuntime Htag)).
Defined.

Lemma missing_items_is_skipped_witness :
  ownKeys delNothing = [] ++ "del" :: [] /\
  recognized delNothing "del" = true /\
  at_key delNothing "del" = BNull /\
  handleCommand countingCommander countingCluster lettersJSON
    (Some delNothing) (Some []) freshRuntime
  = (freshRuntime, Done tt).
Proof.
  split; [reflexivity|]. split; [reflexivity|]. split; [reflexivity|].
  exact (proj2 (proj2 (proj1 (missing_items_is_skipped countingCommander countingCluster
                                lettersJSON delNothing [] "del" [] []
                                freshRuntime freshRuntime eq_refl eq_refl eq_refl)
                         (or_introl eq_refl)))).
Defined.

(** C10, as stated, fails.  The entry of [copy] is an object without
    [options]; it is not skipped: the executor is called on its item and
    the fingerprint is stored. *)
Lemma entry_without_options_is_run :
  at_key copyWithoutOptions "copy" = BEntry (mkEntry (Some [JStr "a"]) None) /\
  handleCommand countingCommander countingCluster lettersJSON
    (Some copyWithoutOptions) (Some []) freshRuntime
  = (mkRuntime 1%nat {[ "copy" := lettersJSON [JStr "a"] ]} None
       [Exec "copy" (JStr "a") []; CacheWrite "copy" (lettersJSON [JStr "a"])],
     Done tt).
Proof. split; reflexivity. Qed.

(** ** The further properties on concrete batches *)

Lemma merged_options_lookup_witness :
  List.NoDup (keys [("cache", JBool true); ("parallel", JNum 2)]) /\
  List.NoDup (keys (optionsOf copyTwoUncached "copy")) /\
  prop (mergedOptions copyTwoUncached [("cache", JBool true); ("parallel", JNum 2)] "copy")
    "cache"
  = match get (optionsOf copyTwoUncached "copy") "cache" with
    | Some v => v
    | None => prop [("cache", JBool true); ("parallel", JNum 2)] "cache"
    end.
Proof.
  assert (Hg : List.NoDup (keys [("cache", JBool true); ("parallel", JNum 2)])).
  { constructor; [simpl; intros [H|[]]; discriminate H|].
    constructor; [simpl; tauto | constructor]. }
  assert (Ho : List.NoDup (keys (optionsOf copyTwoUncached "copy"))).
  { constructor; [simpl; tauto | constructor]. }
  split; [exact Hg|]. split; [exact Ho|].
  exact (merged_options_lookup copyTwoUncached _ "copy" "cache" Hg Ho).
Defined.

Lemma handleCommand_splits_witness :
  hasOwn (props copyTwo ++ props delNothing) "hasOwnProperty" = false /\
  (forall k, In k (keys (props copyTwo)) -> ~ In k (keys (props delNothing))) /\
  handleCommand countingCommander countingCluster lettersJSON
    (Some (literal (props copyTwo ++ props delNothing))) (Some []) freshRuntime
  = match handleCommand countingCommander countingCluster lettersJSON
            (Some (literal (props copyTwo))) (Some []) freshRuntime with
    | (rt', Done _) =>
        handleCommand countingCommander countingCluster lettersJSON
          (Some (literal (props delNothing))) (Some []) rt'
    | (rt', Thrown e) => (rt', Thrown e)
    end.
Proof.
  assert (Hdisjoint : forall k, In k (keys (props copyTwo)) ->
                                ~ In k (keys (props delNothing))).
  { intros k [<-|[]] [H|[]]. discriminate. }
  split; [reflexivity|]. split; [exact Hdisjoint|].
  exact (proj1 (handleCommand_splits countingCommander countingCluster lettersJSON
                  plainPlugin (props copyTwo) (props delNothing) (Some []) freshRuntime
                  eq_refl Hdisjoint)).
Defined.

Lemma cache_off_always_runs_witness :
  recognized copyTwoUncached "copy" = true /\
  cacheEnabled (mergedOptions copyTwoUncached [] "copy") = false /\
  cache cachedRuntime !! "copy" = Some (fingerprint lettersJSON copyTwoUncached "copy") /\
  cache (fst (handleCommand_step countingCommander countingCluster lettersJSON
                copyTwoUncached [] "copy" cachedRuntime))
  = cache cachedRuntime.
Proof.
  split; [reflexivity|]. split; [reflexivity|]. split; [reflexivity|].
  exact (proj1 (cache_off_always_runs countingCommander countingCluster lettersJSON
                  copyTwoUncached [] "copy" cachedRuntime eq_refl eq_refl)).
Defined.

Lemma unknown_command_ignored_witness :
  ~ In "chmod" ["copy"; "move"; "del"; "zip"; "unzip"; "rename"] /\
  hasOwn ([] ++ ("chmod", BEntry (mkEntry (Some [JStr "a"]) None)) :: props copyTwo)
    "hasOwnProperty" = false /\
  handleCommand countingCommander countingCluster lettersJSON
    (Some (literal ([] ++ ("chmod", BEntry (mkEntry (Some [JStr "a"]) None))
                       :: props copyTwo)))
    (Some []) freshRuntime
  = handleCommand countingCommander countingCluster lettersJSON
      (Some (literal ([] ++ props copyTwo))) (Some []) freshRuntime.
Proof.
  assert (Hunknown : ~ In "chmod" ["copy"; "move"; "del"; "zip"; "unzip"; "rename"]).
  { intros H. repeat (destruct H as [H|H]; [discriminate H|]). exact H. }
  split; [exact Hunknown|]. split; [reflexivity|].
  exact (proj1 (proj2 (unknown_command_ignored countingCommander countingCluster
                         lettersJSON plainPlugin [] (props copyTwo) "chmod"
                         (BEntry (mkEntry (Some [JStr "a"]) None)) []
                         freshRuntime Hunknown eq_refl))).
Defined.

Lemma plugin_rejects_missing_entry_witness :
  ownKeys copyNull = [] ++ "copy" :: [] /\
  recognized copyNull "copy" = true /\
  at_key copyNull "copy" = BNull /\
  webpackPlugin_handleCommand countingCommander countingCluster trackingPlugin copyNull
    freshRuntime
  = (freshRuntime, Thrown TypeError).
Proof.
  split; [reflexivity|]. split; [reflexivity|]. split; [reflexivity|].
  exact (plugin_rejects_missing_entry countingCommander countingCluster trackingPlugin
           copyNull "copy" [] [] freshRuntime freshRuntime eq_refl eq_refl
           (or_introl eq_refl) eq_refl).
Defined.

Lemma plugin_progress_without_sink_witness :
  recognized copyTwo "copy" = true /\
  at_key copyTwo "copy" = BEntry (mkEntry (Some [JStr "a"; JStr "b"]) (Some [])) /\
  truthy (prop (globalOptionsOf trackingPlugin) "progress") = true /\
  progress sinklessRuntime = None /\
  webpackPlugin_handleCommand_step countingCommander countingCluster trackingPlugin
    copyTwo "copy" sinklessRuntime
  = (mkRuntime 1%nat ∅ None [Exec "copy" (JStr "a") progressOn], Thrown TypeError).
Proof.
  split; [reflexivity|]. split; [reflexivity|]. split; [reflexivity|].
  split; [reflexivity|].
  exact (plugin_progress_without_sink countingCommander countingCluster trackingPlugin
           copyTwo "copy" (mkEntry (Some [JStr "a"; JStr "b"]) (Some []))
           sinklessRuntime eq_refl eq_refl eq_refl eq_refl).
Defined.

Lemma plugin_progress_reaches_count_witness :
  truthy (prop (globalOptionsOf trackingPlugin) "progress") = true /\
  truthy (prop (globalOptionsOf trackingPlugin) "parallel") = false /\
  progress trackedRuntime = Some (mkProgress PROGRESS_TASK_NAME 2 0) /\
  snd (webpackPlugin_handleCommand countingCommander countingCluster trackingPlugin
         copyTwo trackedRuntime) = Done tt /\
  progress (fst (webpackPlugin_handleCommand countingCommander countingCluster
                   trackingPlugin copyTwo trackedRuntime))
  = Some (setSpeed (itemCount copyTwo) (mkProgress PROGRESS_TASK_NAME 2 0)) /\
  countCommands copyTwo 0 = Done (itemCount copyTwo).
Proof.
  split; [reflexivity|]. split; [reflexivity|]. split; [reflexivity|].
  split; [reflexivity|].
  exact (plugin_progress_reaches_count countingCommander countingCluster trackingPlugin
           copyTwo trackedRuntime
           (fst (webpackPlugin_handleCommand countingCommander countingCluster
                   trackingPlugin copyTwo trackedRuntime))
           (mkProgress PROGRESS_TASK_NAME 2 0) eq_refl eq_refl eq_refl eq_refl).
Defined.

Lemma apply_rejects_missing_entry_witness :
  webpackPlugin_translateHooks nullEntryPlugin = Done [nullEntryHook] /\
  In nullEntryHook [nullEntryHook] /\
  supportedHookType (hookType nullEntryHook) = true /\
  In "copy" (ownKeys (hookCommands nullEntryHook)) /\
  recognized (hookCommands nullEntryHook) "copy" = true /\
  at_key (hookCommands nullEntryHook) "copy" = BNull /\
  webpackPlugin_countTotalTasks [nullEntryHook] = Thrown TypeError /\
  webpackPlugin_apply neverThrows nullEntryPlugin freshRuntime
  = (freshRuntime, Thrown TypeError).
Proof.
  split; [reflexivity|]. split; [left; reflexivity|]. split; [reflexivity|].
  split; [left; reflexivity|]. split; [reflexivity|]. split; [reflexivity|].
  exact (apply_rejects_missing_entry neverThrows nullEntryPlugin [nullEntryHook]
           freshRuntime nullEntryHook "copy" eq_refl (or_introl eq_refl) eq_refl
           (or_introl eq_refl) eq_refl (or_introl eq_refl)).
Defined.

(** A custom hook of the type [constructor], a member the table
    inherits: its two items are counted and its registration is
    attempted. *)
Lemma apply_registers_supported_hooks_witness :
  webpackPlugin_translateHooks inheritedTypePlugin = Done [inheritedTypeHook] /\
  webpackPlugin_countTotalTasks [inheritedTypeHook] = Done 2 /\
  webpackPlugin_apply neverThrows inheritedTypePlugin freshRuntime
  = (mkRuntime 0%nat ∅ (Some (mkProgress PROGRESS_TASK_NAME 2 0))
       [Tap (Some "done") "constructor" (Some "mine") copyTwo],
     Done tt).
Proof.
  split; [reflexivity|]. split; [reflexivity|].
  exact (apply_registers_supported_hooks neverThrows inheritedTypePlugin
           [inheritedTypeHook] freshRuntime 2 eq_refl eq_refl).
Defined.

Lemma translateHooks_custom_witness :
  opt_customHooks (this_options customPlugin) = Some customHooksSample /\
  customHooksSample <> [] /\
  exists translated,
    webpackPlugin_translateHooks customPlugin = Done translated /\
    List.map registerName translated
    = List.map (fun hook =>
                  if falsyName (registerName hook)
                  then Some (NAMESPACE_REGISTER_NAME +:+ default "undefined" (hookName hook))
                  else registerName hook) customHooksSample /\
    webpackPlugin_countTotalTasks translated
    = webpackPlugin_countTotalTasks customHooksSample.
Proof.
  assert (Hne : customHooksSample <> []) by discriminate.
  split; [reflexivity|]. split; [exact Hne|].
  destruct (translateHooks_custom customPlugin customHooksSample eq_refl Hne)
    as (translated & Hdone & _ & _ & _ & Hnames & Hcount & _).
  exists translated. split; [exact Hdone|]. split; [exact Hnames | exact Hcount].
Defined.

Lemma translateHooks_events_witness :
  (opt_customHooks (this_options trackingPlugin) = None \/
   opt_customHooks (this_options trackingPlugin) = Some []) /\
  (ownKeys (literal [("end", Some copyTwo)]) = [] \/
   resolves (literal [("end", Some copyTwo)]) = true) /\
  exists options, webpackPlugin_translateHooks trackingPlugin = Done options.
Proof.
  split; [left; reflexivity|]. split; [right; reflexivity|].
  exact (proj1 (translateHooks_events trackingPlugin (or_introl eq_refl))
           (or_intror eq_refl)).
Defined.

Lemma translateHooks_names_witness :
  (exists hook hooks,
      opt_customHooks (this_options customPlugin) = Some (hook :: hooks)) /\
  exists options, webpackPlugin_translateHooks customPlugin = Done options.
Proof.
  assert (Hcustom : exists hook hooks,
             opt_customHooks (this_options customPlugin) = Some (hook :: hooks)).
  { eexists _, _. reflexivity. }
  split; [exact Hcustom|].
  exact (proj1 (translateHooks_names customPlugin) (or_introl Hcustom)).
Defined.

Lemma translateHooks_ignores_other_events_witness :
  includes BUILTIN_EVENT_NAMES "compile" = false /\
  hasOwn ([("start", Some copyTwo)] ++ ("compile", Some copyTwo) :: [])
    "hasOwnProperty" = false /\
  webpackPlugin_translateHooks strayEventPlugin
  = webpackPlugin_translateHooks
      (mkPlugin (mkOptions None (Some (literal ([("start", Some copyTwo)] ++ []))) None)).
Proof.
  split; [reflexivity|]. split; [reflexivity|].
  exact (translateHooks_ignores_other_events strayEventPlugin
           [("start", Some copyTwo)] [] "compile" (Some copyTwo) eq_refl eq_refl eq_refl).
Defined.

Lemma sink_ready_after_apply_witness :
  snd (webpackPlugin_apply neverThrows trackingPlugin freshRuntime) = Done tt /\
  sinkReady (tracksProgress trackingPlugin)
    (fst (webpackPlugin_apply neverThrows trackingPlugin freshRuntime)).
Proof.
  split; [reflexivity|].
  exact (proj1 (sink_ready_after_apply countingCommander countingCluster neverThrows
                  trackingPlugin freshRuntime)
           eq_refl).
Defined.
